(** * Polling scheduler, rate-limit tracker and pollers: a shallow embedding

    The development follows the JavaScript sources
      - handlers/eventHandler.js   (getNextCheckTime, startPolling),
      - integrations/twitter.js    (TwitterIntegration),
      - integrations/youtube.js    (YouTubeIntegration),
      - commands/youtube.js        (the /youtube command),
      - database/database.js       (the three sqlite tables).

    Conventions.  A JavaScript number that holds a count or a timestamp is
    an integer here ([Z], milliseconds for timestamps): the counts of the
    tracker are 180, 0 and what [parseInt] reads from a decimal header.
    Asynchronous code is sequential code over an explicit state;
    [await new Promise(r => setTimeout(r, d))] moves the clock of that
    state forward by [d].  The storage engine answers every statement;
    a log statement is kept only where it can throw. *)

From Stdlib Require Import ZArith List Bool String Lia.
Import ListNotations.
Local Open Scope Z_scope.

(* ------------------------------------------------------------------ *)
(** * JavaScript [Date]: time values and local-time fields *)

Module JsDate.

(** A [Date] is its time value: milliseconds since the epoch, in UTC. *)
Definition Date := Z.

Definition msPerSecond : Z := 1000.
Definition msPerMinute : Z := 60000.
Definition msPerHour   : Z := 3600000.

(** The time zone of the host.  [tza t] is the offset in force at the
    instant [t]; [tza_local w] is the offset the engine picks for the
    wall-clock value [w] (at a repeated or skipped wall-clock hour the two
    need not agree).  Both change at a daylight-saving transition. *)
Record Zone := mkZone { tza : Z -> Z; tza_local : Z -> Z }.

(** A zone whose offset never changes. *)
Definition fixedZone (off : Z) : Zone :=
  {| tza := fun _ => off; tza_local := fun _ => off |}.

(** [LocalTime] and [UTC] of the language definition. *)
Definition LocalTime (z : Zone) (t : Z) : Z := t + tza z t.
Definition UTC (z : Zone) (w : Z) : Z := w - tza_local z w.

Definition HourFromTime (w : Z) : Z := (w / msPerHour) mod 24.
Definition MinFromTime (w : Z) : Z := (w / msPerMinute) mod 60.
Definition SecFromTime (w : Z) : Z := (w / msPerSecond) mod 60.
Definition msFromTime (w : Z) : Z := w mod 1000.

Definition getTime (d : Date) : Z := d.
Definition getHours (z : Zone) (d : Date) : Z := HourFromTime (LocalTime z d).
Definition getMinutes (z : Zone) (d : Date) : Z := MinFromTime (LocalTime z d).
Definition getSeconds (z : Zone) (d : Date) : Z := SecFromTime (LocalTime z d).
Definition getMilliseconds (z : Zone) (d : Date) : Z := msFromTime (LocalTime z d).

(** Setters read the local time, replace one field (a value outside the
    field's range carries into the larger fields) and convert the new
    wall-clock value back with [UTC]. *)
Definition setHours (z : Zone) (d : Date) (h : Z) : Date :=
  let w := LocalTime z d in UTC z (w + (h - HourFromTime w) * msPerHour).
Definition setMinutes (z : Zone) (d : Date) (m : Z) : Date :=
  let w := LocalTime z d in UTC z (w + (m - MinFromTime w) * msPerMinute).
Definition setSeconds (z : Zone) (d : Date) (s : Z) : Date :=
  let w := LocalTime z d in UTC z (w + (s - SecFromTime w) * msPerSecond).
Definition setMilliseconds (z : Zone) (d : Date) (ms : Z) : Date :=
  let w := LocalTime z d in UTC z (w + (ms - msFromTime w)).

(** A wall-clock value from day, hour, minute, second, ms, and the instant
    that reads so in zone [z]. *)
Definition wall_clock (day h m s ms : Z) : Z :=
  day * 86400000 + h * msPerHour + m * msPerMinute + s * msPerSecond + ms.
Definition at_time (z : Zone) (day h m s ms : Z) : Date :=
  UTC z (wall_clock day h m s ms).

(** [new Date(t).toISOString()] throws a RangeError outside this range. *)
Definition maxTimeValue : Z := 8640000000000000.
Definition valid_date (t : Z) : bool :=
  (- maxTimeValue <=? t) && (t <=? maxTimeValue).

(** A zone with one transition: offset [before] up to the instant
    [change], [after] from then on; a wall-clock value that occurs twice
    or never is read with the offset [before]. *)
Definition zoneWithChange (change before after : Z) : Zone :=
  {| tza := fun t => if t <? change then before else after;
     tza_local := fun w => if w <? change + Z.max before after then before else after |}.

End JsDate.

(* ------------------------------------------------------------------ *)
(** * eventHandler.js: time utility *)

Module Grid.
Import JsDate.

(** [Math.ceil(a / b)] on non-negative integers. *)
Definition Math_ceil_div (a b : Z) : Z := (a + b - 1) / b.
(** [Math.floor(a / b)]. *)
Definition Math_floor_div (a b : Z) : Z := a / b.

(** [getNextCheckTime(skipCount)], with [new Date()] passed as [now]. *)
Definition getNextCheckTime (z : Zone) (skipCount : Z) (now : Date) : Date :=
  let minutes := getMinutes z now in
  let nextMinutes := Math_ceil_div minutes 15 * 15 + skipCount * 15 in
  let next := now in
  let hoursToAdd := Math_floor_div nextMinutes 60 in
  let finalMinutes := Z.rem nextMinutes 60 in
  let next := setHours z next (getHours z next + hoursToAdd) in
  let next := setMinutes z next finalMinutes in
  let next := setSeconds z next 0 in
  let next := setMilliseconds z next 0 in
  next.

(** The 15-minute wall-clock grid: :00, :15, :30, :45 of each hour. *)
Definition gridMs : Z := 15 * msPerMinute.
Definition on_grid (z : Zone) (t : Date) : Prop := LocalTime z t mod gridMs = 0.

(** The grid line strictly after [now]. *)
Definition next_grid_line_after (z : Zone) (now : Date) : Date :=
  UTC z ((LocalTime z now / gridMs + 1) * gridMs).
(** The first grid line at or after [t]. *)
Definition first_grid_line_at_or_after (z : Zone) (t : Date) : Date :=
  UTC z (Math_ceil_div (LocalTime z t) gridMs * gridMs).

(** The wall-clock arithmetic of [getNextCheckTime], without the zone. *)
Definition nextWallClock (skipCount w : Z) : Z :=
  w / msPerHour * msPerHour
  + (Math_ceil_div (MinFromTime w) 15 * 15 + skipCount * 15) * msPerMinute.

End Grid.

(* ------------------------------------------------------------------ *)
(** * twitter.js: the rate-limit tracker of [TwitterIntegration] *)

Module Tracker.

(** [this.rateLimit], [this.backoffTime], [this.lastRequestTime],
    [this.requestCount] of the singleton, together with the process
    clock [Date.now()]. *)
Record State := mkState {
  clock : Z;
  remaining : Z;
  resetAt : Z;
  lastReset : Z;
  backoffTime : Z;
  lastRequestTime : Z;
  requestCount : Z
}.

Definition minRequestInterval : Z := 10000.
Definition maxRequestsPerBatch : Z := 5.
Definition batchInterval : Z := 60000.
Definition bufferThreshold : Z := 100.

(** The constructor, run when the clock shows [now]. *)
Definition constructor (now : Z) : State :=
  {| clock := now; remaining := 180; resetAt := now + 900000;
     lastReset := now; backoffTime := 0; lastRequestTime := 0;
     requestCount := 0 |}.

Definition set_clock (v : Z) (s : State) : State :=
  mkState v (remaining s) (resetAt s) (lastReset s) (backoffTime s)
          (lastRequestTime s) (requestCount s).
Definition set_remaining (v : Z) (s : State) : State :=
  mkState (clock s) v (resetAt s) (lastReset s) (backoffTime s)
          (lastRequestTime s) (requestCount s).
Definition set_resetAt (v : Z) (s : State) : State :=
  mkState (clock s) (remaining s) v (lastReset s) (backoffTime s)
          (lastRequestTime s) (requestCount s).
Definition set_lastReset (v : Z) (s : State) : State :=
  mkState (clock s) (remaining s) (resetAt s) v (backoffTime s)
          (lastRequestTime s) (requestCount s).
Definition set_backoffTime (v : Z) (s : State) : State :=
  mkState (clock s) (remaining s) (resetAt s) (lastReset s) v
          (lastRequestTime s) (requestCount s).
Definition set_lastRequestTime (v : Z) (s : State) : State :=
  mkState (clock s) (remaining s) (resetAt s) (lastReset s) (backoffTime s)
          v (requestCount s).
Definition set_requestCount (v : Z) (s : State) : State :=
  mkState (clock s) (remaining s) (resetAt s) (lastReset s) (backoffTime s)
          (lastRequestTime s) v.

(** [await new Promise(resolve => setTimeout(resolve, d))]: the clock
    moves on by [d]; a delay that is not positive fires at once. *)
Definition sleep (d : Z) (s : State) : State :=
  set_clock (clock s + Z.max 0 d) s.

Record RateLimitInfo := mkInfo {
  info_remaining : Z;
  info_resetAt : Z;
  info_backoffTime : Z;
  info_requestCount : Z
}.

Definition getRateLimitInfo (s : State) : RateLimitInfo :=
  {| info_remaining := remaining s; info_resetAt := resetAt s;
     info_backoffTime := backoffTime s; info_requestCount := requestCount s |}.

(** [canProcessAccounts()], with [accounts.length] as [requiredRequests]. *)
Definition canProcessAccounts (requiredRequests : Z) (s : State) : bool :=
  let now := clock s in
  if 0 <? backoffTime s then false
  else if maxRequestsPerBatch <=? requestCount s then false
  else
    let neededWithBuffer := requiredRequests + 5 in
    if remaining s <? neededWithBuffer then
      if 60000 <? resetAt s - now then false else true
    else true.

(** The assignment of lines 235-239: first 10 s, then doubling, at most
    five minutes. *)
Definition nextBackoff (b : Z) : Z :=
  if b =? 0 then 10000 else Z.min (b * 2) 300000.

(** [handleRateLimit()].  The method calls itself after a backoff wait;
    [fuel] bounds the depth of that recursion, and [None] means the bound
    was too small. *)
Fixpoint handleRateLimit (fuel : nat) (s : State) : option (bool * State) :=
  match fuel with
  | O => None
  | S fuel' =>
    let now := clock s in
    let st_timeSinceLastRequest := now - lastRequestTime s in
    let st_remaining := remaining s in
    let st_resetAt := resetAt s in
    let st_requestCount := requestCount s in
    let s :=
      if st_timeSinceLastRequest <? minRequestInterval
      then sleep (minRequestInterval - st_timeSinceLastRequest) s
      else s in
    if maxRequestsPerBatch <=? st_requestCount then
      let s := sleep batchInterval s in
      let s := set_requestCount 0 s in
      let s := set_lastRequestTime (clock s) s in
      Some (true, s)
    else if st_resetAt <=? now then
      let s := set_remaining 180 s in
      let s := set_resetAt (now + 900000) s in
      let s := set_lastReset now s in
      let s := set_backoffTime 0 s in
      let s := set_requestCount 0 s in
      Some (true, s)
    else if st_remaining <=? bufferThreshold then
      let timeUntilReset := st_resetAt - now in
      let waitTime := timeUntilReset + 5000 in
      let s := sleep waitTime s in
      let s := set_requestCount 0 s in
      let s := set_backoffTime 0 s in
      let s := set_remaining 180 s in
      let s := set_resetAt (clock s + 900000) s in
      Some (true, s)
    else if 0 <? st_remaining then
      let s := set_requestCount (requestCount s + 1) s in
      Some (true, s)
    else
      let s := set_backoffTime (nextBackoff (backoffTime s)) s in
      let s := sleep (backoffTime s) s in
      handleRateLimit fuel' s
  end.

(** Lines 277-278 of [fetchTweets]: the tracker is overwritten from the
    response headers; an absent header reads as ['0']. *)
Definition parseInt_or (default : Z) (h : option Z) : Z :=
  match h with Some v => v | None => default end.

Definition recordResponse (hRemaining hReset : option Z) (s : State) : State :=
  let s := set_remaining (parseInt_or 0 hRemaining) s in
  set_resetAt (parseInt_or 0 hReset * 1000) s.

(** Lines 325-326: the handler of a 429 answer. *)
Definition recordThrottled (hRetryAfter : option Z) (s : State) : State :=
  let s := set_remaining 0 s in
  set_resetAt (clock s + parseInt_or 900 hRetryAfter * 1000) s.

End Tracker.

(* ------------------------------------------------------------------ *)
(** * database.js: the three tables *)

Module Database.
Local Open Scope string_scope.

(** Rows carry the columns the program reads or writes; the
    autoincrement [id] and [created_at] are never read.  A TEXT column
    that may be NULL is an [option]. *)
Record TwitterAccount := mkTwitterAccount {
  account_handle : string;
  last_tweet_id : option string
}.
Record YoutubeChannel := mkYoutubeChannel {
  channel_id : string;
  last_video_id : option string
}.
Record DiscordChannels := mkDiscordChannels {
  guild_id : string;
  twitter_channel_id : option string;
  youtube_channel_id : option string
}.

Record Db := mkDb {
  twitter_accounts : list TwitterAccount;
  youtube_channels : list YoutubeChannel;
  discord_channels : list DiscordChannels
}.

Definition set_twitter_accounts (v : list TwitterAccount) (db : Db) : Db :=
  mkDb v (youtube_channels db) (discord_channels db).
Definition set_youtube_channels (v : list YoutubeChannel) (db : Db) : Db :=
  mkDb (twitter_accounts db) v (discord_channels db).
Definition set_discord_channels (v : list DiscordChannels) (db : Db) : Db :=
  mkDb (twitter_accounts db) (youtube_channels db) v.

(** The UNIQUE constraints of the schema. *)
Definition unique_handles (db : Db) : Prop :=
  NoDup (map account_handle (twitter_accounts db)).
Definition unique_channels (db : Db) : Prop :=
  NoDup (map channel_id (youtube_channels db)).
Definition unique_guilds (db : Db) : Prop :=
  NoDup (map guild_id (discord_channels db)).

(** [SELECT * FROM twitter_accounts]. *)
Definition getAllTwitterAccounts (db : Db) : list TwitterAccount :=
  twitter_accounts db.

(** [UPDATE twitter_accounts SET last_tweet_id = ? WHERE account_handle = ?]. *)
Definition updateLastTweetId (handle tweetId : string) (db : Db) : Db :=
  set_twitter_accounts
    (map (fun r => if String.eqb (account_handle r) handle
                   then mkTwitterAccount (account_handle r) (Some tweetId)
                   else r)
         (twitter_accounts db)) db.

(** [INSERT OR IGNORE INTO youtube_channels (channel_id) VALUES (?)]. *)
Definition addYoutubeChannel (channelId : string) (db : Db) : Db :=
  if existsb (fun r => String.eqb (channel_id r) channelId) (youtube_channels db)
  then db
  else set_youtube_channels
         (youtube_channels db ++ [mkYoutubeChannel channelId None]) db.

(** [SELECT * FROM youtube_channels]. *)
Definition getAllYoutubeChannels (db : Db) : list YoutubeChannel :=
  youtube_channels db.

(** [UPDATE youtube_channels SET last_video_id = ? WHERE channel_id = ?]. *)
Definition updateLastVideoId (channelId videoId : string) (db : Db) : Db :=
  set_youtube_channels
    (map (fun r => if String.eqb (channel_id r) channelId
                   then mkYoutubeChannel (channel_id r) (Some videoId)
                   else r)
         (youtube_channels db)) db.

(** [INSERT ... ON CONFLICT(guild_id) DO UPDATE SET ...]: the row that
    conflicts on [guild_id] takes the new channel values, and a row is
    inserted when none conflicts. *)
Fixpoint upsert_guild (guildId : string) (tw yt : option string)
         (rows : list DiscordChannels) : list DiscordChannels :=
  match rows with
  | [] => [mkDiscordChannels guildId tw yt]
  | r :: rest =>
      if String.eqb (guild_id r) guildId
      then mkDiscordChannels (guild_id r) tw yt :: rest
      else r :: upsert_guild guildId tw yt rest
  end.

Definition setGuildChannels (guildId twitterChannelId youtubeChannelId : string)
           (db : Db) : Db :=
  set_discord_channels
    (upsert_guild guildId (Some twitterChannelId) (Some youtubeChannelId)
                  (discord_channels db)) db.

(** [getGuildChannels]: [None] is the rejection on a falsy guild id,
    [Some None] the answer [null], [Some (Some row)] the row found. *)
Definition getGuildChannels (guildId : string) (db : Db)
  : option (option DiscordChannels) :=
  if String.eqb guildId EmptyString then None
  else Some (find (fun r => String.eqb (guild_id r) guildId) (discord_channels db)).

(** The rows stored for one guild. *)
Definition rows_of_guild (guildId : string) (db : Db) : list DiscordChannels :=
  filter (fun r => String.eqb (guild_id r) guildId) (discord_channels db).

(** The cursor stored for one handle ([None] when the handle has no row). *)
Definition cursor_of (handle : string) (db : Db) : option (option string) :=
  option_map last_tweet_id
    (find (fun r => String.eqb (account_handle r) handle) (twitter_accounts db)).

End Database.

(* ------------------------------------------------------------------ *)
(** * twitter.js: the quota-constrained poller *)

Module Twitter.
Import JsDate Tracker Database.

(** ** The binding [db] of twitter.js

    Line 3 takes [db] out of the exports of database.js while twitter.js
    is being loaded.  The export is a getter over a variable that
    [initializeDatabase] assigns, and index.js loads
    handlers/eventHandler.js, and through it twitter.js, in its first
    lines, before it calls [initializeDatabase]; so the binding keeps
    what the variable held then: [undefined].  The functions imported
    beside it read the variable of database.js itself and see the
    connection. *)
Inductive DbBinding := DbUndefined | DbConnection.

Definition db_at_load : DbBinding := DbUndefined.

(** [verifyChannelConfigurations()].  On [undefined], [db.all] throws in
    the executor of the promise and the [catch] answers []; on a
    connection the rows of
    [SELECT * FROM discord_channels WHERE twitter_channel_id IS NOT NULL]. *)
Definition verifyChannelConfigurations (binding : DbBinding) (db : Db)
  : list DiscordChannels :=
  match binding with
  | DbUndefined => []
  | DbConnection =>
      filter (fun r => match twitter_channel_id r with Some _ => true | None => false end)
             (discord_channels db)
  end.

(** ** The upstream answer of [/tweets/search/recent] *)

Record Media := mkMedia { media_key : string; media_url : string }.
Record User := mkUser { user_id : string; username : string }.
Record Tweet := mkTweet {
  tweet_id : string;
  tweet_text : string;
  author_id : string;
  attachments_media_keys : option (list string)
}.

Record Response := mkResponse {
  x_rate_limit_remaining : option Z;      (* headers *)
  x_rate_limit_reset : option Z;
  data : option (list Tweet);             (* response.data.data *)
  includes_users : option (list User);    (* response.data.includes.users *)
  includes_media : option (list Media)    (* response.data.includes?.media *)
}.

Inductive ApiOutcome :=
| ApiOk (response : Response)
| ApiHttpError (status : Z) (retry_after : option Z)
| ApiNetworkError.

(** The upstream, asked with [query = from:handle] and [since_id]. *)
Definition Api := string -> option string -> ApiOutcome.

(** ** What [fetchTweets] hands back *)

Record FetchedTweet := mkFetched {
  f_tweet : Tweet;
  f_author : option User;                   (* [users.find(...)] *)
  f_media : option (list (option Media))    (* [tweet.media] *)
}.

Record TweetData := mkTweetData {
  tweet : Tweet;
  author : option User;
  media : option (list (option Media));
  account : string
}.

(** The [return] statement that ended a call of [fetchTweets].  Every
    one but [Fetched] returns [null]. *)
Inductive FetchOutcome :=
| GateDenied                          (* line 256 *)
| NoNewTweets                         (* line 288 *)
| Fetched (items : list FetchedTweet) (* line 307 *)
| Throttled                           (* line 327 *)
| FetchError.                         (* line 335, after any other throw *)

Definition returned (o : FetchOutcome) : option (list FetchedTweet) :=
  match o with Fetched items => Some items | _ => None end.

(** Whether the call reached [this.api.get]. *)
Definition requested (o : FetchOutcome) : bool :=
  match o with GateDenied => false | _ => true end.

(** [x || undefined] on a nullable string. *)
Definition or_undefined (x : option string) : option string :=
  match x with
  | Some s => if String.eqb s EmptyString then None else Some s
  | None => None
  end.

(** The [Map] of lines 299-304, as an association list. *)
Definition MediaMap := list (string * Media).

Fixpoint Map_set (k : string) (v : Media) (m : MediaMap) : MediaMap :=
  match m with
  | [] => [(k, v)]
  | (k', v') :: rest =>
      if String.eqb k' k then (k', v) :: rest else (k', v') :: Map_set k v rest
  end.

Definition Map_get (k : string) (m : MediaMap) : option Media :=
  option_map snd (find (fun kv => String.eqb (fst kv) k) m).

Definition buildMediaMap (ms : option (list Media)) : MediaMap :=
  match ms with
  | Some l => fold_left (fun m x => Map_set (media_key x) x m) l []
  | None => []
  end.

Definition attachMedia (mediaMap : MediaMap) (users : list User) (t : Tweet)
  : FetchedTweet :=
  {| f_tweet := t;
     f_author := find (fun u => String.eqb (user_id u) (author_id t)) users;
     f_media := option_map (map (fun key => Map_get key mediaMap))
                           (attachments_media_keys t) |}.

Section Poller.

(** The gate consulted before each request.  [fetchTweets] calls
    [this.handleRateLimit()]; the poller is written over any gate so
    that both answers of the gate can be followed through it. *)
Variable gate : State -> option (bool * State).
Variable api : Api.

(** [fetchTweets(account)].  [None] only when the gate does not return. *)
Definition fetchTweets (acct : TwitterAccount) (s : State) (db : Db)
  : option (FetchOutcome * State * Db) :=
  match gate s with
  | None => None
  | Some (false, s) => Some (GateDenied, s, db)
  | Some (true, s) =>
      let s := set_lastRequestTime (clock s) s in
      match api (account_handle acct) (or_undefined (last_tweet_id acct)) with
      | ApiOk response =>
          let s := recordResponse (x_rate_limit_remaining response)
                                  (x_rate_limit_reset response) s in
          (* lines 280-284: [new Date(resetAt).toISOString()] *)
          if negb (valid_date (resetAt s)) then Some (FetchError, s, db)
          else
          match data response with
          | None | Some [] => Some (NoNewTweets, s, db)
          | Some (newest :: older) =>
              let latestTweetId := tweet_id newest in
              let db := updateLastTweetId (account_handle acct) latestTweetId db in
              let mediaMap := buildMediaMap (includes_media response) in
              match includes_users response with
              | None => Some (FetchError, s, db)   (* TypeError in the map callback *)
              | Some users =>
                  Some (Fetched (map (attachMedia mediaMap users) (newest :: older)),
                        s, db)
              end
          end
      | ApiHttpError status retry_after =>
          if status =? 429
          then Some (Throttled, recordThrottled retry_after s, db)
          else Some (FetchError, s, db)
      | ApiNetworkError => Some (FetchError, s, db)
      end
  end.

Definition withAccount (handle : string) (t : FetchedTweet) : TweetData :=
  {| tweet := f_tweet t; author := f_author t; media := f_media t;
     account := handle |}.

(** The [while] loop of [checkNewTweets] over the accounts not yet
    processed.  Beside [results] it keeps, for each account that reached
    [fetchTweets], how the call ended. *)
Fixpoint processAccounts (accounts : list TwitterAccount)
         (results : list TweetData) (log : list (string * FetchOutcome))
         (s : State) (db : Db)
  : option (list TweetData * list (string * FetchOutcome) * State * Db) :=
  match accounts with
  | [] => Some (results, log, s, db)
  | acct :: rest =>
      (* lines 412-417: [new Date(rateLimitInfo.resetAt).toISOString()];
         the [catch] of the loop body skips the account *)
      if negb (valid_date (resetAt s)) then processAccounts rest results log s db
      else
      match fetchTweets acct s db with
      | None => None
      | Some (o, s, db) =>
          let results :=
            match returned o with
            | Some (t :: ts) =>
                results ++ map (withAccount (account_handle acct)) (t :: ts)
            | _ => results
            end in
          let s := match rest with
                   | [] => s
                   | _ :: _ => sleep minRequestInterval s
                   end in
          processAccounts rest results (log ++ [(account_handle acct, o)]) s db
      end
  end.

(** [checkNewTweets()]. *)
Definition checkNewTweets (s : State) (db : Db)
  : option (list TweetData * list (string * FetchOutcome) * State * Db) :=
  let accounts := getAllTwitterAccounts db in
  let guilds := verifyChannelConfigurations db_at_load db in
  match guilds with
  | [] => Some ([], [], s, db)
  | _ :: _ => processAccounts accounts [] [] s db
  end.

End Poller.

(** ** The delivery loop of [runChecks] (lines 293-305)

    [send t] tells whether [sendTwitterUpdate(client, t)] resolves.  An
    item without author makes [sendTwitterUpdate] throw at
    [author.username], and the [catch] handler reads
    [tweetData.author.username] as well, so the loop is left through the
    outer [catch].  The result lists the items passed to
    [sendTwitterUpdate], each with the outcome of its delivery, and tells
    whether the loop ran to its end. *)
Fixpoint dispatchTweets (send : TweetData -> bool) (tweets : list TweetData)
  : list (TweetData * bool) * bool :=
  match tweets with
  | [] => ([], true)
  | t :: rest =>
      match author t with
      | None => ([(t, false)], false)
      | Some _ =>
          let delivered := send t in
          let (handed, completed) := dispatchTweets send rest in
          ((t, delivered) :: handed, completed)
      end
  end.

(** The items that were passed to [sendTwitterUpdate]. *)
Definition handed_over (send : TweetData -> bool) (tweets : list TweetData)
  : list TweetData :=
  map fst (fst (dispatchTweets send tweets)).

End Twitter.

(* ------------------------------------------------------------------ *)
(** * youtube.js: the quota-free poller *)

Module YouTube.
Import Database.

Record ChannelInfo := mkChannelInfo {
  yt_id : string;
  yt_title : string;                 (* snippet.title *)
  uploads : string                   (* contentDetails.relatedPlaylists.uploads *)
}.

Record Video := mkVideo {
  video_id : string;
  video_title : string;
  publishedAt : Z                    (* [new Date(snippet.publishedAt)], in ms *)
}.

(** One read-only lookup: the [items] of the answer, or a thrown error. *)
Inductive Lookup (A : Type) :=
| Items (items : list A)
| Failed.
Arguments Items {A} items.
Arguments Failed {A}.

Record Api := mkApi {
  get_channels : string -> Lookup ChannelInfo;        (* /channels?id= *)
  get_playlistItems : string -> Lookup string;        (* video ids, maxResults 5 *)
  get_videos : list string -> Lookup Video            (* /videos?id=a,b,... *)
}.

(** [fetchLatestVideos(channelId)]; [None] is [null]. *)
Definition fetchLatestVideos (api : Api) (channelId : string)
  : option (ChannelInfo * list Video) :=
  match get_channels api channelId with
  | Failed => None
  | Items [] => None                       (* throw 'Channel not found', caught *)
  | Items (channel :: _) =>
      let uploadsPlaylistId := uploads channel in
      match get_playlistItems api uploadsPlaylistId with
      | Failed => None
      | Items [] => None
      | Items (v :: vs) =>
          let videoIds := v :: vs in
          match get_videos api videoIds with
          | Failed => None
          | Items videos => Some (channel, videos)
          end
      end
  end.

(** The filter callback of [checkNewUploads], at [Date.now() = now]. *)
Definition isNewVideo (now : Z) (video : Video) : bool :=
  let videoDate := publishedAt video in
  now - 15 * 60 * 1000 <? videoDate.

Record UploadData := mkUploadData {
  up_channel : ChannelInfo;
  up_videos : list Video
}.

(** The [for] loop of [checkNewUploads] over the channels left. *)
Fixpoint processChannels (api : Api) (now : Z) (channels : list YoutubeChannel)
         (results : list UploadData) (db : Db) : list UploadData * Db :=
  match channels with
  | [] => (results, db)
  | channel :: rest =>
      match fetchLatestVideos api (channel_id channel) with
      | None => processChannels api now rest results db
      | Some (channelInfo, videos) =>
          let newVideos := filter (isNewVideo now) videos in
          match newVideos with
          | newest :: _ =>
              let db := updateLastVideoId (channel_id channel) (video_id newest) db in
              processChannels api now rest
                (results ++ [mkUploadData channelInfo newVideos]) db
          | [] => processChannels api now rest results db
          end
      end
  end.

(** [checkNewUploads()]. *)
Definition checkNewUploads (api : Api) (now : Z) (db : Db) : list UploadData * Db :=
  processChannels api now (getAllYoutubeChannels db) [] db.

(** The trailing window in the words of the specification: the 15
    minutes that end at [now]. *)
Definition within_trailing_window (now published : Z) : Prop :=
  now - 15 * 60 * 1000 < published /\ published <= now.

End YouTube.

(* ------------------------------------------------------------------ *)
(** * commands/youtube.js: the [add] subcommand *)

Module YoutubeCommand.
Import Database YouTube.
Local Open Scope string_scope.

(** The text given to [interaction.editReply]. *)
Definition reply_not_found : string :=
  "Could not find the YouTube channel. Please verify the Channel ID.".

Definition newline : string := String (Ascii.ascii_of_nat 10) EmptyString.

Definition reply_now_monitoring (title channelId : string) : string :=
  "Now monitoring YouTube channel: " ++ title ++ newline ++
  "Channel ID: " ++ channelId.

(** [case 'add'] of [execute]: the store afterwards and the reply. *)
Definition execute_add (api : Api) (channelId : string) (db : Db) : Db * string :=
  let channelData := fetchLatestVideos api channelId in
  match channelData with
  | None => (db, reply_not_found)
  | Some (channel, _) =>
      let db := addYoutubeChannel channelId db in
      (db, reply_now_monitoring (yt_title channel) channelId)
  end.

End YoutubeCommand.

(* ------------------------------------------------------------------ *)
(** * eventHandler.js: [startPolling] *)

Module Scheduler.
Import JsDate Grid Tracker Database Twitter YouTube.

(** The [while] loop of [findNextViableCheckTime]; [limit] is
    [rateLimitInfo.resetAt + 60000].  [fuel] bounds the number of loop
    tests.  The pair returned is [nextCheck] and [skipCount]. *)
Fixpoint skipAhead (zone : Zone) (fuel : nat) (now : Date) (limit : Z)
         (skipCount : Z) (nextCheck : Date) : option (Date * Z) :=
  match fuel with
  | O => None
  | S fuel' =>
      if getTime nextCheck <? limit then
        let skipCount := skipCount + 1 in
        skipAhead zone fuel' now limit skipCount (getNextCheckTime zone skipCount now)
      else Some (nextCheck, skipCount)
  end.

(** [findNextViableCheckTime()], returning [skippedIntervals] as well. *)
Definition findNextViableCheckTime' (zone : Zone) (fuel : nat) (s : State) (db : Db)
  : option (Date * Z) :=
  let now := clock s in
  let skipCount := 0 in
  let nextCheck := getNextCheckTime zone skipCount now in
  let rateLimitInfo := getRateLimitInfo s in
  if negb (canProcessAccounts
             (Z.of_nat (List.length (getAllTwitterAccounts db))) s)
  then skipAhead zone fuel now (info_resetAt rateLimitInfo + 60000) skipCount nextCheck
  else Some (nextCheck, skipCount).

Definition findNextViableCheckTime (zone : Zone) (fuel : nat) (s : State) (db : Db)
  : option Date :=
  option_map fst (findNextViableCheckTime' zone fuel s db).

(** How one call of [runChecks] ended, with the delay given to
    [setTimeout(runChecks, ...)]. *)
Inductive RunResult :=
| Skipped (nextViableCheck : Date) (skipDelay : Z)
| Completed (handedTweets : list (TweetData * bool))
            (handedUploads : list UploadData) (nextCheck : Date) (delay : Z)
| Retried (handedTweets : list (TweetData * bool)) (delay : Z).

Section RunChecks.
Variable zone : Zone.
Variable gateFuel loopFuel : nat.
Variable send : TweetData -> bool.
Variable twitterApi : Twitter.Api.
Variable youtubeApi : YouTube.Api.

Definition runChecks (s : State) (db : Db) : option (RunResult * State * Db) :=
  let now := clock s in
  if negb (canProcessAccounts
             (Z.of_nat (List.length (getAllTwitterAccounts db))) s)
  then
    match findNextViableCheckTime zone loopFuel s db with
    | None => None
    | Some nextViableCheck =>
        let skipDelay := getTime nextViableCheck - getTime now in
        Some (Skipped nextViableCheck skipDelay, s, db)
    end
  else
    match checkNewTweets (handleRateLimit gateFuel) twitterApi s db with
    | None => None
    | Some (tweets, _, s, db) =>
        match dispatchTweets send tweets with
        | (handed, false) => Some (Retried handed 60000, s, db)
        | (handed, true) =>
            let (uploads, db) := checkNewUploads youtubeApi (clock s) db in
            match findNextViableCheckTime zone loopFuel s db with
            | None => None
            | Some nextCheck =>
                let delay := getTime nextCheck - clock s in
                Some (Completed handed uploads nextCheck delay, s, db)
            end
        end
    end.

End RunChecks.

End Scheduler.

(* ------------------------------------------------------------------ *)
(** * Vocabulary of the properties *)

Module Props.
Import JsDate Grid Tracker Database Twitter YouTube Scheduler.

(** The number of grid lines strictly between two instants. *)
Definition ticks_strictly_between (z : Zone) (a b : Date) : Z :=
  Math_ceil_div (LocalTime z b) gridMs - 1 - LocalTime z a / gridMs.

(** The entry points of the tracker, as the poller uses them. *)
Inductive TrackerOp :=
| OpGate                                         (* handleRateLimit() *)
| OpResponse (hRemaining hReset : option Z)      (* lines 277-278 *)
| OpThrottled (hRetryAfter : option Z)           (* lines 325-326 *)
| OpWait (d : Z).                                (* time passing *)

(** The upstream reports a count of requests left: never a negative one. *)
Definition upstream_conformant (op : TrackerOp) : Prop :=
  match op with
  | OpResponse (Some r) _ => 0 <= r
  | _ => True
  end.

Definition step (fuel : nat) (op : TrackerOp) (s : State) : option State :=
  match op with
  | OpGate => option_map snd (handleRateLimit fuel s)
  | OpResponse hRemaining hReset => Some (recordResponse hRemaining hReset s)
  | OpThrottled hRetryAfter => Some (recordThrottled hRetryAfter s)
  | OpWait d => Some (sleep d s)
  end.

Fixpoint run (fuel : nat) (ops : list TrackerOp) (s : State) : option State :=
  match ops with
  | [] => Some s
  | op :: rest =>
      match step fuel op s with
      | Some s' => run fuel rest s'
      | None => None
      end
  end.

(** 0, or 10000 doubled some number of times and capped at 300000. *)
Definition backoff_ok (b : Z) : Prop :=
  b = 0 \/
  (10000 <= b <= 300000 /\ exists k : Z, 0 <= k /\ b = Z.min (10000 * 2 ^ k) 300000).

Definition tracker_invariant (s : State) : Prop :=
  0 <= remaining s /\ backoff_ok (backoffTime s).

(** What one channel adds to the result of [checkNewUploads]. *)
Definition uploadsOf (api : YouTube.Api) (now : Z) (ch : YoutubeChannel)
  : list UploadData :=
  match fetchLatestVideos api (channel_id ch) with
  | Some (channelInfo, videos) =>
      match filter (isNewVideo now) videos with
      | [] => []
      | newest :: more => [mkUploadData channelInfo (newest :: more)]
      end
  | None => []
  end.

End Props.

(* ------------------------------------------------------------------ *)
(** * Concrete inputs *)

Module Examples.
Import JsDate Tracker Database Twitter YouTube.
Local Open Scope string_scope.

(** One monitored account, [alice] at cursor 2, and one configured guild. *)
Definition alice : TwitterAccount := mkTwitterAccount "alice" (Some "2").
Definition bob : TwitterAccount := mkTwitterAccount "bob" None.

Definition guild1 : DiscordChannels :=
  mkDiscordChannels "guild-1" (Some "chan-tw") (Some "chan-yt").

Definition db_alice : Db := mkDb [alice] [] [guild1].
Definition db_alice_bob : Db := mkDb [alice; bob] [] [guild1].

(** The tracker after a 429 answer with [retry-after: 1200], twenty
    minutes, received at 10:07 and at 10:10. *)
Definition throttled_at (now : Z) : State :=
  recordThrottled (Some 1200) (constructor now).
Definition utc : Zone := fixedZone 0.
Definition s_1007 : State := throttled_at (at_time utc 19000 10 7 0 0).
Definition s_1010 : State := throttled_at (at_time utc 19000 10 10 0 0).

(** New York around the end of daylight-saving time on 2021-11-07: the
    offset goes from -4 h to -5 h at 06:00 UTC. *)
Definition new_york_2021 : Zone :=
  zoneWithChange 1636264800000 (- 4 * msPerHour) (- 5 * msPerHour).

(** The tracker two hours after a pass of five granted requests that
    began at 10:07: the batch counter is still at the cap, and [resetAt]
    (10:22) is long past at 12:07. *)
Definition s_capped_1207 : State :=
  sleep 7200000 (set_requestCount 5 (constructor (at_time utc 19000 10 7 0 0))).

(** An upstream that answers [from:alice] with the tweets 5, 4, 3,
    newest first, and every other query with none. *)
Definition user_alice : User := mkUser "u1" "alice".
Definition user_bob : User := mkUser "u2" "bob".
Definition tweet_of (id author : string) : Tweet := mkTweet id "hello" author None.

Definition response_543 : Response :=
  {| x_rate_limit_remaining := Some 179;
     x_rate_limit_reset := Some 1641600900;
     data := Some [tweet_of "5" "u1"; tweet_of "4" "u1"; tweet_of "3" "u1"];
     includes_users := Some [user_alice];
     includes_media := None |}.

Definition response_bob : Response :=
  {| x_rate_limit_remaining := Some 178;
     x_rate_limit_reset := Some 1641600900;
     data := Some [tweet_of "9" "u2"];
     includes_users := Some [user_bob];
     includes_media := None |}.

Definition response_empty : Response :=
  {| x_rate_limit_remaining := Some 178;
     x_rate_limit_reset := Some 1641600900;
     data := None; includes_users := None; includes_media := None |}.

Definition api_543 : Twitter.Api :=
  fun handle since =>
    if String.eqb handle "alice" then ApiOk response_543
    else if String.eqb handle "bob" then ApiOk response_bob
    else ApiOk response_empty.

(** An upstream that throttles every request. *)
Definition api_429 (hint : option Z) : Twitter.Api :=
  fun _ _ => ApiHttpError 429 hint.

(** A chat platform on which every delivery fails. *)
Definition send_fails : TweetData -> bool := fun _ => false.

(** A YouTube upstream that knows no channel. *)
Definition yt_unknown : YouTube.Api :=
  mkApi (fun _ => Items []) (fun _ => Items []) (fun _ => Items []).

End Examples.

(* ------------------------------------------------------------------ *)
(** * database.js: the remaining statements *)

Module DatabaseMore.
Import Database.

(** [INSERT OR IGNORE INTO twitter_accounts (account_handle) VALUES (?)]. *)
Definition addTwitterAccount (handle : string) (db : Db) : Db :=
  if existsb (fun r => String.eqb (account_handle r) handle) (twitter_accounts db)
  then db
  else set_twitter_accounts
         (twitter_accounts db ++ [mkTwitterAccount handle None]) db.

(** [DELETE FROM twitter_accounts WHERE account_handle = ?]. *)
Definition removeTwitterAccount (handle : string) (db : Db) : Db :=
  set_twitter_accounts
    (filter (fun r => negb (String.eqb (account_handle r) handle))
            (twitter_accounts db)) db.

(** [DELETE FROM youtube_channels WHERE channel_id = ?]. *)
Definition removeYoutubeChannel (channelId : string) (db : Db) : Db :=
  set_youtube_channels
    (filter (fun r => negb (String.eqb (channel_id r) channelId))
            (youtube_channels db)) db.

(** The video cursor stored for one channel ([None]: no row). *)
Definition video_cursor_of (channelId : string) (db : Db) : option (option string) :=
  option_map last_video_id
    (find (fun r => String.eqb (channel_id r) channelId) (youtube_channels db)).

(** Whether a channel is monitored. *)
Definition monitored (channelId : string) (db : Db) : bool :=
  existsb (fun r => String.eqb (channel_id r) channelId) (youtube_channels db).

End DatabaseMore.

(* ------------------------------------------------------------------ *)
(** * commands/twitter.js *)

Module TwitterCommand.
Import Database DatabaseMore.

Definition newline : string := String (Ascii.ascii_of_nat 10) EmptyString.

(** The bullet U+2022, in UTF-8. *)
Definition bullet : string :=
  String (Ascii.ascii_of_nat 226)
    (String (Ascii.ascii_of_nat 128)
       (String (Ascii.ascii_of_nat 162) EmptyString)).

Section Command.

(** [String.prototype.toLowerCase], a function of the runtime. *)
Variable toLowerCase : string -> string.

(** [case 'add']. *)
Definition execute_add (usernameOption : string) (db : Db) : Db * string :=
  let username := toLowerCase usernameOption in
  let db := addTwitterAccount username db in
  (db, ("Now monitoring Twitter account: @" ++ username)%string).

(** [case 'remove']. *)
Definition execute_remove (usernameOption : string) (db : Db) : Db * string :=
  let username := toLowerCase usernameOption in
  let db := removeTwitterAccount username db in
  (db, ("Stopped monitoring Twitter account: @" ++ username)%string).

End Command.

(** [case 'list']. *)
Definition execute_list (db : Db) : string :=
  let accounts := getAllTwitterAccounts db in
  match accounts with
  | [] => "No Twitter accounts are being monitored."%string
  | _ :: _ =>
      let accountList :=
        String.concat newline
          (map (fun acc => (bullet ++ " @" ++ account_handle acc)%string) accounts) in
      ("**Monitored Twitter Accounts:**" ++ newline ++ accountList)%string
  end.

(** [toLowerCase] on strings of ASCII characters, which is what the
    handles of the upstream are made of (letters, digits and [_]). *)
Definition lower_char (c : Ascii.ascii) : Ascii.ascii :=
  let n := Ascii.nat_of_ascii c in
  if ((65 <=? n) && (n <=? 90))%nat then Ascii.ascii_of_nat (n + 32) else c.

Fixpoint toLowerCase_ascii (s : string) : string :=
  match s with
  | EmptyString => EmptyString
  | String c rest => String (lower_char c) (toLowerCase_ascii rest)
  end.

Definition is_upper (c : Ascii.ascii) : bool :=
  let n := Ascii.nat_of_ascii c in ((65 <=? n) && (n <=? 90))%nat.

Fixpoint has_upper (s : string) : bool :=
  match s with
  | EmptyString => false
  | String c rest => is_upper c || has_upper rest
  end.

End TwitterCommand.

(* ------------------------------------------------------------------ *)
(** * commands/youtube.js: [remove] and [list] *)

Module YoutubeCommandMore.
Import Database DatabaseMore YouTube.

Definition newline : string := String (Ascii.ascii_of_nat 10) EmptyString.
Definition bullet : string := TwitterCommand.bullet.

(** [case 'remove']. *)
Definition execute_remove (channelId : string) (db : Db) : Db * string :=
  let db := removeYoutubeChannel channelId db in
  (db, ("Stopped monitoring YouTube channel with ID: " ++ channelId)%string).

(** The line of one monitored channel in the answer of [list]. *)
Definition list_line (api : Api) (ch : YoutubeChannel) : string :=
  match fetchLatestVideos api (channel_id ch) with
  | Some (channel, _) =>
      (bullet ++ " " ++ yt_title channel ++ newline ++ "  ID: " ++ channel_id ch)%string
  | None =>
      (bullet ++ " " ++ channel_id ch ++ " (channel info unavailable)")%string
  end.

(** [case 'list']. *)
Definition execute_list (api : Api) (db : Db) : string :=
  let channels := getAllYoutubeChannels db in
  match channels with
  | [] => "No YouTube channels are being monitored."%string
  | _ :: _ =>
      let channelList := String.concat newline (map (list_line api) channels) in
      ("**Monitored YouTube Channels:**" ++ newline ++ channelList)%string
  end.

End YoutubeCommandMore.

(* ------------------------------------------------------------------ *)
(** * commands/setup.js *)

Module SetupCommand.
Import Database.

(** A channel option of the interaction: its id and what
    [permissionsFor(interaction.client.user)] answers ([None]: null). *)
Record ChannelOption := mkChannelOption {
  opt_id : string;
  opt_permissions : option (string -> bool)
}.

Definition requiredPermissions : list string :=
  ["ViewChannel"; "SendMessages"; "EmbedLinks"]%string.

(** [!perms?.has(perm)]. *)
Definition lacks (c : ChannelOption) (perm : string) : bool :=
  match opt_permissions c with
  | Some has => negb (has perm)
  | None => true
  end.

Inductive SetupOutcome :=
| NeedPermissions (content : string)     (* editReply with the list, return *)
| Configured                             (* the success reply *)
| Thrown (message : string).             (* rethrown to the event handler *)

Section Setup.

(** How a channel prints inside a template literal. *)
Variable mention : ChannelOption -> string.

(** The body of [requiredPermissions.forEach]. *)
Definition missingFor (twitterChannel youtubeChannel : ChannelOption) (perm : string)
  : list string :=
  ((if lacks twitterChannel perm
    then [("Missing " ++ perm ++ " permission in " ++ mention twitterChannel)%string]
    else [])
   ++
   (if lacks youtubeChannel perm
    then [("Missing " ++ perm ++ " permission in " ++ mention youtubeChannel)%string]
    else []))%list.

Definition missingPerms (twitterChannel youtubeChannel : ChannelOption) : list string :=
  flat_map (missingFor twitterChannel youtubeChannel) requiredPermissions.

Definition newline : string := String (Ascii.ascii_of_nat 10) EmptyString.

(** [execute(interaction)]: the store afterwards and how the call ended. *)
Definition execute (guildId : string) (twitterChannel youtubeChannel : ChannelOption)
           (db : Db) : Db * SetupOutcome :=
  match missingPerms twitterChannel youtubeChannel with
  | m :: ms =>
      (db, NeedPermissions
             ("I need additional permissions to function properly:" ++ newline
              ++ String.concat newline (m :: ms))%string)
  | [] =>
      match getGuildChannels guildId db with
      | None => (db, Thrown "Guild ID is required")
      | Some existingConfig =>
          let db := setGuildChannels guildId (opt_id twitterChannel)
                                     (opt_id youtubeChannel) db in
          match getGuildChannels guildId db with
          | None => (db, Thrown "Guild ID is required")
          | Some None => (db, Thrown "Channel configuration was not saved properly")
          | Some (Some savedConfig) =>
              match getGuildChannels guildId db with
              | Some (Some verifyConfig) =>
                  if match twitter_channel_id verifyConfig with
                     | Some t => String.eqb t (opt_id twitterChannel)
                     | None => false
                     end
                     &&
                     match youtube_channel_id verifyConfig with
                     | Some y => String.eqb y (opt_id youtubeChannel)
                     | None => false
                     end
                  then (db, Configured)
                  else (db, Thrown "Channel configuration verification failed")
              | Some None => (db, Thrown "Channel configuration verification failed")
              | None => (db, Thrown "Guild ID is required")
              end
          end
      end
  end.

End Setup.

End SetupCommand.

(* ------------------------------------------------------------------ *)
(** * eventHandler.js: [sendTwitterUpdate] and [sendYouTubeUpdate] *)

Module Delivery.
Import Database Twitter YouTube.

(** A text channel of the chat platform, as the two functions use it:
    what [permissionsFor(client.user)] answers, and whether the message
    for a given item (tweet id, video id) is built and its [send]
    resolves. *)
Record Channel := mkChannel {
  channel_name : string;
  channel_permissions : option (string -> bool);
  channel_send : string -> bool
}.

(** [guild.channels.fetch(id)]: rejects, resolves to nothing, or resolves
    to a channel. *)
Inductive ChannelFetch :=
| FetchRejected
| FetchedNothing
| FetchedChannel (c : Channel).

Record Guild := mkGuild {
  g_id : string;
  g_fetch : string -> ChannelFetch
}.

Definition requiredPermissions : list string :=
  ["ViewChannel"; "SendMessages"; "EmbedLinks"]%string.

(** Why a guild got no message, or the channel to send to. *)
Inductive Target :=
| ConfigRejected            (* getGuildChannels rejects; outer catch *)
| NotConfigured             (* continue *)
| ChannelFetchFailed        (* continue *)
| ChannelNotFound           (* continue *)
| PermissionsUnavailable    (* permissionsFor is null; outer catch *)
| PermissionsMissing (missing : list string)    (* continue *)
| Ready (c : Channel).

(** [x] of [if (!channels?.x) continue]: a column that is NULL or empty
    counts as not configured. *)
Definition truthy (x : option string) : option string :=
  match x with
  | Some s => if String.eqb s EmptyString then None else Some s
  | None => None
  end.

(** The steps the two functions share before sending: configuration,
    channel fetch, permission check.  [column] is [twitter_channel_id] in
    [sendTwitterUpdate] and [youtube_channel_id] in [sendYouTubeUpdate]. *)
Definition resolveTarget (column : DiscordChannels -> option string)
           (db : Db) (guild : Guild) : Target :=
  match getGuildChannels (g_id guild) db with
  | None => ConfigRejected
  | Some channels =>
      match truthy (match channels with Some row => column row | None => None end) with
      | None => NotConfigured
      | Some channelId =>
          match g_fetch guild channelId with
          | FetchRejected => ChannelFetchFailed
          | FetchedNothing => ChannelNotFound
          | FetchedChannel channel =>
              match channel_permissions channel with
              | None => PermissionsUnavailable
              | Some has =>
                  let missingPermissions :=
                    filter (fun perm => negb (has perm)) requiredPermissions in
                  match missingPermissions with
                  | [] => Ready channel
                  | _ :: _ => PermissionsMissing missingPermissions
                  end
              end
          end
      end
  end.

(** What happened in one guild for one tweet. *)
Inductive TweetDelivery :=
| TweetSkipped (why : Target)
| TweetSent
| TweetSendFailed.

Definition deliverTweet (db : Db) (tweetId : string) (guild : Guild) : TweetDelivery :=
  match resolveTarget twitter_channel_id db guild with
  | Ready channel =>
      if channel_send channel tweetId then TweetSent else TweetSendFailed
  | why => TweetSkipped why
  end.

(** [sendTwitterUpdate(client, tweetData)] over the guilds of the cache.
    [None]: the call throws before the loop, at [author.username]; the
    embed and button builders take what the upstream sent. *)
Definition sendTwitterUpdate (guilds : list Guild) (db : Db) (tweetData : TweetData)
  : option (list (string * TweetDelivery)) :=
  match author tweetData with
  | None => None
  | Some _ =>
      Some (map (fun guild =>
                   (g_id guild, deliverTweet db (tweet_id (tweet tweetData)) guild))
                guilds)
  end.

(** The inner [for (const video of videos)] of [sendYouTubeUpdate]: a
    failed [send] is rethrown and ends the loop.  The ids sent, and
    whether the loop reached its end. *)
Fixpoint sendVideos (channel : Channel) (videos : list Video) : list string * bool :=
  match videos with
  | [] => ([], true)
  | video :: rest =>
      if channel_send channel (video_id video)
      then let (sent, completed) := sendVideos channel rest in
           (video_id video :: sent, completed)
      else ([], false)
  end.

Inductive UploadDelivery :=
| UploadSkipped (why : Target)
| UploadSent (sent : list string) (completed : bool).

Definition deliverUpload (db : Db) (videos : list Video) (guild : Guild)
  : UploadDelivery :=
  match resolveTarget youtube_channel_id db guild with
  | Ready channel =>
      let (sent, completed) := sendVideos channel videos in
      UploadSent sent completed
  | why => UploadSkipped why
  end.

(** [sendYouTubeUpdate(client, uploadData)]. *)
Definition sendYouTubeUpdate (guilds : list Guild) (db : Db) (uploadData : UploadData)
  : list (string * UploadDelivery) :=
  map (fun guild => (g_id guild, deliverUpload db (up_videos uploadData) guild)) guilds.

End Delivery.

(* ------------------------------------------------------------------ *)
(** * twitter.js: [convertToVxTwitter] *)

Module VxTwitter.

Fixpoint drop (n : nat) (s : string) : string :=
  match n, s with
  | O, _ => s
  | S n', String _ rest => drop n' rest
  | S _, EmptyString => EmptyString
  end.

(** [url.replace(/(twitter\.com|x\.com)/, 'vxtwitter.com')]: the leftmost
    match is replaced, and at one position [twitter.com] is tried first. *)
Fixpoint convertToVxTwitter (url : string) : string :=
  if String.prefix "twitter.com" url
  then ("vxtwitter.com" ++ drop 11 url)%string
  else if String.prefix "x.com" url
  then ("vxtwitter.com" ++ drop 5 url)%string
  else match url with
       | EmptyString => EmptyString
       | String c rest => String c (convertToVxTwitter rest)
       end.

(** [tweetUrl] of [sendTwitterUpdate]. *)
Definition tweetUrl (username tweetId : string) : string :=
  ("https://twitter.com/" ++ username ++ "/status/" ++ tweetId)%string.

End VxTwitter.

(* ------------------------------------------------------------------ *)
(** * eventHandler.js: the timer loop of [startPolling] *)

Module SchedulerLoop.
Import JsDate Grid Tracker Database Twitter YouTube Scheduler.

(** The delay a call of [runChecks] gives to [setTimeout(runChecks, ...)]. *)
Definition delay_of (r : RunResult) : Z :=
  match r with
  | Skipped _ skipDelay => skipDelay
  | Completed _ _ _ delay => delay
  | Retried _ delay => delay
  end.

Section Loop.
Variable zone : Zone.
Variable gateFuel loopFuel : nat.
Variable send : TweetData -> bool.
Variable twitterApi : Twitter.Api.
Variable youtubeApi : YouTube.Api.

(** [n] firings of the timer: each runs [runChecks], which re-arms the
    timer with its delay. *)
Fixpoint runLoop (n : nat) (s : State) (db : Db)
  : option (list RunResult * State * Db) :=
  match n with
  | O => Some ([], s, db)
  | S n' =>
      match runChecks zone gateFuel loopFuel send twitterApi youtubeApi s db with
      | None => None
      | Some (r, s, db) =>
          match runLoop n' (sleep (delay_of r) s) db with
          | None => None
          | Some (rs, s, db) => Some (r :: rs, s, db)
          end
      end
  end.

End Loop.

End SchedulerLoop.

(* ------------------------------------------------------------------ *)
(** * Vocabulary of the further properties *)

Module MoreProps.
Import JsDate Grid Tracker Database DatabaseMore Twitter YouTube Scheduler Props.

(** What the pass of [checkNewUploads] does to the store for one channel. *)
Definition uploadCursor (api : YouTube.Api) (now : Z) (db : Db) (ch : YoutubeChannel)
  : Db :=
  match fetchLatestVideos api (channel_id ch) with
  | Some (_, videos) =>
      match filter (isNewVideo now) videos with
      | newest :: _ => updateLastVideoId (channel_id ch) (video_id newest) db
      | [] => db
      end
  | None => db
  end.

(** The last element of a list that satisfies [p]. *)
Definition find_last {A} (p : A -> bool) (l : list A) : option A :=
  find p (rev l).

(** Same tracker, possibly at another clock reading. *)
Definition same_tracker (s s' : State) : Prop :=
  remaining s' = remaining s /\ resetAt s' = resetAt s
  /\ lastReset s' = lastReset s /\ backoffTime s' = backoffTime s
  /\ lastRequestTime s' = lastRequestTime s /\ requestCount s' = requestCount s.

(** The clock after the spacing wait at the head of [handleRateLimit]. *)
Definition paced_clock (s : State) : Z :=
  Z.max (clock s) (lastRequestTime s + minRequestInterval).

(** [sub] occurs inside [s]. *)
Definition contains (sub s : string) : Prop :=
  exists before after, s = (before ++ sub ++ after)%string.

End MoreProps.

(* ------------------------------------------------------------------ *)
(** * Further concrete inputs *)

Module MoreExamples.
Import JsDate Tracker Database Twitter YouTube Examples.
Local Open Scope string_scope.

(** A YouTube upstream that knows the channel [UC1] and its two videos. *)
Definition yt_known : YouTube.Api :=
  mkApi (fun id => if String.eqb id "UC1"
                   then Items [mkChannelInfo "UC1" "Channel One" "UU1"]
                   else Items [])
        (fun _ => Items ["v1"; "v2"])
        (fun _ => Items [mkVideo "v1" "First" 1641599700000;
                         mkVideo "v2" "Second" 1641590000000]).

Definition db_channels : Db :=
  mkDb [alice] [mkYoutubeChannel "UC1" None; mkYoutubeChannel "UC2" (Some "old")]
       [guild1].

(** A guild whose channel takes every message but the one for video [v2]. *)
Definition chan_ok : Delivery.Channel :=
  Delivery.mkChannel "updates" (Some (fun _ => true))
                     (fun id => negb (String.eqb id "v2")).

Definition guild_ok : Delivery.Guild :=
  Delivery.mkGuild "guild-1" (fun _ => Delivery.FetchedChannel chan_ok).

(** A guild the bot is in that never ran the setup command. *)
Definition guild_unconfigured : Delivery.Guild :=
  Delivery.mkGuild "guild-9" (fun _ => Delivery.FetchRejected).

Definition tweet_data_5 : TweetData :=
  mkTweetData (tweet_of "5" "u1") (Some user_alice) None "alice".

Definition upload_three : UploadData :=
  mkUploadData (mkChannelInfo "UC1" "Channel One" "UU1")
               [mkVideo "v1" "First" 1641599700000;
                mkVideo "v2" "Second" 1641599800000;
                mkVideo "v3" "Third" 1641599900000].

End MoreExamples.
Import JsDate Grid Tracker Database Twitter YouTube YoutubeCommand Scheduler Props Examples.

(* ------------------------------------------------------------------ *)
(** * The grid of [getNextCheckTime] *)

Ltac zone_unfold :=
  unfold on_grid, next_grid_line_after, first_grid_line_at_or_after,
    ticks_strictly_between, at_time, wall_clock, nextWallClock,
    getMinutes, getHours, getSeconds, getMilliseconds,
    HourFromTime, MinFromTime, SecFromTime, msFromTime, LocalTime, UTC,
    Math_ceil_div, Math_floor_div, gridMs, msPerHour, msPerMinute, msPerSecond in *;
  cbn [tza tza_local fixedZone] in *.

(** Where the offset of the zone never changes, the four setters amount
    to the wall-clock arithmetic carried back by the offset. *)
Lemma getNextCheckTime_closed_form (off k now : Z) :
  0 <= k ->
  getNextCheckTime (fixedZone off) k now = nextWallClock k (now + off) - off.
Proof.
  intros Hk.
  unfold getNextCheckTime, setMilliseconds, setSeconds, setMinutes, setHours.
  zone_unfold.
  rewrite Z.rem_mod_nonneg by (try lia; Z.div_mod_to_equations; lia).
  Z.div_mod_to_equations. lia.
Qed.

(** Off the grid minutes the function yields the grid line that follows
    the clock. *)
Lemma getNextCheckTime_off_grid_minute (off now : Z) :
  let z := fixedZone off in
  getMinutes z now mod 15 <> 0 ->
  getNextCheckTime z 0 now = next_grid_line_after z now
  /\ now < getNextCheckTime z 0 now.
Proof.
  intros z Hm. unfold z in *. rewrite getNextCheckTime_closed_form by lia.
  zone_unfold. Z.div_mod_to_equations. lia.
Qed.

(** During a grid minute (:00, :15, :30, :45) the function yields the
    start of that very minute, which is not after the clock. *)
Lemma getNextCheckTime_on_grid_minute (off now : Z) :
  let z := fixedZone off in
  getMinutes z now mod 15 = 0 ->
  getNextCheckTime z 0 now = (now + off) / gridMs * gridMs - off
  /\ getNextCheckTime z 0 now <= now.
Proof.
  intros z Hm. unfold z in *. rewrite getNextCheckTime_closed_form by lia.
  zone_unfold. Z.div_mod_to_equations. lia.
Qed.

Lemma getNextCheckTime_step (off k now : Z) :
  0 <= k ->
  getNextCheckTime (fixedZone off) k now
  = getNextCheckTime (fixedZone off) 0 now + k * gridMs.
Proof.
  intros Hk. rewrite !getNextCheckTime_closed_form by lia.
  zone_unfold. lia.
Qed.

Lemma getNextCheckTime_on_grid (off k now : Z) :
  0 <= k -> on_grid (fixedZone off) (getNextCheckTime (fixedZone off) k now).
Proof.
  intros Hk. rewrite getNextCheckTime_closed_form by lia.
  zone_unfold. Z.div_mod_to_equations. lia.
Qed.

(** At HH:07 (any second) the next tick is HH:15. *)
Lemma getNextCheckTime_at_07 (off day h sec ms : Z) :
  0 <= sec < 60 -> 0 <= ms < 1000 ->
  getNextCheckTime (fixedZone off) 0 (at_time (fixedZone off) day h 7 sec ms)
  = at_time (fixedZone off) day h 15 0 0.
Proof.
  intros Hs Hms. rewrite getNextCheckTime_closed_form by lia.
  zone_unfold. Z.div_mod_to_equations. lia.
Qed.

(** In any zone, a setter that writes the value the field already has
    leaves an instant alone when the instant survives the trip through
    local time. *)
Lemma getNextCheckTime_stays_at_grid_line (z : Zone) (now : Z) :
  UTC z (LocalTime z now) = now ->
  LocalTime z now mod gridMs = 0 ->
  getNextCheckTime z 0 now = now.
Proof.
  intros Htrip Hgrid.
  assert (Hm : Math_ceil_div (getMinutes z now) 15 * 15 + 0 * 15 = getMinutes z now).
  { revert Hgrid. zone_unfold. intros Hgrid. Z.div_mod_to_equations. lia. }
  assert (Hrange : 0 <= getMinutes z now < 60)
    by (unfold getMinutes, MinFromTime; apply Z.mod_pos_bound; lia).
  unfold getNextCheckTime. rewrite Hm.
  assert (Hh : Math_floor_div (getMinutes z now) 60 = 0)
    by (unfold Math_floor_div; apply Z.div_small; lia).
  rewrite Hh, Z.rem_mod_nonneg by lia. rewrite (Z.mod_small _ 60) by lia.
  assert (E1 : setHours z now (getHours z now + 0) = now).
  { unfold setHours, getHours. cbn zeta.
    replace (LocalTime z now + (HourFromTime (LocalTime z now) + 0
                                - HourFromTime (LocalTime z now)) * msPerHour)
      with (LocalTime z now) by lia.
    exact Htrip. }
  rewrite E1.
  assert (E2 : setMinutes z now (getMinutes z now) = now).
  { unfold setMinutes, getMinutes. cbn zeta.
    replace (LocalTime z now + (MinFromTime (LocalTime z now)
                                - MinFromTime (LocalTime z now)) * msPerMinute)
      with (LocalTime z now) by lia.
    exact Htrip. }
  rewrite E2.
  assert (E3 : setSeconds z now 0 = now).
  { unfold setSeconds. cbn zeta.
    replace (LocalTime z now + (0 - SecFromTime (LocalTime z now)) * msPerSecond)
      with (LocalTime z now); [exact Htrip|].
    revert Hgrid. zone_unfold. intros Hgrid. Z.div_mod_to_equations. lia. }
  rewrite E3.
  unfold setMilliseconds. cbn zeta.
  replace (LocalTime z now + (0 - msFromTime (LocalTime z now)))
    with (LocalTime z now); [exact Htrip|].
  revert Hgrid. zone_unfold. intros Hgrid. Z.div_mod_to_equations. lia.
Qed.

(** C2 (the code at the input where it departs from the claim): asked at
    HH:15:00.000 exactly, [getNextCheckTime(0)] answers HH:15:00.000, the
    instant of the call itself, and not HH:30.  This is so in every zone
    of constant offset. *)
Theorem C2_getNextCheckTime_at_grid_line_is_same_instant :
  forall off day h : Z,
    let z := fixedZone off in
    getNextCheckTime z 0 (at_time z day h 15 0 0) = at_time z day h 15 0 0
    /\ getNextCheckTime z 0 (at_time z day h 15 0 0) <> at_time z day h 30 0 0
    /\ getNextCheckTime z 0 (at_time z day h 15 0 0)
       <> next_grid_line_after z (at_time z day h 15 0 0).
Proof.
  intros off day h z. unfold z. rewrite getNextCheckTime_closed_form by lia.
  zone_unfold.
  repeat split; Z.div_mod_to_equations; lia.
Qed.

(* ------------------------------------------------------------------ *)
(** * Skip-ahead *)

(** With enough fuel the loop stops at the first line of the sequence
    [G + k*15min, G + (k+1)*15min, ...] that is not before [limit]. *)
Lemma skipAhead_first_line (off now limit : Z) :
  let z := fixedZone off in
  forall (fuel : nat) (k : Z),
    0 <= k ->
    (Z.to_nat (Math_ceil_div (limit - (getNextCheckTime z 0 now + k * gridMs)) gridMs)
     < fuel)%nat ->
    exists n,
      k <= n
      /\ skipAhead z fuel now limit k (getNextCheckTime z 0 now + k * gridMs)
         = Some (getNextCheckTime z 0 now + n * gridMs, n)
      /\ limit <= getNextCheckTime z 0 now + n * gridMs
      /\ (forall j, k <= j < n -> getNextCheckTime z 0 now + j * gridMs < limit).
Proof.
  intros z. unfold z. clear z.
  set (G := getNextCheckTime (fixedZone off) 0 now).
  induction fuel as [|fuel IH]; intros k Hk Hfuel; [lia|].
  cbn [skipAhead]. unfold getTime.
  destruct (Z.ltb_spec (G + k * gridMs) limit) as [Hlt|Hge].
  - destruct (IH (k + 1)) as (n & Hn & Hrun & Hlim & Hskip).
    + lia.
    + revert Hfuel Hlt. unfold Math_ceil_div, gridMs, msPerMinute.
      intros Hfuel Hlt.
      assert (0 < (limit - (G + k * (15 * 60000)) + 15 * 60000 - 1) / (15 * 60000))
        by (Z.div_mod_to_equations; lia).
      assert ((limit - (G + (k + 1) * (15 * 60000)) + 15 * 60000 - 1) / (15 * 60000)
              = (limit - (G + k * (15 * 60000)) + 15 * 60000 - 1) / (15 * 60000) - 1)
        by (Z.div_mod_to_equations; lia).
      lia.
    + exists n. rewrite (getNextCheckTime_step off (k + 1)) by lia. fold G.
      repeat split; try assumption; try lia.
      intros j Hj. destruct (Z.eq_dec j k) as [->|Hne]; [assumption|].
      apply Hskip. lia.
  - exists k. repeat split; try lia.
Qed.

Lemma skipAhead_fuel_monotone (z : Zone) (now limit : Z) :
  forall (fuel fuel' : nat) (k nextCheck : Z) r,
    skipAhead z fuel now limit k nextCheck = Some r ->
    (fuel <= fuel')%nat ->
    skipAhead z fuel' now limit k nextCheck = Some r.
Proof.
  induction fuel as [|fuel IH]; intros fuel' k nextCheck r Hrun Hle;
    [discriminate|].
  destruct fuel' as [|fuel']; [lia|].
  cbn [skipAhead] in *.
  destruct (getTime nextCheck <? limit); [|assumption].
  eapply IH; [eassumption|lia].
Qed.

(** A grid line [t] with [t - 15min < limit <= t] is the first grid line
    at or after [limit]. *)
Lemma first_grid_line_unique (off t limit : Z) :
  on_grid (fixedZone off) t -> limit <= t -> t - gridMs < limit ->
  t = first_grid_line_at_or_after (fixedZone off) limit.
Proof.
  zone_unfold.
  intros Hg Hle Hlt. Z.div_mod_to_equations. lia.
Qed.

Lemma getNextCheckTime_0_bounds (off now : Z) :
  now - gridMs < getNextCheckTime (fixedZone off) 0 now <= now + gridMs.
Proof.
  rewrite getNextCheckTime_closed_form by lia.
  zone_unfold. Z.div_mod_to_equations. lia.
Qed.

(** C3 (amended): in a time zone whose offset does not change, when the
    pre-check denies, the scheduler arms its timer for the first line of
    the sequence getNextCheckTime(0), getNextCheckTime(0) + 15 min, ...
    that is at or after resetAt + 60 s, and skips every line of the
    sequence before it.  That line is the first 15-minute grid line at or
    after resetAt + 60 s whenever resetAt + 60 s lies after
    getNextCheckTime(0) - 15 min, which is so whenever the denial comes
    from the quota test.  With resetAt 20 minutes ahead, one intermediate
    grid tick is skipped when the clock is at most 9 minutes past a grid
    line, and two otherwise. *)
Theorem C3_skip_ahead_to_first_viable_line :
  forall (off : Z) (s : State) (db : Db),
    let z := fixedZone off in
    canProcessAccounts (Z.of_nat (List.length (getAllTwitterAccounts db))) s = false ->
    let limit := resetAt s + 60000 in
    let G0 := getNextCheckTime z 0 (clock s) in
    exists (t n : Z) (fuel0 : nat),
      (forall fuel, (fuel0 <= fuel)%nat ->
         findNextViableCheckTime' z fuel s db = Some (t, n)
         /\ forall gateFuel send tw yt,
              runChecks z gateFuel fuel send tw yt s db
              = Some (Skipped t (t - clock s), s, db))
      /\ 0 <= n /\ t = G0 + n * gridMs /\ on_grid z t /\ limit <= t
      /\ (forall j, 0 <= j < n -> G0 + j * gridMs < limit)
      /\ (G0 - gridMs < limit -> t = first_grid_line_at_or_after z limit)
      /\ (backoffTime s <= 0 -> requestCount s < maxRequestsPerBatch ->
          t = first_grid_line_at_or_after z limit)
      /\ (resetAt s = clock s + 20 * msPerMinute ->
          t = first_grid_line_at_or_after z limit
          /\ (LocalTime z (clock s) mod gridMs <= 9 * msPerMinute ->
              ticks_strictly_between z (clock s) t = 1)
          /\ (9 * msPerMinute < LocalTime z (clock s) mod gridMs ->
              ticks_strictly_between z (clock s) t = 2)).
Proof.
  intros off s db z Hdeny limit G0.
  pose (fuel0 := S (Z.to_nat (Math_ceil_div (limit - (G0 + 0 * gridMs)) gridMs))).
  destruct (skipAhead_first_line off (clock s) limit fuel0 0)
    as (n & Hn & Hrun & Hlim & Hskip);
    [lia | unfold fuel0, G0, z; lia |].
  fold z in Hrun, Hlim, Hskip. fold G0 in Hrun, Hlim, Hskip.
  assert (Hgrid : on_grid z (G0 + n * gridMs)).
  { unfold G0, z. rewrite <- getNextCheckTime_step by lia.
    apply getNextCheckTime_on_grid; lia. }
  assert (Hfirst : G0 - gridMs < limit ->
                   G0 + n * gridMs = first_grid_line_at_or_after z limit).
  { intros Hnear. apply first_grid_line_unique; [assumption|assumption|].
    destruct (Z.eq_dec n 0) as [->|Hn0]; [lia|].
    specialize (Hskip (n - 1)). lia. }
  pose proof (getNextCheckTime_0_bounds off (clock s)) as HG0.
  fold z in HG0. fold G0 in HG0.
  exists (G0 + n * gridMs), n, fuel0.
  split.
  { intros fuel Hfuel.
    assert (Hfind : findNextViableCheckTime' z fuel s db = Some (G0 + n * gridMs, n)).
    { unfold findNextViableCheckTime'. rewrite Hdeny. cbn [negb].
      apply (skipAhead_fuel_monotone _ _ _ fuel0); [|assumption].
      cbn [getRateLimitInfo info_resetAt]. fold limit. fold G0.
      replace G0 with (G0 + 0 * gridMs) at 1 by lia. exact Hrun. }
    split; [exact Hfind|].
    intros gateFuel send tw yt. unfold runChecks, findNextViableCheckTime.
    rewrite Hdeny, Hfind. reflexivity. }
  split; [lia|]. split; [reflexivity|]. do 4 (split; [assumption|]).
  split; [|intros H20; split; [|split]].
  - intros Hb Hc. apply Hfirst.
    revert Hdeny. unfold canProcessAccounts.
    destruct (Z.ltb_spec 0 (backoffTime s)); [lia|].
    destruct (Z.leb_spec maxRequestsPerBatch (requestCount s)); [lia|].
    destruct (_ <? _); [|discriminate].
    destruct (Z.ltb_spec 60000 (resetAt s - clock s)); [|discriminate].
    intros _. unfold limit. lia.
  - apply Hfirst. unfold limit, msPerMinute in *. lia.
  - intros Hpos.
    assert (Hn1 : 1 <= n) by (unfold limit, gridMs, msPerMinute in *; lia).
    specialize (Hskip (n - 1)).
    clear Hfirst Hrun HG0. revert Hskip Hlim Hpos Hgrid.
    unfold G0, limit, z. rewrite getNextCheckTime_closed_form by lia.
    rewrite H20. zone_unfold. intros. Z.div_mod_to_equations. lia.
  - intros Hpos.
    assert (Hn1 : 1 <= n) by (unfold limit, gridMs, msPerMinute in *; lia).
    specialize (Hskip (n - 1)).
    clear Hfirst Hrun HG0. revert Hskip Hlim Hpos Hgrid.
    unfold G0, limit, z. rewrite getNextCheckTime_closed_form by lia.
    rewrite H20. zone_unfold. intros. Z.div_mod_to_equations. lia.
Qed.

(** C3 (counterexample): at 10:10 with resetAt twenty minutes ahead the
    pre-check denies and the scheduler jumps to 10:45, past the two grid
    ticks 10:15 and 10:30, not past exactly one.  And at 12:07 with the
    batch counter at its cap and resetAt at 10:22 the pre-check denies and
    the scheduler picks 12:15, which is not the first grid line at or
    after resetAt + 60 s (10:30). *)
Lemma C3_counterexample_two_ticks_skipped :
  (canProcessAccounts (Z.of_nat (List.length (getAllTwitterAccounts db_alice))) s_1010
   = false
   /\ resetAt s_1010 = clock s_1010 + 20 * msPerMinute
   /\ findNextViableCheckTime' utc 3 s_1010 db_alice
      = Some (at_time utc 19000 10 45 0 0, 2)
   /\ ticks_strictly_between utc (clock s_1010) (at_time utc 19000 10 45 0 0) = 2
   /\ ticks_strictly_between utc (clock s_1010) (at_time utc 19000 10 45 0 0) <> 1)
  /\ (canProcessAccounts (Z.of_nat (List.length (getAllTwitterAccounts db_alice)))
                          s_capped_1207 = false
      /\ findNextViableCheckTime' utc 3 s_capped_1207 db_alice
         = Some (at_time utc 19000 12 15 0 0, 0)
      /\ first_grid_line_at_or_after utc (resetAt s_capped_1207 + 60000)
         = at_time utc 19000 10 30 0 0
      /\ at_time utc 19000 12 15 0 0
         <> first_grid_line_at_or_after utc (resetAt s_capped_1207 + 60000)).
Proof. vm_compute. repeat split; congruence. Qed.

Lemma C3_witness_at_1007 :
  canProcessAccounts (Z.of_nat (List.length (getAllTwitterAccounts db_alice))) s_1007
  = false
  /\ exists t, on_grid utc t /\ resetAt s_1007 + 60000 <= t
               /\ ticks_strictly_between utc (clock s_1007) t = 1.
Proof.
  assert (Hdeny : canProcessAccounts
                    (Z.of_nat (List.length (getAllTwitterAccounts db_alice))) s_1007
                  = false) by (vm_compute; reflexivity).
  split; [exact Hdeny|].
  destruct (C3_skip_ahead_to_first_viable_line 0 s_1007 db_alice Hdeny)
    as (t & n & fuel0 & _ & _ & _ & Hgrid & Hlim & _ & _ & _ & H20).
  exists t. split; [exact Hgrid|]. split; [exact Hlim|].
  apply H20; [vm_compute; reflexivity|]. vm_compute. discriminate.
Defined.

(* ------------------------------------------------------------------ *)
(** * The rate-limit gate *)

(** The backoff branch of [handleRateLimit] lies behind two tests that no
    count fails together: [remaining <= 100] and [remaining > 0]. *)
Lemma backoff_branch_guard_unsatisfiable (r : Z) :
  (r <=? bufferThreshold) = false -> (0 <? r) = false -> False.
Proof. unfold bufferThreshold. intros H1 H2. lia. Qed.

(** One unfolding of the method always answers [true]. *)
Lemma handleRateLimit_grants (fuel : nat) (s : State) :
  exists s', handleRateLimit (S fuel) s = Some (true, s').
Proof.
  cbn [handleRateLimit].
  destruct (maxRequestsPerBatch <=? requestCount s); [eexists; reflexivity|].
  destruct (resetAt s <=? clock s); [eexists; reflexivity|].
  destruct (remaining s <=? bufferThreshold) eqn:Hbuf; [eexists; reflexivity|].
  destruct (0 <? remaining s) eqn:Hpos; [eexists; reflexivity|].
  exfalso. exact (backoff_branch_guard_unsatisfiable _ Hbuf Hpos).
Qed.

Lemma handleRateLimit_never_false (fuel : nat) (s s' : State) (b : bool) :
  handleRateLimit fuel s = Some (b, s') -> b = true.
Proof.
  destruct fuel as [|fuel]; [discriminate|].
  destruct (handleRateLimit_grants fuel s) as (s1 & ->). congruence.
Qed.

(** Reading a field of an updated tracker. *)
Lemma clock_set_clock (v : Z) (s : State) : clock (set_clock v s) = v.
Proof. reflexivity. Qed.
Lemma remaining_set_clock (v : Z) (s : State) : remaining (set_clock v s) = remaining s.
Proof. reflexivity. Qed.
Lemma resetAt_set_clock (v : Z) (s : State) : resetAt (set_clock v s) = resetAt s.
Proof. reflexivity. Qed.
Lemma lastReset_set_clock (v : Z) (s : State) : lastReset (set_clock v s) = lastReset s.
Proof. reflexivity. Qed.
Lemma backoffTime_set_clock (v : Z) (s : State) : backoffTime (set_clock v s) = backoffTime s.
Proof. reflexivity. Qed.
Lemma lastRequestTime_set_clock (v : Z) (s : State) : lastRequestTime (set_clock v s) = lastRequestTime s.
Proof. reflexivity. Qed.
Lemma requestCount_set_clock (v : Z) (s : State) : requestCount (set_clock v s) = requestCount s.
Proof. reflexivity. Qed.
Lemma clock_set_remaining (v : Z) (s : State) : clock (set_remaining v s) = clock s.
Proof. reflexivity. Qed.
Lemma remaining_set_remaining (v : Z) (s : State) : remaining (set_remaining v s) = v.
Proof. reflexivity. Qed.
Lemma resetAt_set_remaining (v : Z) (s : State) : resetAt (set_remaining v s) = resetAt s.
Proof. reflexivity. Qed.
Lemma lastReset_set_remaining (v : Z) (s : State) : lastReset (set_remaining v s) = lastReset s.
Proof. reflexivity. Qed.
Lemma backoffTime_set_remaining (v : Z) (s : State) : backoffTime (set_remaining v s) = backoffTime s.
Proof. reflexivity. Qed.
Lemma lastRequestTime_set_remaining (v : Z) (s : State) : lastRequestTime (set_remaining v s) = lastRequestTime s.
Proof. reflexivity. Qed.
Lemma requestCount_set_remaining (v : Z) (s : State) : requestCount (set_remaining v s) = requestCount s.
Proof. reflexivity. Qed.
Lemma clock_set_resetAt (v : Z) (s : State) : clock (set_resetAt v s) = clock s.
Proof. reflexivity. Qed.
Lemma remaining_set_resetAt (v : Z) (s : State) : remaining (set_resetAt v s) = remaining s.
Proof. reflexivity. Qed.
Lemma resetAt_set_resetAt (v : Z) (s : State) : resetAt (set_resetAt v s) = v.
Proof. reflexivity. Qed.
Lemma lastReset_set_resetAt (v : Z) (s : State) : lastReset (set_resetAt v s) = lastReset s.
Proof. reflexivity. Qed.
Lemma backoffTime_set_resetAt (v : Z) (s : State) : backoffTime (set_resetAt v s) = backoffTime s.
Proof. reflexivity. Qed.
Lemma lastRequestTime_set_resetAt (v : Z) (s : State) : lastRequestTime (set_resetAt v s) = lastRequestTime s.
Proof. reflexivity. Qed.
Lemma requestCount_set_resetAt (v : Z) (s : State) : requestCount (set_resetAt v s) = requestCount s.
Proof. reflexivity. Qed.
Lemma clock_set_lastReset (v : Z) (s : State) : clock (set_lastReset v s) = clock s.
Proof. reflexivity. Qed.
Lemma remaining_set_lastReset (v : Z) (s : State) : remaining (set_lastReset v s) = remaining s.
Proof. reflexivity. Qed.
Lemma resetAt_set_lastReset (v : Z) (s : State) : resetAt (set_lastReset v s) = resetAt s.
Proof. reflexivity. Qed.
Lemma lastReset_set_lastReset (v : Z) (s : State) : lastReset (set_lastReset v s) = v.
Proof. reflexivity. Qed.
Lemma backoffTime_set_lastReset (v : Z) (s : State) : backoffTime (set_lastReset v s) = backoffTime s.
Proof. reflexivity. Qed.
Lemma lastRequestTime_set_lastReset (v : Z) (s : State) : lastRequestTime (set_lastReset v s) = lastRequestTime s.
Proof. reflexivity. Qed.
Lemma requestCount_set_lastReset (v : Z) (s : State) : requestCount (set_lastReset v s) = requestCount s.
Proof. reflexivity. Qed.
Lemma clock_set_backoffTime (v : Z) (s : State) : clock (set_backoffTime v s) = clock s.
Proof. reflexivity. Qed.
Lemma remaining_set_backoffTime (v : Z) (s : State) : remaining (set_backoffTime v s) = remaining s.
Proof. reflexivity. Qed.
Lemma resetAt_set_backoffTime (v : Z) (s : State) : resetAt (set_backoffTime v s) = resetAt s.
Proof. reflexivity. Qed.
Lemma lastReset_set_backoffTime (v : Z) (s : State) : lastReset (set_backoffTime v s) = lastReset s.
Proof. reflexivity. Qed.
Lemma backoffTime_set_backoffTime (v : Z) (s : State) : backoffTime (set_backoffTime v s) = v.
Proof. reflexivity. Qed.
Lemma lastRequestTime_set_backoffTime (v : Z) (s : State) : lastRequestTime (set_backoffTime v s) = lastRequestTime s.
Proof. reflexivity. Qed.
Lemma requestCount_set_backoffTime (v : Z) (s : State) : requestCount (set_backoffTime v s) = requestCount s.
Proof. reflexivity. Qed.
Lemma clock_set_lastRequestTime (v : Z) (s : State) : clock (set_lastRequestTime v s) = clock s.
Proof. reflexivity. Qed.
Lemma remaining_set_lastRequestTime (v : Z) (s : State) : remaining (set_lastRequestTime v s) = remaining s.
Proof. reflexivity. Qed.
Lemma resetAt_set_lastRequestTime (v : Z) (s : State) : resetAt (set_lastRequestTime v s) = resetAt s.
Proof. reflexivity. Qed.
Lemma lastReset_set_lastRequestTime (v : Z) (s : State) : lastReset (set_lastRequestTime v s) = lastReset s.
Proof. reflexivity. Qed.
Lemma backoffTime_set_lastRequestTime (v : Z) (s : State) : backoffTime (set_lastRequestTime v s) = backoffTime s.
Proof. reflexivity. Qed.
Lemma lastRequestTime_set_lastRequestTime (v : Z) (s : State) : lastRequestTime (set_lastRequestTime v s) = v.
Proof. reflexivity. Qed.
Lemma requestCount_set_lastRequestTime (v : Z) (s : State) : requestCount (set_lastRequestTime v s) = requestCount s.
Proof. reflexivity. Qed.
Lemma clock_set_requestCount (v : Z) (s : State) : clock (set_requestCount v s) = clock s.
Proof. reflexivity. Qed.
Lemma remaining_set_requestCount (v : Z) (s : State) : remaining (set_requestCount v s) = remaining s.
Proof. reflexivity. Qed.
Lemma resetAt_set_requestCount (v : Z) (s : State) : resetAt (set_requestCount v s) = resetAt s.
Proof. reflexivity. Qed.
Lemma lastReset_set_requestCount (v : Z) (s : State) : lastReset (set_requestCount v s) = lastReset s.
Proof. reflexivity. Qed.
Lemma backoffTime_set_requestCount (v : Z) (s : State) : backoffTime (set_requestCount v s) = backoffTime s.
Proof. reflexivity. Qed.
Lemma lastRequestTime_set_requestCount (v : Z) (s : State) : lastRequestTime (set_requestCount v s) = lastRequestTime s.
Proof. reflexivity. Qed.
Lemma requestCount_set_requestCount (v : Z) (s : State) : requestCount (set_requestCount v s) = v.
Proof. reflexivity. Qed.

Create Rewrite HintDb tracker.
#[local] Hint Rewrite clock_set_clock remaining_set_clock resetAt_set_clock lastReset_set_clock backoffTime_set_clock lastRequestTime_set_clock requestCount_set_clock : tracker.
#[local] Hint Rewrite clock_set_remaining remaining_set_remaining resetAt_set_remaining lastReset_set_remaining backoffTime_set_remaining lastRequestTime_set_remaining requestCount_set_remaining : tracker.
#[local] Hint Rewrite clock_set_resetAt remaining_set_resetAt resetAt_set_resetAt lastReset_set_resetAt backoffTime_set_resetAt lastRequestTime_set_resetAt requestCount_set_resetAt : tracker.
#[local] Hint Rewrite clock_set_lastReset remaining_set_lastReset resetAt_set_lastReset lastReset_set_lastReset backoffTime_set_lastReset lastRequestTime_set_lastReset requestCount_set_lastReset : tracker.
#[local] Hint Rewrite clock_set_backoffTime remaining_set_backoffTime resetAt_set_backoffTime lastReset_set_backoffTime backoffTime_set_backoffTime lastRequestTime_set_backoffTime requestCount_set_backoffTime : tracker.
#[local] Hint Rewrite clock_set_lastRequestTime remaining_set_lastRequestTime resetAt_set_lastRequestTime lastReset_set_lastRequestTime backoffTime_set_lastRequestTime lastRequestTime_set_lastRequestTime requestCount_set_lastRequestTime : tracker.
#[local] Hint Rewrite clock_set_requestCount remaining_set_requestCount resetAt_set_requestCount lastReset_set_requestCount backoffTime_set_requestCount lastRequestTime_set_requestCount requestCount_set_requestCount : tracker.

Ltac tracker_fields :=
  unfold recordResponse, recordThrottled, sleep in *;
  autorewrite with tracker in *.

(** The gate only moves the clock forward. *)
Lemma sleep_clock (d : Z) (s : State) : clock s <= clock (sleep d s).
Proof. tracker_fields. lia. Qed.

(** What one call of the gate does to the tracker: it grants; the quota
    is kept or refilled to 180; the backoff is kept or cleared, and it is
    cleared when the call finds [resetAt] reached below the batch cap; the
    clock does not go back. *)
Lemma handleRateLimit_effect (fuel : nat) (s : State) :
  exists s',
    handleRateLimit (S fuel) s = Some (true, s')
    /\ (remaining s' = remaining s \/ remaining s' = 180)
    /\ (backoffTime s' = backoffTime s \/ backoffTime s' = 0)
    /\ clock s <= clock s'
    /\ (resetAt s <= clock s -> requestCount s < maxRequestsPerBatch ->
        backoffTime s' = 0 /\ remaining s' = 180
        /\ resetAt s' = clock s + 900000).
Proof.
  cbn [handleRateLimit].
  set (s1 := if clock s - lastRequestTime s <? minRequestInterval
             then sleep (minRequestInterval - (clock s - lastRequestTime s)) s
             else s).
  assert (H1 : remaining s1 = remaining s /\ backoffTime s1 = backoffTime s
               /\ clock s <= clock s1).
  { unfold s1. destruct (_ <? minRequestInterval); tracker_fields; lia. }
  destruct H1 as (Hr & Hb & Hc). clearbody s1.
  destruct (Z.leb_spec maxRequestsPerBatch (requestCount s)) as [Hcap|Hcap].
  { eexists; split; [reflexivity|]. tracker_fields. lia. }
  destruct (Z.leb_spec (resetAt s) (clock s)) as [Hreset|Hreset].
  { eexists; split; [reflexivity|]. tracker_fields. lia. }
  destruct (remaining s <=? bufferThreshold) eqn:Hbuf.
  { eexists; split; [reflexivity|]. tracker_fields. lia. }
  destruct (0 <? remaining s) eqn:Hpos.
  { eexists; split; [reflexivity|]. tracker_fields. lia. }
  exfalso. exact (backoff_branch_guard_unsatisfiable _ Hbuf Hpos).
Qed.

(** C10: the gate of the poller always grants.  For every tracker state,
    [handleRateLimit] returns, and returns [true]; it never returns
    [false]; and so no call of [fetchTweets] ends in the branch that
    reports a denied gate. *)
Theorem C10_gate_always_grants :
  forall (fuel : nat) (s : State),
    (exists s', handleRateLimit (S fuel) s = Some (true, s'))
    /\ (forall n b s', handleRateLimit n s = Some (b, s') -> b = true)
    /\ (forall api acct db,
          exists o s' db',
            fetchTweets (handleRateLimit (S fuel)) api acct s db = Some (o, s', db')
            /\ o <> GateDenied).
Proof.
  intros fuel s. split; [apply handleRateLimit_grants|].
  split; [intros n b s'; apply handleRateLimit_never_false|].
  intros api acct db. unfold fetchTweets.
  destruct (handleRateLimit_grants fuel s) as (s1 & ->).
  destruct (api _ _) as [r|status hint|].
  - destruct (negb (valid_date _));
      [eexists _, _, _; split; [reflexivity|discriminate]|].
    destruct (data r) as [[|newest older]|];
      [eexists _, _, _; split; [reflexivity|discriminate]| |
       eexists _, _, _; split; [reflexivity|discriminate]].
    destruct (includes_users r);
      eexists _, _, _; (split; [reflexivity|discriminate]).
  - destruct (status =? 429);
      eexists _, _, _; (split; [reflexivity|discriminate]).
  - eexists _, _, _; split; [reflexivity|discriminate].
Qed.

(* ------------------------------------------------------------------ *)
(** * Backoff steps and the operations of the tracker *)

Lemma backoff_ok_bounds (b : Z) : backoff_ok b -> 0 <= b <= 300000.
Proof. intros [->|[H _]]; lia. Qed.

(** A backoff step keeps the backoff in its set: 10000 after 0, and
    otherwise one more doubling under the cap. *)
Lemma nextBackoff_ok (b : Z) : backoff_ok b -> backoff_ok (nextBackoff b).
Proof.
  intros [->|[Hrange (k & Hk & Hb)]]; right.
  - cbn. split; [lia|]. exists 0. split; [lia|reflexivity].
  - unfold nextBackoff. destruct (Z.eqb_spec b 0) as [H0|_]; [lia|].
    split; [lia|]. exists (k + 1). split; [lia|].
    rewrite Z.pow_add_r by lia. change (2 ^ 1) with 2. lia.
Qed.

Lemma nextBackoff_iter_ok (n : nat) (b : Z) :
  backoff_ok b -> backoff_ok (Nat.iter n nextBackoff b).
Proof.
  intros Hb. induction n as [|n IH]; [exact Hb|].
  cbn [Nat.iter]. apply nextBackoff_ok, IH.
Qed.

(** The first backoff steps, as the code computes them. *)
Lemma nextBackoff_sequence :
  map (fun n => Nat.iter n nextBackoff 0) [0; 1; 2; 3; 4; 5; 6; 7]%nat
  = [0; 10000; 20000; 40000; 80000; 160000; 300000; 300000].
Proof. reflexivity. Qed.

(** Every entry point of the tracker returns, sets no backoff, and keeps
    [remaining] from going negative unless the upstream reports a negative
    count. *)
Lemma step_total (fuel : nat) (op : TrackerOp) (s : State) :
  exists s',
    step (S fuel) op s = Some s'
    /\ (backoffTime s = 0 -> backoffTime s' = 0)
    /\ (upstream_conformant op -> 0 <= remaining s -> 0 <= remaining s').
Proof.
  destruct op as [|hRemaining hReset|hRetryAfter|d]; unfold step.
  - destruct (handleRateLimit_effect fuel s) as (s' & -> & Hr & Hb & _).
    exists s'. cbn. split; [reflexivity|]. split; intros; lia.
  - eexists; split; [reflexivity|]. tracker_fields.
    split; [tauto|]. destruct hRemaining as [r|]; cbn; lia.
  - eexists; split; [reflexivity|]. tracker_fields. split; [tauto|lia].
  - eexists; split; [reflexivity|]. tracker_fields. tauto.
Qed.

Lemma run_total (fuel : nat) (ops : list TrackerOp) :
  forall s,
    backoffTime s = 0 ->
    exists s', run (S fuel) ops s = Some s'
               /\ backoffTime s' = 0
               /\ (Forall upstream_conformant ops -> 0 <= remaining s ->
                   0 <= remaining s').
Proof.
  induction ops as [|op ops IH]; intros s H0.
  - exists s. split; [reflexivity|]. split; [exact H0|]. intros _ H. exact H.
  - destruct (step_total fuel op s) as (s1 & Hstep & Hb & Hrem).
    destruct (IH s1 (Hb H0)) as (s' & Hrun & H0' & Hrem').
    exists s'. cbn [run]. rewrite Hstep. split; [exact Hrun|].
    split; [exact H0'|]. intros Hops Hs.
    inversion Hops as [|? ? Hop Hrest]; subst. auto.
Qed.

(* ------------------------------------------------------------------ *)
(** * The 429 answer *)

Lemma recordThrottled_effect (hint : option Z) (s : State) :
  remaining (recordThrottled hint s) = 0
  /\ resetAt (recordThrottled hint s) = clock s + parseInt_or 900 hint * 1000
  /\ clock (recordThrottled hint s) = clock s
  /\ backoffTime (recordThrottled hint s) = backoffTime s
  /\ requestCount (recordThrottled hint s) = requestCount s.
Proof. tracker_fields. repeat split; reflexivity. Qed.

(** C6: when the upstream answers 429, [fetchTweets] leaves the tracker
    with [remaining = 0] and with [resetAt] at the current time plus the
    [retry-after] hint in seconds, and plus 900 seconds when the answer
    carries no hint. *)
Theorem C6_throttled_forces_zero_and_reset :
  forall (fuel : nat) (api : Twitter.Api) (acct : TwitterAccount)
         (s : State) (db : Db) (hint : option Z),
    api (account_handle acct) (or_undefined (last_tweet_id acct))
    = ApiHttpError 429 hint ->
    exists s',
      fetchTweets (handleRateLimit (S fuel)) api acct s db = Some (Throttled, s', db)
      /\ remaining s' = 0
      /\ resetAt s' = clock s' + parseInt_or 900 hint * 1000
      /\ (forall seconds, hint = Some seconds ->
            resetAt s' = clock s' + seconds * 1000)
      /\ (hint = None -> resetAt s' = clock s' + 900000).
Proof.
  intros fuel api acct s db hint Hapi. unfold fetchTweets.
  destruct (handleRateLimit_grants fuel s) as (s1 & ->).
  rewrite Hapi. cbn [Z.eqb Pos.eqb].
  eexists. split; [reflexivity|].
  destruct (recordThrottled_effect hint (set_lastRequestTime (clock s1) s1))
    as (Hrem & Hreset & Hclock & _).
  rewrite Hrem, Hreset, Hclock. split; [reflexivity|]. split; [reflexivity|].
  split; [intros seconds ->; reflexivity|intros ->; reflexivity].
Qed.

Lemma C6_witness_no_hint :
  api_429 None (account_handle alice) (or_undefined (last_tweet_id alice))
  = ApiHttpError 429 None
  /\ exists s',
       fetchTweets (handleRateLimit 1) (api_429 None) alice (constructor 1641600000000)
                   db_alice = Some (Throttled, s', db_alice)
       /\ remaining s' = 0 /\ resetAt s' = clock s' + 900000.
Proof.
  split; [reflexivity|].
  destruct (C6_throttled_forces_zero_and_reset 0 (api_429 None) alice
              (constructor 1641600000000) db_alice None eq_refl)
    as (s' & Hrun & Hrem & _ & _ & Hdefault).
  exists s'. split; [exact Hrun|]. split; [exact Hrem|]. apply Hdefault. reflexivity.
Defined.

(* ------------------------------------------------------------------ *)
(** * The time window of the quota-free poller *)

Lemma isNewVideo_window (now : Z) (v : Video) :
  isNewVideo now v = true
  <-> within_trailing_window now (publishedAt v) \/ now < publishedAt v.
Proof.
  unfold isNewVideo, within_trailing_window. rewrite Z.ltb_lt. lia.
Qed.

Lemma processChannels_results (api : YouTube.Api) (now : Z) :
  forall channels results db,
    fst (processChannels api now channels results db)
    = results ++ flat_map (uploadsOf api now) channels.
Proof.
  induction channels as [|ch rest IH]; intros results db; cbn [processChannels flat_map].
  - now rewrite app_nil_r.
  - unfold uploadsOf at 1.
    destruct (fetchLatestVideos api (channel_id ch)) as [[ci vs]|];
      [|rewrite IH; reflexivity].
    destruct (filter (isNewVideo now) vs) as [|newest more];
      rewrite IH; [reflexivity|].
    now rewrite <- app_assoc.
Qed.

Lemma uploadsOf_videos (api : YouTube.Api) (now : Z) (ch : YoutubeChannel)
      (v : Video) :
  (exists u, In u (uploadsOf api now ch) /\ In v (up_videos u))
  <-> (exists ci vs, fetchLatestVideos api (channel_id ch) = Some (ci, vs)
                     /\ In v vs /\ isNewVideo now v = true).
Proof.
  unfold uploadsOf.
  destruct (fetchLatestVideos api (channel_id ch)) as [[ci vs]|].
  - destruct (filter (isNewVideo now) vs) as [|newest more] eqn:Hf; split.
    + intros (u & [] & _).
    + intros (ci' & vs' & [= <- <-] & Hin & Hnew).
      assert (In v (filter (isNewVideo now) vs)) by (apply filter_In; auto).
      rewrite Hf in *. contradiction.
    + intros (u & [<-|[]] & Hin). cbn [up_videos] in Hin.
      rewrite <- Hf in Hin. apply filter_In in Hin.
      exists ci, vs. tauto.
    + intros (ci' & vs' & [= <- <-] & Hin & Hnew).
      exists (mkUploadData ci (newest :: more)). split; [left; reflexivity|].
      cbn [up_videos]. rewrite <- Hf. apply filter_In. auto.
  - split; [intros (u & [] & _)|intros (ci & vs & [=] & _)].
Qed.

(** C7 (amended): for every monitored channel and every clock reading, a
    fetched video is reported as new exactly when its publication time is
    later than 15 minutes before the clock reading: when it lies within
    the trailing 15-minute window or after the clock reading.  For a
    video not dated after the clock reading that is membership in the
    window; 14 min 59 s old is inside, 15 min and 15 min 01 s old are
    outside. *)
Theorem C7_new_exactly_within_window_or_later :
  forall (api : YouTube.Api) (now : Z) (db : Db) (v : Video),
    (isNewVideo now v = true
     <-> within_trailing_window now (publishedAt v) \/ now < publishedAt v)
    /\ (publishedAt v <= now ->
        (isNewVideo now v = true <-> within_trailing_window now (publishedAt v)))
    /\ ((exists u, In u (fst (checkNewUploads api now db)) /\ In v (up_videos u))
        <-> (exists ch ci vs,
               In ch (getAllYoutubeChannels db)
               /\ fetchLatestVideos api (channel_id ch) = Some (ci, vs)
               /\ In v vs
               /\ (within_trailing_window now (publishedAt v)
                   \/ now < publishedAt v)))
    /\ (forall id title,
          isNewVideo now (mkVideo id title (now - (14 * 60 + 59) * 1000)) = true
          /\ within_trailing_window now (now - (14 * 60 + 59) * 1000))
    /\ (forall id title,
          isNewVideo now (mkVideo id title (now - 15 * 60 * 1000)) = false
          /\ ~ within_trailing_window now (now - 15 * 60 * 1000))
    /\ (forall id title,
          isNewVideo now (mkVideo id title (now - (15 * 60 + 1) * 1000)) = false
          /\ ~ within_trailing_window now (now - (15 * 60 + 1) * 1000)).
Proof.
  intros api now db v. split; [apply isNewVideo_window|].
  split; [intros Hpast; rewrite isNewVideo_window;
          unfold within_trailing_window; lia|]. split.
  - unfold checkNewUploads. rewrite processChannels_results. cbn [app]. split.
    + intros (u & Hu & Hv). apply in_flat_map in Hu as (ch & Hch & Hu).
      destruct (proj1 (uploadsOf_videos api now ch v)) as (ci & vs & Hf & Hin & Hnew);
        [exists u; auto|].
      exists ch, ci, vs. rewrite <- isNewVideo_window. auto.
    + intros (ch & ci & vs & Hch & Hf & Hin & Hwin).
      destruct (proj2 (uploadsOf_videos api now ch v)) as (u & Hu & Hv).
      { exists ci, vs. rewrite isNewVideo_window. auto. }
      exists u. split; [|exact Hv]. apply in_flat_map. exists ch. auto.
  - split; [|split]; intros id title;
      unfold isNewVideo, within_trailing_window; cbn [publishedAt];
      (split; [|lia]).
    + apply Z.ltb_lt. lia.
    + apply Z.ltb_ge. lia.
    + apply Z.ltb_ge. lia.
Qed.

(** C7 (counterexample): a video dated one second after the clock
    reading is reported as new, by the filter and by the pass, though its
    publication time is not within the 15 minutes that end at the clock
    reading. *)
Lemma C7_counterexample_video_dated_ahead :
  let now := 1641600000000 in
  let v := mkVideo "v1"%string "First"%string (now + 1000) in
  let api := mkApi (fun _ => Items [mkChannelInfo "UC1"%string "Channel One"%string
                                                 "UU1"%string])
                   (fun _ => Items ["v1"%string])
                   (fun _ => Items [v]) in
  let db := mkDb [] [mkYoutubeChannel "UC1"%string None] [] in
  isNewVideo now v = true
  /\ ~ within_trailing_window now (publishedAt v)
  /\ map up_videos (fst (checkNewUploads api now db)) = [[v]]
  /\ ~ (isNewVideo now v = true <-> within_trailing_window now (publishedAt v)).
Proof.
  cbv zeta. split; [vm_compute; reflexivity|].
  assert (Hout : ~ within_trailing_window 1641600000000
                     (publishedAt (mkVideo "v1"%string "First"%string
                                           (1641600000000 + 1000)))).
  { unfold within_trailing_window. cbn [publishedAt]. lia. }
  split; [exact Hout|]. split; [vm_compute; reflexivity|].
  intros [H _]. apply Hout, H. vm_compute. reflexivity.
Qed.

(* ------------------------------------------------------------------ *)
(** * The destination configuration *)

Section Upsert.
Variables (g : string) (tw yt : option string).

Let same (r : DiscordChannels) : bool := String.eqb (guild_id r) g.

Lemma upsert_guild_ids (rows : list DiscordChannels) :
  map guild_id (upsert_guild g tw yt rows)
  = if existsb same rows
    then map guild_id rows
    else map guild_id rows ++ [g].
Proof.
  induction rows as [|r rest IH]; [reflexivity|].
  cbn [upsert_guild existsb]. unfold same at 1.
  destruct (String.eqb (guild_id r) g); [reflexivity|].
  cbn [map orb]. rewrite IH. destruct (existsb same rest); reflexivity.
Qed.

Lemma upsert_guild_unique (rows : list DiscordChannels) :
  NoDup (map guild_id rows) -> NoDup (map guild_id (upsert_guild g tw yt rows)).
Proof.
  intros Hnd. rewrite upsert_guild_ids.
  destruct (existsb same rows) eqn:Hex; [assumption|].
  apply NoDup_app; [assumption|repeat constructor; intros []|].
  intros x Hx [<-|[]].
  apply in_map_iff in Hx as (r & Hr & Hin).
  assert (existsb same rows = true); [|congruence].
  apply existsb_exists. exists r. split; [assumption|].
  unfold same. now apply String.eqb_eq.
Qed.

(** After the write the guild has one row, and it holds the values written. *)
Lemma upsert_guild_one_row (rows : list DiscordChannels) :
  NoDup (map guild_id rows) ->
  filter same (upsert_guild g tw yt rows) = [mkDiscordChannels g tw yt].
Proof.
  induction rows as [|r rest IH]; intros Hnd; cbn [upsert_guild].
  - cbn. unfold same. cbn. now rewrite String.eqb_refl.
  - inversion Hnd as [|? ? Hnotin Hrest]; subst.
    destruct (String.eqb (guild_id r) g) eqn:Heq.
    + apply String.eqb_eq in Heq. cbn [filter]. unfold same at 1.
      cbn [guild_id]. rewrite Heq, String.eqb_refl. f_equal.
      clear IH Hnd Hrest. induction rest as [|r' rest' IH']; [reflexivity|].
      cbn [filter]. unfold same at 1.
      destruct (String.eqb (guild_id r') g) eqn:Heq'.
      * apply String.eqb_eq in Heq'. exfalso. apply Hnotin. left. congruence.
      * apply IH'. intros Hin. apply Hnotin. right. exact Hin.
    + cbn [filter]. unfold same at 1. rewrite Heq. apply IH, Hrest.
Qed.

(** The rows of the other guilds are left alone. *)
Lemma upsert_guild_others (g' : string) (rows : list DiscordChannels) :
  g' <> g ->
  filter (fun r => String.eqb (guild_id r) g') (upsert_guild g tw yt rows)
  = filter (fun r => String.eqb (guild_id r) g') rows.
Proof.
  intros Hne. induction rows as [|r rest IH]; cbn [upsert_guild].
  - cbn. destruct (String.eqb_spec g g'); [congruence|reflexivity].
  - destruct (String.eqb (guild_id r) g) eqn:Heq.
    + apply String.eqb_eq in Heq. cbn [filter guild_id].
      destruct (String.eqb_spec (guild_id r) g'); [congruence|reflexivity].
    + cbn [filter]. now rewrite IH.
Qed.

End Upsert.

Lemma find_of_filter_singleton {A} (p : A -> bool) (l : list A) (x : A) :
  filter p l = [x] -> find p l = Some x.
Proof.
  induction l as [|a l IH]; cbn; [discriminate|].
  destruct (p a); [intros [= ->]; reflexivity|exact IH].
Qed.

(** C8: two successive writes of the destination configuration of one
    guild leave exactly one row for that guild, with the values of the
    second write. *)
Theorem C8_setGuildChannels_upsert_last_write_wins :
  forall (db : Db) (g tw1 yt1 tw2 yt2 : string),
    unique_guilds db ->
    let db' := setGuildChannels g tw2 yt2 (setGuildChannels g tw1 yt1 db) in
    rows_of_guild g db' = [mkDiscordChannels g (Some tw2) (Some yt2)]
    /\ List.length (rows_of_guild g db') = 1%nat
    /\ unique_guilds db'
    /\ (g <> EmptyString ->
        getGuildChannels g db' = Some (Some (mkDiscordChannels g (Some tw2) (Some yt2))))
    /\ (forall g', g' <> g -> rows_of_guild g' db' = rows_of_guild g' db).
Proof.
  intros db g tw1 yt1 tw2 yt2 Hu db'.
  assert (Hu1 : NoDup (map guild_id
                         (upsert_guild g (Some tw1) (Some yt1) (discord_channels db))))
    by (apply upsert_guild_unique, Hu).
  assert (Hrows : rows_of_guild g db' = [mkDiscordChannels g (Some tw2) (Some yt2)]).
  { unfold db', rows_of_guild, setGuildChannels, set_discord_channels.
    cbn [discord_channels]. apply upsert_guild_one_row, Hu1. }
  split; [exact Hrows|]. split; [now rewrite Hrows|]. split; [|split].
  - unfold db', unique_guilds, setGuildChannels, set_discord_channels.
    cbn [discord_channels]. apply upsert_guild_unique, Hu1.
  - intros Hne. unfold getGuildChannels.
    destruct (String.eqb_spec g EmptyString); [contradiction|].
    f_equal. apply find_of_filter_singleton. exact Hrows.
  - intros g' Hne.
    unfold db', rows_of_guild, setGuildChannels, set_discord_channels.
    cbn [discord_channels]. now rewrite !upsert_guild_others.
Qed.

Lemma C8_witness_setup_twice :
  unique_guilds db_alice
  /\ rows_of_guild "guild-1"
       (setGuildChannels "guild-1" "c" "d" (setGuildChannels "guild-1" "a" "b" db_alice))
     = [mkDiscordChannels "guild-1" (Some "c") (Some "d")]%string.
Proof.
  assert (H : unique_guilds db_alice) by (repeat constructor; intros []).
  split; [exact H|].
  exact (proj1 (C8_setGuildChannels_upsert_last_write_wins
                  db_alice "guild-1" "a" "b" "c" "d" H)).
Defined.

(* ------------------------------------------------------------------ *)
(** * Adding a monitored channel *)

Lemma fetchLatestVideos_needs_channel (api : YouTube.Api) (channelId : string)
      (channel : ChannelInfo) (videos : list Video) :
  fetchLatestVideos api channelId = Some (channel, videos) ->
  exists others, get_channels api channelId = Items (channel :: others).
Proof.
  unfold fetchLatestVideos.
  destruct (get_channels api channelId) as [[|c others]|]; try discriminate.
  destruct (get_playlistItems api (uploads c)) as [[|v vs]|]; try discriminate.
  destruct (get_videos api (v :: vs)); try discriminate.
  intros [= <- <-]. now exists others.
Qed.

(** C9: the [add] subcommand looks the channel up first.  When the lookup
    fails or finds no channel the store is left as it was and the
    requester is told so; the store changes only after a lookup that found
    the channel, and then by the insertion of that channel id. *)
Theorem C9_add_channel_verifies_first :
  forall (api : YouTube.Api) (channelId : string) (db : Db),
    let db' := fst (execute_add api channelId db) in
    let reply := snd (execute_add api channelId db) in
    ((get_channels api channelId = Failed \/ get_channels api channelId = Items []) ->
       db' = db /\ reply = reply_not_found)
    /\ (fetchLatestVideos api channelId = None ->
          db' = db /\ reply = reply_not_found)
    /\ (db' <> db ->
          exists channel others videos,
            get_channels api channelId = Items (channel :: others)
            /\ fetchLatestVideos api channelId = Some (channel, videos)
            /\ db' = addYoutubeChannel channelId db
            /\ reply = reply_now_monitoring (yt_title channel) channelId).
Proof.
  intros api channelId db db' reply. unfold db', reply, execute_add.
  split; [|split].
  - unfold fetchLatestVideos. intros [-> | ->]; split; reflexivity.
  - intros ->. split; reflexivity.
  - destruct (fetchLatestVideos api channelId) as [[channel videos]|] eqn:Hf;
      cbn [fst snd]; [|intros H; now contradiction H].
    intros _. destruct (fetchLatestVideos_needs_channel _ _ _ _ Hf) as (others & Hc).
    exists channel, others, videos. auto.
Qed.

Lemma C9_witness_unknown_channel :
  (get_channels yt_unknown "UC-nobody" = Failed
   \/ get_channels yt_unknown "UC-nobody" = Items [])
  /\ execute_add yt_unknown "UC-nobody" db_alice = (db_alice, reply_not_found).
Proof.
  assert (H : get_channels yt_unknown "UC-nobody" = Failed
              \/ get_channels yt_unknown "UC-nobody" = Items [])
    by (right; reflexivity).
  split; [exact H|].
  destruct (proj1 (C9_add_channel_verifies_first yt_unknown "UC-nobody" db_alice) H)
    as [Hdb Hreply].
  rewrite (surjective_pairing (execute_add yt_unknown "UC-nobody" db_alice)).
  cbn zeta in Hdb, Hreply. rewrite Hdb, Hreply. reflexivity.
Defined.

(* ------------------------------------------------------------------ *)
(** * The pass of the quota-constrained poller *)

Lemma processChannels_twitter_accounts (api : YouTube.Api) (now : Z) :
  forall channels results db,
    twitter_accounts (snd (processChannels api now channels results db))
    = twitter_accounts db.
Proof.
  induction channels as [|ch rest IH]; intros results db;
    cbn [processChannels]; [reflexivity|].
  destruct (fetchLatestVideos api (channel_id ch)) as [[ci vs]|]; [|apply IH].
  destruct (filter (isNewVideo now) vs) as [|newest more]; [apply IH|].
  rewrite IH. reflexivity.
Qed.

(** With [db] undefined in twitter.js no guild is ever found configured,
    and the pass returns before its loop. *)
Lemma checkNewTweets_returns_before_loop
      (gate : State -> option (bool * State)) (api : Twitter.Api)
      (s : State) (db : Db) :
  checkNewTweets gate api s db = Some ([], [], s, db).
Proof. reflexivity. Qed.

Lemma cursor_of_update (h h' id : string) (db : Db) :
  cursor_of h (updateLastTweetId h' id db)
  = match cursor_of h db with
    | Some c => Some (if String.eqb h h' then Some id else c)
    | None => None
    end.
Proof.
  unfold cursor_of, updateLastTweetId, set_twitter_accounts.
  cbn [twitter_accounts].
  induction (twitter_accounts db) as [|r rows IH]; [reflexivity|].
  cbn [map find].
  destruct (String.eqb_spec (account_handle r) h') as [Hr|Hr]; cbn [account_handle].
  - destruct (String.eqb_spec (account_handle r) h) as [Hh|Hh].
    + cbn. destruct (String.eqb_spec h h'); [reflexivity|congruence].
    + exact IH.
  - destruct (String.eqb_spec (account_handle r) h) as [Hh|Hh].
    + cbn. destruct (String.eqb_spec h h'); [congruence|reflexivity].
    + exact IH.
Qed.

Lemma dispatchTweets_all (send : TweetData -> bool) (tweets : list TweetData) :
  (forall t, In t tweets -> author t <> None) ->
  dispatchTweets send tweets = (map (fun t => (t, send t)) tweets, true).
Proof.
  induction tweets as [|t rest IH]; intros Hall; [reflexivity|].
  cbn [dispatchTweets].
  destruct (author t) eqn:Ha; [|exfalso; apply (Hall t); [left; reflexivity|exact Ha]].
  rewrite IH; [reflexivity|]. intros t' Hin. apply Hall. right. exact Hin.
Qed.

Lemma handed_over_all (send : TweetData -> bool) (tweets : list TweetData) :
  (forall t, In t tweets -> author t <> None) ->
  handed_over send tweets = tweets.
Proof.
  intros Hall. unfold handed_over. rewrite dispatchTweets_all by exact Hall.
  cbn [fst]. rewrite map_map. apply map_id.
Qed.

(** An item without author ends the loop where it stands. *)
Lemma dispatchTweets_stops_at_missing_author (send : TweetData -> bool)
      (t : TweetData) (rest : list TweetData) :
  author t = None -> dispatchTweets send (t :: rest) = ([(t, false)], false).
Proof. intros Ha. cbn [dispatchTweets]. now rewrite Ha. Qed.

(** One call of [runChecks] leaves the tracker and the cursors of the
    accounts as they were, and hands no tweet to the delivery loop. *)
Lemma runChecks_leaves_tracker_and_cursors
      (zone : Zone) (gateFuel loopFuel : nat) (send : TweetData -> bool)
      (tw : Twitter.Api) (yt : YouTube.Api) (s s' : State) (db db' : Db)
      (r : RunResult) :
  runChecks zone gateFuel loopFuel send tw yt s db = Some (r, s', db') ->
  s' = s
  /\ twitter_accounts db' = twitter_accounts db
  /\ match r with
     | Skipped _ _ => True
     | Completed handed _ _ _ => handed = []
     | Retried _ _ => False
     end.
Proof.
  unfold runChecks.
  destruct (negb (canProcessAccounts _ s)).
  - destruct (findNextViableCheckTime zone loopFuel s db) as [t|]; [|discriminate].
    intros [= <- <- <-]. auto.
  - rewrite checkNewTweets_returns_before_loop. cbn [dispatchTweets].
    destruct (checkNewUploads yt (clock s) db) as [uploads db1] eqn:Hup.
    destruct (findNextViableCheckTime zone loopFuel s db1) as [t|]; [|discriminate].
    intros [= <- <- <-]. split; [reflexivity|]. split; [|reflexivity].
    change db1 with (snd (uploads, db1)). rewrite <- Hup.
    unfold checkNewUploads. apply processChannels_twitter_accounts.
Qed.


(* ------------------------------------------------------------------ *)
(** * Worked inputs *)

Example getNextCheckTime_1007 :
  getNextCheckTime utc 0 (at_time utc 19000 10 7 30 250) = at_time utc 19000 10 15 0 0.
Proof. vm_compute. reflexivity. Qed.

Example getNextCheckTime_1059 :
  getNextCheckTime utc 0 (at_time utc 19000 10 59 59 999) = at_time utc 19000 11 0 0 0.
Proof. vm_compute. reflexivity. Qed.

Example getNextCheckTime_2350_skip_2 :
  getNextCheckTime utc 2 (at_time utc 19000 23 50 0 0) = at_time utc 19001 0 30 0 0.
Proof. vm_compute. reflexivity. Qed.

Example getNextCheckTime_1015_30s :
  getNextCheckTime utc 0 (at_time utc 19000 10 15 30 0) = at_time utc 19000 10 15 0 0.
Proof. vm_compute. reflexivity. Qed.

Example findNextViableCheckTime_1007 :
  findNextViableCheckTime' utc 3 s_1007 db_alice = Some (at_time utc 19000 10 30 0 0, 1).
Proof. vm_compute. reflexivity. Qed.

Example handleRateLimit_fresh_tracker :
  option_map (fun r => (fst r, requestCount (snd r), clock (snd r)))
             (handleRateLimit 1 (constructor 1641600000000))
  = Some (true, 1, 1641600000000).
Proof. vm_compute. reflexivity. Qed.

Example handleRateLimit_below_buffer_waits_for_reset :
  option_map (fun r => (fst r, remaining (snd r), clock (snd r)))
             (handleRateLimit 1 (throttled_at 1641600000000))
  = Some (true, 180, 1641600000000 + 1200000 + 5000).
Proof. vm_compute. reflexivity. Qed.

Example canProcessAccounts_after_five_requests :
  canProcessAccounts 1 (set_requestCount 5 (constructor 1641600000000)) = false.
Proof. vm_compute. reflexivity. Qed.

(** The night daylight-saving time ends in New York.  Asked at 01:50
    EDT, [getNextCheckTime(0)] answers 02:00 EST, seventy minutes ahead,
    past the grid line 01:00 EST that is ten minutes ahead.  Asked at
    01:40 EDT, one skipped interval moves the answer by 75 minutes. *)
Example getNextCheckTime_end_of_daylight_saving :
  let now := 1636264200000 in
  let earlier := 1636263600000 in
  getNextCheckTime new_york_2021 0 now = now + 70 * msPerMinute
  /\ on_grid new_york_2021 (now + 10 * msPerMinute)
  /\ getNextCheckTime (fixedZone (- 4 * msPerHour)) 0 now = now + 10 * msPerMinute
  /\ getNextCheckTime new_york_2021 1 earlier
     = getNextCheckTime new_york_2021 0 earlier + 75 * msPerMinute.
Proof. vm_compute. repeat split; congruence. Qed.


(* ================================================================== *)
(** * Further properties of the code *)

Import DatabaseMore Delivery VxTwitter SchedulerLoop MoreProps MoreExamples.

(* ------------------------------------------------------------------ *)
(** * The four ways through [handleRateLimit] *)

Lemma handleRateLimit_branches (fuel : nat) (s : State) :
  exists s',
    handleRateLimit (S fuel) s = Some (true, s')
    /\ (maxRequestsPerBatch <= requestCount s ->
        remaining s' = remaining s /\ resetAt s' = resetAt s
        /\ backoffTime s' = backoffTime s /\ requestCount s' = 0
        /\ clock s' = paced_clock s + batchInterval
        /\ lastRequestTime s' = clock s')
    /\ (requestCount s < maxRequestsPerBatch -> resetAt s <= clock s ->
        remaining s' = 180 /\ resetAt s' = clock s + 900000
        /\ backoffTime s' = 0 /\ requestCount s' = 0
        /\ clock s' = paced_clock s
        /\ lastRequestTime s' = lastRequestTime s)
    /\ (requestCount s < maxRequestsPerBatch -> clock s < resetAt s ->
        remaining s <= bufferThreshold ->
        remaining s' = 180 /\ resetAt s' = clock s' + 900000
        /\ backoffTime s' = 0 /\ requestCount s' = 0
        /\ clock s' = paced_clock s + (resetAt s - clock s) + 5000
        /\ lastRequestTime s' = lastRequestTime s)
    /\ (requestCount s < maxRequestsPerBatch -> clock s < resetAt s ->
        bufferThreshold < remaining s ->
        remaining s' = remaining s /\ resetAt s' = resetAt s
        /\ backoffTime s' = backoffTime s
        /\ requestCount s' = requestCount s + 1
        /\ clock s' = paced_clock s
        /\ lastRequestTime s' = lastRequestTime s).
Proof.
  cbn [handleRateLimit].
  set (s1 := if clock s - lastRequestTime s <? minRequestInterval
             then sleep (minRequestInterval - (clock s - lastRequestTime s)) s
             else s).
  assert (H1 : remaining s1 = remaining s /\ backoffTime s1 = backoffTime s
               /\ resetAt s1 = resetAt s /\ requestCount s1 = requestCount s
               /\ lastRequestTime s1 = lastRequestTime s
               /\ lastReset s1 = lastReset s
               /\ clock s1 = paced_clock s).
  { unfold s1, paced_clock.
    destruct (Z.ltb_spec (clock s - lastRequestTime s) minRequestInterval);
      tracker_fields; lia. }
  destruct H1 as (Hr & Hb & Hreset1 & Hcount1 & Hlast1 & Hlr1 & Hc). clearbody s1.
  unfold bufferThreshold, maxRequestsPerBatch, batchInterval in *.
  destruct (Z.leb_spec 5 (requestCount s)) as [Hcap|Hcap].
  { eexists; split; [reflexivity|]. tracker_fields.
    repeat split; intros; lia. }
  destruct (Z.leb_spec (resetAt s) (clock s)) as [Hreached|Hreached].
  { eexists; split; [reflexivity|]. tracker_fields.
    repeat split; intros; lia. }
  destruct (Z.leb_spec (remaining s) 100) as [Hbuf|Hbuf].
  { eexists; split; [reflexivity|]. tracker_fields.
    repeat split; intros; lia. }
  destruct (Z.ltb_spec 0 (remaining s)) as [Hpos|Hpos]; [|lia].
  eexists; split; [reflexivity|]. tracker_fields.
  repeat split; intros; lia.
Qed.

(* ------------------------------------------------------------------ *)
(** * The invariant of the tracker *)

(** C5 (amended): along every sequence of tracker operations, started by
    the constructor, [backoffTime] is 0, which is in the set of 0 and of
    10000 doubled some number of times and capped at 300000, a set that
    backoff steps never leave; [remaining] is never negative provided the
    upstream never reports a negative count, the count being stored as
    read; and a call of the gate always returns with the backoff at 0:
    below the batch cap, once [resetAt] is reached, it refills [remaining]
    to 180, opens a window of fifteen minutes and clears the batch
    counter, and at the batch cap it leaves quota and window as they
    were. *)
Theorem C5_tracker_invariant_for_nonnegative_headers :
  forall (fuel : nat) (t0 : Z) (ops : list TrackerOp),
    exists s,
      run (S fuel) ops (constructor t0) = Some s
      /\ backoffTime s = 0
      /\ (forall n, backoff_ok (Nat.iter n nextBackoff (backoffTime s)))
      /\ (Forall upstream_conformant ops -> tracker_invariant s)
      /\ exists s',
           handleRateLimit (S fuel) s = Some (true, s')
           /\ backoffTime s' = 0
           /\ (resetAt s <= clock s -> requestCount s < maxRequestsPerBatch ->
               remaining s' = 180 /\ resetAt s' = clock s + 900000
               /\ requestCount s' = 0)
           /\ (resetAt s <= clock s -> maxRequestsPerBatch <= requestCount s ->
               remaining s' = remaining s /\ resetAt s' = resetAt s
               /\ requestCount s' = 0).
Proof.
  intros fuel t0 ops.
  destruct (run_total fuel ops (constructor t0)) as (s & Hrun & H0 & Hrem);
    [reflexivity|].
  exists s. split; [exact Hrun|]. split; [exact H0|].
  split; [intros n; apply nextBackoff_iter_ok; left; exact H0|].
  split.
  { intros Hops. split; [apply Hrem; [exact Hops|cbn; lia]|left; exact H0]. }
  destruct (handleRateLimit_branches fuel s) as (s' & Hgate & Hcap & Hreset & Hbuf & Hgo).
  exists s'. split; [exact Hgate|]. split; [|split].
  - unfold maxRequestsPerBatch, bufferThreshold in *.
    destruct (Z.le_gt_cases 5 (requestCount s)) as [H5|H5]; [specialize (Hcap H5); lia|].
    destruct (Z.le_gt_cases (resetAt s) (clock s)) as [Hr|Hr];
      [specialize (Hreset H5 Hr); lia|].
    destruct (Z.le_gt_cases (remaining s) 100) as [Hb|Hb];
      [specialize (Hbuf H5 Hr Hb); lia|].
    specialize (Hgo H5 Hr Hb). lia.
  - intros Hr H5. specialize (Hreset H5 Hr). tauto.
  - intros Hr H5. specialize (Hcap H5). tauto.
Qed.

(** C5 (counterexample): an answer whose header reports -5 requests left
    leaves the tracker with [remaining] at -5, through [recordResponse]
    and through [fetchTweets] alike. *)
Lemma C5_counterexample_negative_header :
  (exists s,
     run 1 [OpGate; OpResponse (Some (-5)) (Some 1641600900)]
         (constructor 1641600000000) = Some s
     /\ remaining s = -5 /\ ~ 0 <= remaining s)
  /\ (exists o s' db',
        fetchTweets (handleRateLimit 1)
                    (fun _ _ => ApiOk (mkResponse (Some (-5)) (Some 1641600900)
                                                  None None None))
                    alice (constructor 1641600000000) db_alice
        = Some (o, s', db')
        /\ remaining s' = -5 /\ ~ 0 <= remaining s').
Proof.
  split.
  - eexists. split; [vm_compute; reflexivity|]. split; [reflexivity|].
    cbn. lia.
  - eexists _, _, _. split; [vm_compute; reflexivity|]. split; [reflexivity|].
    cbn. lia.
Qed.

Lemma C5_witness_throttled_then_reset :
  Forall upstream_conformant
    [OpGate; OpResponse (Some 0) (Some 1641600900); OpThrottled None;
     OpWait 1000000; OpGate]
  /\ exists s,
       run 1 [OpGate; OpResponse (Some 0) (Some 1641600900); OpThrottled None;
              OpWait 1000000; OpGate] (constructor 1641600000000) = Some s
       /\ tracker_invariant s.
Proof.
  assert (H : Forall upstream_conformant
                [OpGate; OpResponse (Some 0) (Some 1641600900); OpThrottled None;
                 OpWait 1000000; OpGate]).
  { repeat constructor. cbn. lia. }
  split; [exact H|].
  destruct (C5_tracker_invariant_for_nonnegative_headers 0 1641600000000
              [OpGate; OpResponse (Some 0) (Some 1641600900); OpThrottled None;
               OpWait 1000000; OpGate])
    as (s & Hrun & _ & _ & Hinv & _).
  exists s. split; [exact Hrun|exact (Hinv H)].
Defined.

(* ------------------------------------------------------------------ *)
(** * The pacing of requests *)

(** X1: two consecutive requests of the poller are at least ten seconds
    apart: [fetchTweets] stamps its request with the clock, and that stamp
    is no less than the previous stamp plus [minRequestInterval], whatever
    the state of the quota. *)
Theorem X1_requests_spaced_by_min_interval :
  forall (fuel : nat) (api : Twitter.Api) (acct : TwitterAccount)
         (s : State) (db : Db),
    exists o s' db',
      fetchTweets (handleRateLimit (S fuel)) api acct s db = Some (o, s', db')
      /\ lastRequestTime s' = clock s'
      /\ lastRequestTime s + minRequestInterval <= lastRequestTime s'.
Proof.
  intros fuel api acct s db. unfold fetchTweets.
  destruct (handleRateLimit_branches fuel s) as (s1 & -> & Hcap & Hreset & Hbuf & Hgo).
  assert (Hclock : lastRequestTime s + minRequestInterval <= clock s1).
  { unfold paced_clock, batchInterval, bufferThreshold, maxRequestsPerBatch in *.
    destruct (Z.le_gt_cases 5 (requestCount s)) as [H5|H5]; [specialize (Hcap H5); lia|].
    destruct (Z.le_gt_cases (resetAt s) (clock s)) as [Hr|Hr];
      [specialize (Hreset H5 Hr); lia|].
    destruct (Z.le_gt_cases (remaining s) 100) as [Hb|Hb];
      [specialize (Hbuf H5 Hr Hb); lia|].
    specialize (Hgo H5 Hr). lia. }
  destruct (api _ _) as [r|status hint|].
  - destruct (negb (valid_date _));
      [eexists _, _, _; split; [reflexivity|tracker_fields; lia]|].
    destruct (data r) as [[|newest older]|];
      [eexists _, _, _; split; [reflexivity|tracker_fields; lia]| |
       eexists _, _, _; split; [reflexivity|tracker_fields; lia]].
    destruct (includes_users r);
      eexists _, _, _; (split; [reflexivity|tracker_fields; lia]).
  - destruct (status =? 429);
      eexists _, _, _; (split; [reflexivity|tracker_fields; lia]).
  - eexists _, _, _; split; [reflexivity|tracker_fields; lia].
Qed.

(** X3: below the batch cap, a gate call that finds at most 100 requests
    left does not return before [resetAt]: it returns with the quota
    refilled to 180 and the counters cleared, and, when [resetAt] was
    still ahead, no sooner than five seconds after it. *)
Theorem X3_low_quota_waits_for_reset :
  forall (fuel : nat) (s : State),
    requestCount s < maxRequestsPerBatch ->
    remaining s <= bufferThreshold ->
    exists s',
      handleRateLimit (S fuel) s = Some (true, s')
      /\ resetAt s <= clock s'
      /\ (clock s < resetAt s -> resetAt s + 5000 <= clock s')
      /\ remaining s' = 180 /\ requestCount s' = 0 /\ backoffTime s' = 0.
Proof.
  intros fuel s Hcount Hlow.
  destruct (handleRateLimit_branches fuel s) as (s' & Hrun & _ & Hreset & Hbuf & _).
  exists s'. split; [exact Hrun|].
  unfold paced_clock, minRequestInterval in *.
  destruct (Z.le_gt_cases (resetAt s) (clock s)) as [Hr|Hr].
  - specialize (Hreset Hcount Hr). repeat split; lia.
  - specialize (Hbuf Hcount Hr Hlow). repeat split; lia.
Qed.

Lemma X3_witness_after_throttle :
  requestCount (throttled_at 1641600000000) < maxRequestsPerBatch
  /\ remaining (throttled_at 1641600000000) <= bufferThreshold
  /\ exists s',
       handleRateLimit 1 (throttled_at 1641600000000) = Some (true, s')
       /\ resetAt (throttled_at 1641600000000) <= clock s'
       /\ remaining s' = 180.
Proof.
  assert (H1 : requestCount (throttled_at 1641600000000) < maxRequestsPerBatch)
    by (vm_compute; reflexivity).
  assert (H2 : remaining (throttled_at 1641600000000) <= bufferThreshold)
    by (vm_compute; discriminate).
  split; [exact H1|]. split; [exact H2|].
  destruct (X3_low_quota_waits_for_reset 0 _ H1 H2)
    as (s' & Hrun & Hclock & _ & Hrem & _).
  exists s'. split; [exact Hrun|]. split; [exact Hclock|exact Hrem].
Defined.

(** X4: at the batch cap the gate does not look at the quota.  With
    [requestCount] at 5 or more it grants after the spacing wait and one
    batch interval of 60 s, leaves [remaining] and [resetAt] as they are
    and clears only the counter; so with no request left and [resetAt]
    further away than that, it grants before the quota is back. *)
Theorem X4_batch_cap_grants_without_quota_check :
  forall (fuel : nat) (s : State),
    maxRequestsPerBatch <= requestCount s ->
    exists s',
      handleRateLimit (S fuel) s = Some (true, s')
      /\ clock s' = paced_clock s + batchInterval
      /\ remaining s' = remaining s /\ resetAt s' = resetAt s
      /\ requestCount s' = 0
      /\ (paced_clock s + batchInterval < resetAt s -> clock s' < resetAt s').
Proof.
  intros fuel s Hcap.
  destruct (handleRateLimit_branches fuel s) as (s' & Hrun & Hbatch & _).
  specialize (Hbatch Hcap). exists s'. split; [exact Hrun|].
  repeat split; try lia.
Qed.

Lemma X4_witness_capped_and_throttled :
  maxRequestsPerBatch <= requestCount (set_requestCount 5 (throttled_at 1641600000000))
  /\ exists s',
       handleRateLimit 1 (set_requestCount 5 (throttled_at 1641600000000))
       = Some (true, s')
       /\ remaining s' = 0 /\ clock s' < resetAt s'.
Proof.
  assert (H : maxRequestsPerBatch
              <= requestCount (set_requestCount 5 (throttled_at 1641600000000)))
    by (vm_compute; discriminate).
  split; [exact H|].
  destruct (X4_batch_cap_grants_without_quota_check 0 _ H)
    as (s' & Hrun & _ & Hrem & _ & _ & Hearly).
  exists s'. split; [exact Hrun|]. split.
  - rewrite Hrem. vm_compute. reflexivity.
  - apply Hearly. vm_compute. reflexivity.
Defined.

(** X5: an answer without rate-limit headers reads as no request left and
    a reset at time 0; below the batch cap the next gate call therefore
    opens a fresh window at once: 180 requests, [resetAt] fifteen minutes
    after the clock reading of the call, and no wait beyond the spacing. *)
Theorem X5_missing_headers_open_fresh_window :
  forall (fuel : nat) (s : State),
    0 <= clock s ->
    requestCount s < maxRequestsPerBatch ->
    let s0 := recordResponse None None s in
    remaining s0 = 0 /\ resetAt s0 = 0
    /\ exists s',
         handleRateLimit (S fuel) s0 = Some (true, s')
         /\ remaining s' = 180
         /\ resetAt s' = clock s + 900000
         /\ clock s' = paced_clock s.
Proof.
  intros fuel s Hclock Hcount s0.
  assert (Hs0 : remaining s0 = 0 /\ resetAt s0 = 0 /\ clock s0 = clock s
                /\ requestCount s0 = requestCount s
                /\ lastRequestTime s0 = lastRequestTime s).
  { unfold s0. tracker_fields. cbn. repeat split; reflexivity. }
  destruct Hs0 as (Hrem & Hreset & Hc & Hcnt & Hlast).
  split; [exact Hrem|]. split; [exact Hreset|].
  destruct (handleRateLimit_branches fuel s0) as (s' & Hrun & _ & Hwin & _).
  exists s'. split; [exact Hrun|].
  assert (Hc' : requestCount s0 < maxRequestsPerBatch) by lia.
  assert (Hr' : resetAt s0 <= clock s0) by lia.
  specialize (Hwin Hc' Hr'). unfold paced_clock in *.
  rewrite Hc, Hlast in Hwin. repeat split; lia.
Qed.

Lemma X5_witness_fresh_tracker :
  0 <= clock (constructor 1641600000000)
  /\ requestCount (constructor 1641600000000) < maxRequestsPerBatch
  /\ exists s',
       handleRateLimit 1 (recordResponse None None (constructor 1641600000000))
       = Some (true, s')
       /\ remaining s' = 180.
Proof.
  assert (H1 : 0 <= clock (constructor 1641600000000)) by (vm_compute; discriminate).
  assert (H2 : requestCount (constructor 1641600000000) < maxRequestsPerBatch)
    by (vm_compute; reflexivity).
  split; [exact H1|]. split; [exact H2|].
  destruct (X5_missing_headers_open_fresh_window 0 _ H1 H2)
    as (_ & _ & s' & Hrun & Hrem & _).
  exists s'. split; [exact Hrun|exact Hrem].
Defined.

(** X2: along every sequence of tracker operations, started by the
    constructor, the batch counter stays between 0 and
    [maxRequestsPerBatch]: the gate counts a granted request only below
    the cap and clears the counter at the cap. *)
Theorem X2_batch_counter_bounded :
  forall (fuel : nat) (t0 : Z) (ops : list TrackerOp),
    exists s,
      run (S fuel) ops (constructor t0) = Some s
      /\ 0 <= requestCount s <= maxRequestsPerBatch.
Proof.
  intros fuel t0 ops.
  assert (Hgen : forall s0, 0 <= requestCount s0 <= maxRequestsPerBatch ->
                   exists s, run (S fuel) ops s0 = Some s
                             /\ 0 <= requestCount s <= maxRequestsPerBatch).
  { induction ops as [|op ops IH]; intros s0 H0; [exists s0; split; [reflexivity|exact H0]|].
    cbn [run].
    assert (Hstep : exists s1, step (S fuel) op s0 = Some s1
                               /\ 0 <= requestCount s1 <= maxRequestsPerBatch).
    { destruct op as [|hRemaining hReset|hRetryAfter|d]; unfold step.
      - destruct (handleRateLimit_branches fuel s0)
          as (s1 & -> & Hcap & Hreset & Hbuf & Hgo).
        exists s1. split; [reflexivity|].
        unfold maxRequestsPerBatch, bufferThreshold in *.
        destruct (Z.le_gt_cases 5 (requestCount s0)) as [H5|H5];
          [specialize (Hcap H5); lia|].
        destruct (Z.le_gt_cases (resetAt s0) (clock s0)) as [Hr|Hr];
          [specialize (Hreset H5 Hr); lia|].
        destruct (Z.le_gt_cases (remaining s0) 100) as [Hb|Hb];
          [specialize (Hbuf H5 Hr Hb); lia|].
        specialize (Hgo H5 Hr Hb). lia.
      - eexists; split; [reflexivity|]. tracker_fields. exact H0.
      - eexists; split; [reflexivity|]. tracker_fields. exact H0.
      - eexists; split; [reflexivity|]. tracker_fields. exact H0. }
    destruct Hstep as (s1 & -> & H1). apply IH, H1. }
  apply Hgen. cbn. unfold maxRequestsPerBatch. lia.
Qed.

(* ------------------------------------------------------------------ *)
(** * The scheduler and its timer loop *)

Lemma canProcessAccounts_capped (n : Z) (s : State) :
  maxRequestsPerBatch <= requestCount s \/ 0 < backoffTime s ->
  canProcessAccounts n s = false.
Proof.
  unfold canProcessAccounts. intros [H|H].
  - destruct (0 <? backoffTime s); [reflexivity|].
    destruct (Z.leb_spec maxRequestsPerBatch (requestCount s)); [reflexivity|lia].
  - destruct (Z.ltb_spec 0 (backoffTime s)); [reflexivity|lia].
Qed.

(** An allowed pre-check: the Twitter pass returns at once, the YouTube
    pass runs, and the timer is set for [getNextCheckTime(0)]. *)
Lemma runChecks_allowed
      (zone : Zone) (gateFuel loopFuel : nat) (send : TweetData -> bool)
      (tw : Twitter.Api) (yt : YouTube.Api) (s : State) (db : Db) :
  canProcessAccounts (Z.of_nat (List.length (getAllTwitterAccounts db))) s = true ->
  let uploads := checkNewUploads yt (clock s) db in
  let t := getNextCheckTime zone 0 (clock s) in
  runChecks zone gateFuel loopFuel send tw yt s db
  = Some (Completed [] (fst uploads) t (t - clock s), s, snd uploads).
Proof.
  intros Hallow uploads t.
  unfold runChecks. rewrite Hallow. cbn [negb].
  rewrite checkNewTweets_returns_before_loop. cbn [dispatchTweets].
  fold uploads. destruct uploads as [found db1] eqn:Hup. cbn [fst snd].
  assert (Hacc : getAllTwitterAccounts db1 = getAllTwitterAccounts db).
  { unfold getAllTwitterAccounts. change db1 with (snd (found, db1)).
    rewrite <- Hup. unfold uploads, checkNewUploads.
    apply processChannels_twitter_accounts. }
  unfold findNextViableCheckTime, findNextViableCheckTime'.
  rewrite Hacc, Hallow. reflexivity.
Qed.

(** With enough fuel for the skip-ahead loop a call of [runChecks]
    returns, in a zone of constant offset. *)
Lemma runChecks_total (off : Z) (gateFuel : nat) (send : TweetData -> bool)
      (tw : Twitter.Api) (yt : YouTube.Api) (s : State) (db : Db) :
  exists (fuel0 : nat) r s1 db1,
    forall loopFuel, (fuel0 <= loopFuel)%nat ->
      runChecks (fixedZone off) gateFuel loopFuel send tw yt s db
      = Some (r, s1, db1).
Proof.
  destruct (canProcessAccounts
              (Z.of_nat (List.length (getAllTwitterAccounts db))) s) eqn:Hallow.
  - exists 0%nat. eexists _, _, _. intros loopFuel _.
    apply runChecks_allowed. exact Hallow.
  - pose (G0 := getNextCheckTime (fixedZone off) 0 (clock s)).
    pose (fuel0 := S (Z.to_nat (Math_ceil_div
                                  (resetAt s + 60000 - (G0 + 0 * gridMs)) gridMs))).
    destruct (skipAhead_first_line off (clock s) (resetAt s + 60000) fuel0 0)
      as (n & Hn & Hrun & _ & _); [lia|unfold fuel0, G0; lia|].
    exists fuel0. eexists _, s, db. intros loopFuel Hle.
    unfold runChecks, findNextViableCheckTime, findNextViableCheckTime'.
    rewrite Hallow. cbn [negb getRateLimitInfo info_resetAt].
    replace (getNextCheckTime (fixedZone off) 0 (clock s))
      with (getNextCheckTime (fixedZone off) 0 (clock s) + 0 * gridMs) at 1 by lia.
    rewrite (skipAhead_fuel_monotone _ _ _ fuel0 loopFuel _ _ _ Hrun Hle).
    reflexivity.
Qed.

Lemma same_tracker_after_sleep (d : Z) (s s' : State) :
  same_tracker (sleep d s) s' -> same_tracker s s'.
Proof. unfold same_tracker. tracker_fields. tauto. Qed.

(** X6: the timer loop of [startPolling] never changes the tracker and
    never writes a Twitter cursor.  However often the timer fires, the
    tracker keeps the quota, window, backoff and batch counter it began
    with, the account table is as it was, every firing ends by re-arming
    the timer (skipped or completed, never through the retry of the
    error handler), and no firing hands a tweet to the delivery loop.  In
    a time zone of constant offset every firing returns, given enough
    fuel for the skip-ahead loop. *)
Theorem X6_timer_loop_leaves_tracker_untouched :
  forall (gateFuel : nat) (send : TweetData -> bool)
         (tw : Twitter.Api) (yt : YouTube.Api) (n : nat),
    (forall zone loopFuel s db rs s' db',
       runLoop zone gateFuel loopFuel send tw yt n s db = Some (rs, s', db') ->
       same_tracker s s'
       /\ twitter_accounts db' = twitter_accounts db
       /\ List.length rs = n
       /\ Forall (fun r => match r with
                           | Skipped _ _ => True
                           | Completed handed _ _ _ => handed = []
                           | Retried _ _ => False
                           end) rs)
    /\ (forall off s db,
          exists fuel0 : nat,
            forall loopFuel, (fuel0 <= loopFuel)%nat ->
              exists rs s' db',
                runLoop (fixedZone off) gateFuel loopFuel send tw yt n s db
                = Some (rs, s', db')).
Proof.
  intros gateFuel send tw yt n. split.
  - induction n as [|n IH]; intros zone loopFuel s db rs s' db' Hrun.
    + cbn [runLoop] in Hrun. injection Hrun as <- <- <-.
      repeat split; constructor.
    + cbn [runLoop] in Hrun.
      destruct (runChecks zone gateFuel loopFuel send tw yt s db)
        as [[[r s1] db1]|] eqn:Hcheck; [|discriminate].
      destruct (runLoop zone gateFuel loopFuel send tw yt n
                        (sleep (delay_of r) s1) db1)
        as [[[rs0 s2] db2]|] eqn:Hloop; [|discriminate].
      injection Hrun as <- <- <-.
      destruct (runChecks_leaves_tracker_and_cursors _ _ _ _ _ _ _ _ _ _ _ Hcheck)
        as (-> & Hacc & Hr).
      destruct (IH _ _ _ _ _ _ _ Hloop) as (Hsame & Hacc2 & Hlen & Hall).
      split; [exact (same_tracker_after_sleep _ _ _ Hsame)|].
      split; [congruence|]. split; [cbn [List.length]; congruence|].
      constructor; assumption.
  - induction n as [|n IH]; intros off s db.
    + exists 0%nat. intros loopFuel _. eexists _, _, _. reflexivity.
    + destruct (runChecks_total off gateFuel send tw yt s db)
        as (fuel1 & r & s1 & db1 & Hcheck).
      destruct (IH off (sleep (delay_of r) s1) db1) as (fuel2 & Hloop).
      exists (Nat.max fuel1 fuel2). intros loopFuel Hle.
      destruct (Hloop loopFuel) as (rs & s' & db' & Hrs); [lia|].
      exists (r :: rs), s', db'. cbn [runLoop].
      rewrite (Hcheck loopFuel) by lia. rewrite Hrs. reflexivity.
Qed.

(** X7: in a time zone whose offset does not change, for every clock
    reading and every skip count, [getNextCheckTime(skipCount)] is a grid
    line (minutes 0, 15, 30 or 45, seconds and milliseconds zero), each
    skip moves it by exactly fifteen minutes, across hour and day
    boundaries, and it is never a full minute or more before the clock. *)
Theorem X7_getNextCheckTime_on_grid :
  forall (off skipCount now : Z),
    0 <= skipCount ->
    let z := fixedZone off in
    on_grid z (getNextCheckTime z skipCount now)
    /\ getMinutes z (getNextCheckTime z skipCount now) mod 15 = 0
    /\ getSeconds z (getNextCheckTime z skipCount now) = 0
    /\ getMilliseconds z (getNextCheckTime z skipCount now) = 0
    /\ getNextCheckTime z skipCount now
       = getNextCheckTime z 0 now + skipCount * (15 * msPerMinute)
    /\ now - msPerMinute < getNextCheckTime z skipCount now.
Proof.
  intros off k now Hk z. unfold z. rewrite !getNextCheckTime_closed_form by lia.
  zone_unfold.
  repeat split; Z.div_mod_to_equations; lia.
Qed.

Lemma X7_witness_end_of_day :
  0 <= 2
  /\ getNextCheckTime utc 2 (at_time utc 19000 23 50 12 345)
     = at_time utc 19001 0 30 0 0
  /\ on_grid utc (getNextCheckTime utc 2 (at_time utc 19000 23 50 12 345)).
Proof.
  assert (H : 0 <= 2) by lia.
  split; [exact H|]. split; [vm_compute; reflexivity|].
  exact (proj1 (X7_getNextCheckTime_on_grid 0 2 (at_time utc 19000 23 50 12 345) H)).
Defined.

(** X8: when the pre-check allows, [findNextViableCheckTime] skips nothing:
    it answers [getNextCheckTime(0)]; in a time zone whose offset does
    not change that is at most fifteen minutes ahead, and the delay the
    scheduler derives from it is positive exactly when the clock is not
    within a grid minute. *)
Theorem X8_next_check_when_allowed :
  forall (zone : Zone) (off : Z) (fuel : nat) (s : State) (db : Db),
    canProcessAccounts (Z.of_nat (List.length (getAllTwitterAccounts db))) s = true ->
    (findNextViableCheckTime' zone fuel s db
     = Some (getNextCheckTime zone 0 (clock s), 0)
     /\ findNextViableCheckTime zone fuel s db
        = Some (getNextCheckTime zone 0 (clock s)))
    /\ let z := fixedZone off in
       let t := getNextCheckTime z 0 (clock s) in
       clock s - msPerMinute < t <= clock s + 15 * msPerMinute
       /\ (0 < t - clock s <-> getMinutes z (clock s) mod 15 <> 0).
Proof.
  intros zone off fuel s db Hallow.
  unfold findNextViableCheckTime, findNextViableCheckTime'. rewrite Hallow.
  cbn [negb option_map fst]. split; [split; reflexivity|].
  cbv zeta.
  destruct (Z.eq_dec (getMinutes (fixedZone off) (clock s) mod 15) 0) as [Hm|Hm].
  - destruct (getNextCheckTime_on_grid_minute off _ Hm) as [HG Hle].
    split; [|split; [lia|tauto]].
    rewrite HG. revert Hm. zone_unfold.
    intros Hm. Z.div_mod_to_equations. lia.
  - destruct (getNextCheckTime_off_grid_minute off _ Hm) as [HG Hlt].
    split; [|split; [intros _; exact Hm|lia]].
    rewrite HG. zone_unfold.
    Z.div_mod_to_equations. lia.
Qed.

Lemma X8_witness_fresh_tracker :
  canProcessAccounts (Z.of_nat (List.length (getAllTwitterAccounts db_alice)))
                     (constructor (at_time utc 19000 10 15 20 0)) = true
  /\ findNextViableCheckTime utc 0 (constructor (at_time utc 19000 10 15 20 0)) db_alice
     = Some (at_time utc 19000 10 15 0 0).
Proof.
  assert (H : canProcessAccounts
                (Z.of_nat (List.length (getAllTwitterAccounts db_alice)))
                (constructor (at_time utc 19000 10 15 20 0)) = true)
    by (vm_compute; reflexivity).
  split; [exact H|].
  destruct (X8_next_check_when_allowed utc 0 0 _ db_alice H) as [[_ Hfind] _].
  rewrite Hfind. vm_compute. reflexivity.
Defined.

(* ------------------------------------------------------------------ *)
(** * The account table *)

Lemma existsb_handle_in (h : string) (rows : list TwitterAccount) :
  existsb (fun r => String.eqb (account_handle r) h) rows = true
  <-> In h (map account_handle rows).
Proof.
  rewrite existsb_exists, in_map_iff. split.
  - intros (r & Hin & Heq). apply String.eqb_eq in Heq. now exists r.
  - intros (r & Heq & Hin). exists r. split; [exact Hin|]. now apply String.eqb_eq.
Qed.

Lemma find_handle_app (h : string) (rows more : list TwitterAccount) :
  find (fun r => String.eqb (account_handle r) h) (rows ++ more)
  = match find (fun r => String.eqb (account_handle r) h) rows with
    | Some r => Some r
    | None => find (fun r => String.eqb (account_handle r) h) more
    end.
Proof.
  induction rows as [|r rows IH]; [reflexivity|]. cbn [app find].
  destruct (String.eqb (account_handle r) h); [reflexivity|exact IH].
Qed.

Lemma find_handle_none (h : string) (rows : list TwitterAccount) :
  existsb (fun r => String.eqb (account_handle r) h) rows = false ->
  find (fun r => String.eqb (account_handle r) h) rows = None.
Proof.
  induction rows as [|r rows IH]; [reflexivity|]. cbn [existsb find].
  destruct (String.eqb (account_handle r) h); [discriminate|exact IH].
Qed.

(** X9: [addTwitterAccount] is an insert-or-ignore.  A handle that is new
    gets a row without cursor; a handle that is already monitored keeps
    its row and its cursor; adding twice is adding once; the handles stay
    unique and the cursors of the other handles are not touched. *)
Theorem X9_addTwitterAccount_insert_or_ignore :
  forall (db : Db) (h : string),
    cursor_of h (addTwitterAccount h db)
    = match cursor_of h db with Some c => Some c | None => Some None end
    /\ addTwitterAccount h (addTwitterAccount h db) = addTwitterAccount h db
    /\ (cursor_of h db <> None -> addTwitterAccount h db = db)
    /\ (unique_handles db -> unique_handles (addTwitterAccount h db))
    /\ (forall h', h' <> h ->
          cursor_of h' (addTwitterAccount h db) = cursor_of h' db).
Proof.
  intros db h. unfold addTwitterAccount, cursor_of, unique_handles.
  destruct (existsb (fun r => String.eqb (account_handle r) h) (twitter_accounts db))
    eqn:Hex.
  - assert (Hfound : exists r, find (fun r => String.eqb (account_handle r) h)
                                    (twitter_accounts db) = Some r).
    { apply existsb_exists in Hex as (r & Hin & Heq).
      destruct (find _ (twitter_accounts db)) eqn:Hf; [eauto|].
      eapply find_none in Hf; [|exact Hin]. cbn in Hf. congruence. }
    destruct Hfound as (r & Hr). rewrite Hr, Hex. cbn [option_map].
    repeat split; auto.
  - pose proof (find_handle_none h _ Hex) as Hnone.
    unfold set_twitter_accounts. cbn [twitter_accounts].
    rewrite Hnone. cbn [option_map]. split; [|split; [|split; [|split]]].
    + rewrite find_handle_app, Hnone. cbn. now rewrite String.eqb_refl.
    + rewrite existsb_app. cbn [existsb account_handle].
      rewrite String.eqb_refl, orb_true_r. reflexivity.
    + intros H. now contradiction H.
    + intros Hnd. rewrite map_app. cbn [map account_handle].
      apply NoDup_app; [exact Hnd|repeat constructor; intros []|].
      intros x Hx [<-|[]]. apply existsb_handle_in in Hx. congruence.
    + intros h' Hne. rewrite find_handle_app. cbn [find account_handle].
      destruct (String.eqb_spec h h'); [congruence|].
      destruct (find (fun r => String.eqb (account_handle r) h')
                     (twitter_accounts db)); reflexivity.
Qed.

Lemma find_handle_filter_other (h h' : string) (rows : list TwitterAccount) :
  h' <> h ->
  find (fun r => String.eqb (account_handle r) h')
       (filter (fun r => negb (String.eqb (account_handle r) h)) rows)
  = find (fun r => String.eqb (account_handle r) h') rows.
Proof.
  intros Hne. induction rows as [|r rows IH]; [reflexivity|]. cbn [filter find].
  destruct (String.eqb_spec (account_handle r) h) as [Heq|Hneq]; cbn [negb].
  - destruct (String.eqb_spec (account_handle r) h'); [congruence|exact IH].
  - cbn [find]. destruct (String.eqb (account_handle r) h'); [reflexivity|exact IH].
Qed.

Lemma filter_out_absent (h : string) (rows : list TwitterAccount) :
  existsb (fun r => String.eqb (account_handle r) h) rows = false ->
  filter (fun r => negb (String.eqb (account_handle r) h)) rows = rows.
Proof.
  induction rows as [|r rows IH]; [reflexivity|]. cbn [existsb filter].
  destruct (String.eqb (account_handle r) h); [discriminate|].
  cbn [orb negb]. intros H. now rewrite IH.
Qed.

(** X10: [removeTwitterAccount] deletes the row of the handle and nothing
    else: afterwards the handle has no cursor, the other handles keep
    theirs, a handle that was not monitored leaves the table as it was,
    and removing a handle that was added to a table without it gives the
    table back. *)
Theorem X10_removeTwitterAccount_deletes_only_that_row :
  forall (db : Db) (h : string),
    cursor_of h (removeTwitterAccount h db) = None
    /\ (forall h', h' <> h ->
          cursor_of h' (removeTwitterAccount h db) = cursor_of h' db)
    /\ (cursor_of h db = None -> removeTwitterAccount h db = db)
    /\ (cursor_of h db = None ->
          removeTwitterAccount h (addTwitterAccount h db) = db)
    /\ (unique_handles db -> unique_handles (removeTwitterAccount h db)).
Proof.
  intros db h. unfold removeTwitterAccount, cursor_of, set_twitter_accounts.
  cbn [twitter_accounts].
  assert (Habsent : option_map last_tweet_id
                      (find (fun r => String.eqb (account_handle r) h)
                            (twitter_accounts db)) = None ->
                    existsb (fun r => String.eqb (account_handle r) h)
                            (twitter_accounts db) = false).
  { intros Hnone.
    destruct (existsb _ (twitter_accounts db)) eqn:Hex; [|reflexivity].
    apply existsb_exists in Hex as (r & Hin & Heq).
    destruct (find _ (twitter_accounts db)) eqn:Hf; [discriminate|].
    eapply find_none in Hf; [|exact Hin]. cbn in Hf. congruence. }
  split; [|split; [|split; [|split]]].
  - destruct (find _ (filter _ _)) as [r|] eqn:Hf; [|reflexivity].
    apply find_some in Hf as [Hin Heq]. apply filter_In in Hin as [_ Hneg].
    rewrite Heq in Hneg. discriminate.
  - intros h' Hne. now rewrite find_handle_filter_other.
  - intros Hnone. rewrite filter_out_absent by auto. now destruct db.
  - intros Hnone. specialize (Habsent Hnone). unfold addTwitterAccount.
    rewrite Habsent. unfold set_twitter_accounts. cbn [twitter_accounts
      youtube_channels discord_channels].
    rewrite filter_app, filter_out_absent by exact Habsent.
    cbn [filter account_handle]. rewrite String.eqb_refl. cbn [negb].
    rewrite app_nil_r. now destruct db.
  - unfold unique_handles. cbn [twitter_accounts]. intros Hnd. clear Habsent.
    induction (twitter_accounts db) as [|r rows IH]; [constructor|].
    inversion Hnd as [|? ? Hnotin Hrest]; subst. cbn [filter].
    destruct (negb _); [|exact (IH Hrest)].
    cbn [map]. constructor; [|exact (IH Hrest)].
    intros Hin. apply Hnotin. apply in_map_iff in Hin as (r' & Heq & Hin).
    apply filter_In in Hin as [Hin _]. apply in_map_iff. now exists r'.
Qed.

Lemma X10_witness_add_then_remove :
  cursor_of "carol" db_alice = None
  /\ removeTwitterAccount "carol" (addTwitterAccount "carol" db_alice) = db_alice.
Proof.
  assert (H : cursor_of "carol" db_alice = None) by reflexivity.
  split; [exact H|].
  destruct (X10_removeTwitterAccount_deletes_only_that_row db_alice "carol")
    as (_ & _ & _ & Hback & _).
  exact (Hback H).
Defined.

(** X11: [updateLastTweetId] is an UPDATE: for a handle without row it
    changes nothing (no row is created); it never changes the set of
    handles; it sets the cursor of the handle's row, leaves the cursors of
    the other handles alone, and a second write replaces the first. *)
Theorem X11_updateLastTweetId_update_only :
  forall (db : Db) (h id1 id2 : string),
    (cursor_of h db = None -> updateLastTweetId h id1 db = db)
    /\ map account_handle (twitter_accounts (updateLastTweetId h id1 db))
       = map account_handle (twitter_accounts db)
    /\ (cursor_of h db <> None ->
          cursor_of h (updateLastTweetId h id1 db) = Some (Some id1))
    /\ (forall h', h' <> h ->
          cursor_of h' (updateLastTweetId h id1 db) = cursor_of h' db)
    /\ updateLastTweetId h id2 (updateLastTweetId h id1 db)
       = updateLastTweetId h id2 db.
Proof.
  intros db h id1 id2. split; [|split; [|split; [|split]]].
  - unfold cursor_of, updateLastTweetId, set_twitter_accounts. intros Hnone.
    assert (Hmap : map (fun r => if String.eqb (account_handle r) h
                                 then mkTwitterAccount (account_handle r) (Some id1)
                                 else r) (twitter_accounts db)
                   = twitter_accounts db).
    { induction (twitter_accounts db) as [|r rows IH]; [reflexivity|].
      cbn [find] in Hnone. cbn [map].
      destruct (String.eqb (account_handle r) h); [discriminate|].
      now rewrite IH. }
    rewrite Hmap. now destruct db.
  - unfold updateLastTweetId, set_twitter_accounts. cbn [twitter_accounts].
    rewrite map_map. apply map_ext. intros r.
    destruct (String.eqb (account_handle r) h); reflexivity.
  - intros Hrow. rewrite cursor_of_update.
    destruct (cursor_of h db); [|contradiction]. now rewrite String.eqb_refl.
  - intros h' Hne. rewrite cursor_of_update.
    destruct (cursor_of h' db); [|reflexivity].
    destruct (String.eqb_spec h' h); [contradiction|reflexivity].
  - unfold updateLastTweetId, set_twitter_accounts.
    cbn [twitter_accounts youtube_channels discord_channels]. f_equal.
    rewrite map_map. apply map_ext. intros r.
    destruct (String.eqb (account_handle r) h) eqn:Heq; cbn [account_handle];
      rewrite Heq; reflexivity.
Qed.

Lemma X11_witness_unknown_handle :
  cursor_of "nobody" db_alice = None
  /\ updateLastTweetId "nobody" "42" db_alice = db_alice.
Proof.
  assert (H : cursor_of "nobody" db_alice = None) by reflexivity.
  split; [exact H|].
  exact (proj1 (X11_updateLastTweetId_update_only db_alice "nobody" "42" "43") H).
Defined.

(* ------------------------------------------------------------------ *)
(** * The destination table, read back *)

Lemma find_upsert_guild (g : string) (tw yt : option string)
      (rows : list DiscordChannels) :
  exists row,
    find (fun r => String.eqb (guild_id r) g) (upsert_guild g tw yt rows) = Some row
    /\ guild_id row = g /\ twitter_channel_id row = tw /\ youtube_channel_id row = yt.
Proof.
  induction rows as [|r rows IH]; cbn [upsert_guild].
  - eexists. cbn [find guild_id]. rewrite String.eqb_refl. repeat split.
  - destruct (String.eqb_spec (guild_id r) g) as [Heq|Hne].
    + eexists. cbn [find guild_id].
      destruct (String.eqb_spec (guild_id r) g); [|contradiction].
      repeat split. exact Heq.
    + cbn [find]. destruct (String.eqb_spec (guild_id r) g); [contradiction|].
      exact IH.
Qed.

Lemma find_upsert_guild_other (g g' : string) (tw yt : option string)
      (rows : list DiscordChannels) :
  g' <> g ->
  find (fun r => String.eqb (guild_id r) g') (upsert_guild g tw yt rows)
  = find (fun r => String.eqb (guild_id r) g') rows.
Proof.
  intros Hne. induction rows as [|r rows IH]; cbn [upsert_guild].
  - cbn. destruct (String.eqb_spec g g'); [congruence|reflexivity].
  - destruct (String.eqb_spec (guild_id r) g) as [Heq|Hneq].
    + cbn [find guild_id].
      destruct (String.eqb_spec (guild_id r) g'); [congruence|reflexivity].
    + cbn [find]. now rewrite IH.
Qed.

(** X12: what [setGuildChannels] writes, [getGuildChannels] reads back,
    on any table: the row found for the guild carries the two channel ids
    just written; the answers for the other guilds are as before; and the
    two other tables are left alone. *)
Theorem X12_setGuildChannels_then_getGuildChannels :
  forall (db : Db) (g tw yt : string),
    g <> EmptyString ->
    let db' := setGuildChannels g tw yt db in
    (exists row,
       getGuildChannels g db' = Some (Some row)
       /\ guild_id row = g
       /\ twitter_channel_id row = Some tw
       /\ youtube_channel_id row = Some yt)
    /\ (forall g', g' <> g -> getGuildChannels g' db' = getGuildChannels g' db)
    /\ twitter_accounts db' = twitter_accounts db
    /\ youtube_channels db' = youtube_channels db.
Proof.
  intros db g tw yt Hg db'. unfold db', getGuildChannels, setGuildChannels,
    set_discord_channels.
  cbn [discord_channels twitter_accounts youtube_channels].
  destruct (find_upsert_guild g (Some tw) (Some yt) (discord_channels db))
    as (row & Hfind & Hid & Htw & Hyt).
  split; [|split; [|split; reflexivity]].
  - exists row. destruct (String.eqb_spec g EmptyString); [contradiction|].
    rewrite Hfind. auto.
  - intros g' Hne. destruct (String.eqb g' EmptyString); [reflexivity|].
    now rewrite find_upsert_guild_other.
Qed.

Lemma X12_witness_new_guild :
  "guild-2"%string <> EmptyString
  /\ exists row,
       getGuildChannels "guild-2" (setGuildChannels "guild-2" "t" "y" db_alice)
       = Some (Some row)
       /\ twitter_channel_id row = Some "t"%string.
Proof.
  assert (H : "guild-2"%string <> EmptyString) by discriminate.
  split; [exact H|].
  destruct (X12_setGuildChannels_then_getGuildChannels db_alice "guild-2" "t" "y" H)
    as ((row & Hget & _ & Htw & _) & _).
  exists row. split; [exact Hget|exact Htw].
Defined.

(* ------------------------------------------------------------------ *)
(** * The /youtube command beyond the channel lookup *)

(** X13: a channel that the upstream knows is still refused by [add] when
    its uploads list is empty or cannot be read, or when the details of
    its videos cannot be read: the store stays as it was and the requester
    gets the not-found text. *)
Theorem X13_add_refuses_channel_without_readable_uploads :
  forall (api : YouTube.Api) (channelId : string) (db : Db)
         (channel : ChannelInfo) (others : list ChannelInfo),
    get_channels api channelId = Items (channel :: others) ->
    (get_playlistItems api (uploads channel) = Items []
     \/ get_playlistItems api (uploads channel) = Failed
     \/ exists ids, get_playlistItems api (uploads channel) = Items ids
                    /\ get_videos api ids = Failed) ->
    execute_add api channelId db = (db, reply_not_found).
Proof.
  intros api channelId db channel others Hch H.
  unfold execute_add, fetchLatestVideos. rewrite Hch.
  destruct H as [-> | [-> | (ids & -> & Hv)]]; try reflexivity.
  destruct ids as [|v vs]; [reflexivity|]. now rewrite Hv.
Qed.

Lemma X13_witness_channel_without_uploads :
  let api := mkApi (fun _ => Items [mkChannelInfo "UC1" "Empty Channel" "UU1"])
                   (fun _ => Items []) (fun _ => Items []) in
  execute_add api "UC1" db_alice = (db_alice, reply_not_found).
Proof.
  intros api.
  apply (X13_add_refuses_channel_without_readable_uploads api "UC1" db_alice
           (mkChannelInfo "UC1" "Empty Channel" "UU1") []);
    [reflexivity|left; reflexivity].
Defined.

Lemma monitored_find (c : string) (db : Db) :
  monitored c db = false
  <-> find (fun r => String.eqb (channel_id r) c) (youtube_channels db) = None.
Proof.
  unfold monitored. induction (youtube_channels db) as [|r rows IH];
    [cbn; tauto|].
  cbn [existsb find]. destruct (String.eqb (channel_id r) c); cbn [orb].
  - split; discriminate.
  - exact IH.
Qed.

Lemma filter_out_unmonitored (c : string) (rows : list YoutubeChannel) :
  existsb (fun r => String.eqb (channel_id r) c) rows = false ->
  filter (fun r => negb (String.eqb (channel_id r) c)) rows = rows.
Proof.
  induction rows as [|r rows IH]; [reflexivity|]. cbn [existsb filter].
  destruct (String.eqb (channel_id r) c); [discriminate|].
  cbn [orb negb]. intros H. now rewrite IH.
Qed.

(** X14: for a channel that passes the lookup, [add] makes it monitored
    and is an insert-or-ignore: a channel already monitored keeps its row
    (and its video cursor), adding again changes nothing, the channel ids
    stay unique, and [remove] after an [add] that inserted gives the store
    back. *)
Theorem X14_add_is_insert_or_ignore :
  forall (api : YouTube.Api) (channelId : string) (db : Db),
    fetchLatestVideos api channelId <> None ->
    let db1 := fst (execute_add api channelId db) in
    monitored channelId db1 = true
    /\ fst (execute_add api channelId db1) = db1
    /\ (monitored channelId db = true -> db1 = db)
    /\ (monitored channelId db = false ->
          video_cursor_of channelId db1 = Some None
          /\ fst (YoutubeCommandMore.execute_remove channelId db1) = db)
    /\ (unique_channels db -> unique_channels db1).
Proof.
  intros api channelId db Hok db1. unfold db1, execute_add.
  destruct (fetchLatestVideos api channelId) as [[channel videos]|];
    [|contradiction]. cbn [fst].
  fold (monitored channelId db).
  unfold addTwitterAccount, addYoutubeChannel. fold (monitored channelId db).
  destruct (monitored channelId db) eqn:Hm.
  - fold (monitored channelId db). rewrite Hm.
    repeat split; auto; discriminate.
  - assert (Hm1 : monitored channelId
                    (set_youtube_channels
                       (youtube_channels db ++ [mkYoutubeChannel channelId None]) db)
                  = true).
    { unfold monitored, set_youtube_channels. cbn [youtube_channels].
      rewrite existsb_app. cbn. now rewrite String.eqb_refl, orb_true_r. }
    fold (monitored channelId
            (set_youtube_channels
               (youtube_channels db ++ [mkYoutubeChannel channelId None]) db)).
    rewrite Hm1. split; [reflexivity|]. split; [reflexivity|].
    split; [discriminate|]. split; [intros _; split|].
    + unfold video_cursor_of, set_youtube_channels. cbn [youtube_channels].
      apply monitored_find in Hm. clear Hm1.
      induction (youtube_channels db) as [|r rows IH].
      * cbn. now rewrite String.eqb_refl.
      * cbn [app find] in *.
        destruct (String.eqb (channel_id r) channelId); [discriminate|].
        exact (IH Hm).
    + unfold YoutubeCommandMore.execute_remove, removeYoutubeChannel,
        set_youtube_channels.
      cbn [fst youtube_channels twitter_accounts discord_channels].
      rewrite filter_app, filter_out_unmonitored by exact Hm.
      cbn [filter channel_id]. rewrite String.eqb_refl. cbn [negb].
      rewrite app_nil_r. now destruct db.
    + unfold unique_channels, set_youtube_channels. cbn [youtube_channels].
      intros Hnd. rewrite map_app. cbn [map channel_id].
      apply NoDup_app; [exact Hnd|repeat constructor; intros []|].
      intros x Hx [<-|[]]. apply in_map_iff in Hx as (r & Heq & Hin).
      assert (monitored channelId db = true); [|congruence].
      apply existsb_exists. exists r. split; [exact Hin|].
      now apply String.eqb_eq.
Qed.

Lemma X14_witness_add_then_remove :
  fetchLatestVideos yt_known "UC1" <> None
  /\ monitored "UC1" (fst (YoutubeCommand.execute_add yt_known "UC1" db_alice)) = true
  /\ fst (YoutubeCommandMore.execute_remove "UC1"
            (fst (YoutubeCommand.execute_add yt_known "UC1" db_alice)))
     = db_alice.
Proof.
  assert (H : fetchLatestVideos yt_known "UC1" <> None) by (vm_compute; discriminate).
  split; [exact H|].
  destruct (X14_add_is_insert_or_ignore yt_known "UC1" db_alice H)
    as (Hmon & _ & _ & Hnew & _).
  split; [exact Hmon|]. apply Hnew. reflexivity.
Defined.

(** X15: [remove] asks nothing of the upstream: afterwards the channel is
    not monitored, the rows of the other channels are as before, and for a
    channel that was not monitored the store is unchanged while the reply
    is the same confirmation. *)
Theorem X15_remove_needs_no_lookup :
  forall (channelId : string) (db : Db),
    let db' := fst (YoutubeCommandMore.execute_remove channelId db) in
    monitored channelId db' = false
    /\ video_cursor_of channelId db' = None
    /\ (forall c, c <> channelId -> video_cursor_of c db' = video_cursor_of c db)
    /\ (monitored channelId db = false -> db' = db)
    /\ snd (YoutubeCommandMore.execute_remove channelId db)
       = ("Stopped monitoring YouTube channel with ID: " ++ channelId)%string
    /\ twitter_accounts db' = twitter_accounts db
    /\ discord_channels db' = discord_channels db.
Proof.
  intros channelId db db'. unfold db', YoutubeCommandMore.execute_remove,
    removeYoutubeChannel, set_youtube_channels. cbn [fst snd].
  assert (Hgone : monitored channelId
                    {| twitter_accounts := twitter_accounts db;
                       youtube_channels :=
                         filter (fun r => negb (String.eqb (channel_id r) channelId))
                                (youtube_channels db);
                       discord_channels := discord_channels db |} = false).
  { unfold monitored. cbn [youtube_channels].
    induction (youtube_channels db) as [|r rows IH]; [reflexivity|].
    cbn [filter]. destruct (String.eqb (channel_id r) channelId) eqn:Heq;
      cbn [negb]; [exact IH|].
    cbn [existsb]. now rewrite Heq, IH. }
  split; [exact Hgone|]. split; [|split; [|split; [|repeat split]]].
  - apply monitored_find in Hgone. unfold video_cursor_of. now rewrite Hgone.
  - intros c Hne. unfold video_cursor_of. cbn [youtube_channels]. f_equal.
    clear Hgone.
    induction (youtube_channels db) as [|r rows IH]; [reflexivity|].
    cbn [filter find].
    destruct (String.eqb_spec (channel_id r) channelId) as [Heq|Hneq]; cbn [negb].
    + destruct (String.eqb_spec (channel_id r) c); [congruence|exact IH].
    + cbn [find]. destruct (String.eqb (channel_id r) c); [reflexivity|exact IH].
  - intros Hm. unfold monitored in Hm.
    rewrite filter_out_unmonitored by exact Hm. now destruct db.
Qed.

(* ------------------------------------------------------------------ *)
(** * Lists of monitored entities *)

Lemma contains_refl (s : string) : contains s s.
Proof.
  exists EmptyString, EmptyString. cbn.
  induction s as [|c s IH]; [reflexivity|]. cbn. now rewrite <- IH.
Qed.

Lemma string_app_assoc (a b c : string) :
  ((a ++ b) ++ c = a ++ (b ++ c))%string.
Proof. induction a as [|x a IH]; [reflexivity|]. cbn. now rewrite IH. Qed.

Lemma contains_app_l (sub s t : string) :
  contains sub s -> contains sub (s ++ t)%string.
Proof.
  intros (b & a & ->). exists b, (a ++ t)%string.
  now rewrite !string_app_assoc.
Qed.

Lemma contains_app_r (sub s t : string) :
  contains sub t -> contains sub (s ++ t)%string.
Proof.
  intros (b & a & ->). exists (s ++ b)%string, a.
  now rewrite !string_app_assoc.
Qed.

Lemma contains_concat (sep x : string) (l : list string) (sub : string) :
  In x l -> contains sub x -> contains sub (String.concat sep l).
Proof.
  intros Hin Hsub. induction l as [|y l IH]; [contradiction|].
  destruct l as [|z l].
  - destruct Hin as [->|[]]. exact Hsub.
  - change (String.concat sep (y :: z :: l))
      with (y ++ sep ++ String.concat sep (z :: l))%string.
    destruct Hin as [->|Hin].
    + now apply contains_app_l.
    + apply contains_app_r, contains_app_r, IH, Hin.
Qed.

(** X16: the answer of [/youtube list] names every monitored channel: on
    an empty table it is the fixed no-channels text, and otherwise the id
    of each row occurs in it, also for a channel whose upstream lookup
    fails, which is listed as unavailable. *)
Theorem X16_youtube_list_names_every_channel :
  forall (api : YouTube.Api) (db : Db),
    (getAllYoutubeChannels db = [] ->
       YoutubeCommandMore.execute_list api db
       = "No YouTube channels are being monitored."%string)
    /\ (forall ch, In ch (getAllYoutubeChannels db) ->
          contains (channel_id ch) (YoutubeCommandMore.execute_list api db)
          /\ (fetchLatestVideos api (channel_id ch) = None ->
              contains (channel_id ch ++ " (channel info unavailable)")
                       (YoutubeCommandMore.execute_list api db))
          /\ (forall info videos,
                fetchLatestVideos api (channel_id ch) = Some (info, videos) ->
                contains (yt_title info) (YoutubeCommandMore.execute_list api db))).
Proof.
  intros api db. unfold YoutubeCommandMore.execute_list. split.
  - intros ->. reflexivity.
  - intros ch Hin.
    destruct (getAllYoutubeChannels db) as [|c0 cs] eqn:Hchs; [contradiction|].
    rewrite <- Hchs in *. clear Hchs c0 cs.
    assert (Hline : forall sub,
              contains sub (YoutubeCommandMore.list_line api ch) ->
              contains sub
                ("**Monitored YouTube Channels:**" ++ YoutubeCommandMore.newline
                 ++ String.concat YoutubeCommandMore.newline
                      (map (YoutubeCommandMore.list_line api)
                           (getAllYoutubeChannels db)))%string).
    { intros sub Hsub. apply contains_app_r, contains_app_r.
      eapply contains_concat; [apply in_map, Hin|exact Hsub]. }
    unfold YoutubeCommandMore.list_line in Hline.
    split; [|split].
    + apply Hline.
      destruct (fetchLatestVideos api (channel_id ch)) as [[info videos]|].
      * do 5 apply contains_app_r. apply contains_refl.
      * apply contains_app_r, contains_app_r, contains_app_l, contains_refl.
    + intros Hnone. apply Hline. rewrite Hnone.
      apply contains_app_r, contains_app_r.
      exists EmptyString, EmptyString. cbn.
      clear. induction (channel_id ch) as [|c s IH]; [reflexivity|].
      cbn. now rewrite <- IH.
    + intros info videos Hsome. apply Hline. rewrite Hsome.
      apply contains_app_r, contains_app_r, contains_app_l, contains_refl.
Qed.

(* ------------------------------------------------------------------ *)
(** * The /twitter command *)

Lemma addTwitterAccount_monitored (h : string) (db : Db) :
  existsb (fun r => String.eqb (account_handle r) h)
          (twitter_accounts (addTwitterAccount h db)) = true.
Proof.
  unfold addTwitterAccount.
  destruct (existsb _ (twitter_accounts db)) eqn:Hex; [exact Hex|].
  unfold set_twitter_accounts. cbn [twitter_accounts].
  rewrite existsb_app. cbn. now rewrite String.eqb_refl, orb_true_r.
Qed.

Lemma monitored_handle_has_cursor (h : string) (db : Db) :
  existsb (fun r => String.eqb (account_handle r) h) (twitter_accounts db) = true ->
  cursor_of h db <> None.
Proof.
  intros Hex. apply existsb_exists in Hex as (r & Hin & Heq).
  unfold cursor_of. destruct (find _ _) eqn:Hf; [discriminate|].
  eapply find_none in Hf; [|exact Hin]. cbn in Hf. congruence.
Qed.

Lemma lower_char_not_upper (c : Ascii.ascii) :
  TwitterCommand.is_upper (TwitterCommand.lower_char c) = false.
Proof. destruct c as [[] [] [] [] [] [] [] []]; reflexivity. Qed.

Lemma lower_char_idem (c : Ascii.ascii) :
  TwitterCommand.lower_char (TwitterCommand.lower_char c) = TwitterCommand.lower_char c.
Proof. destruct c as [[] [] [] [] [] [] [] []]; reflexivity. Qed.

Lemma toLowerCase_ascii_no_upper (u : string) :
  TwitterCommand.has_upper (TwitterCommand.toLowerCase_ascii u) = false.
Proof.
  induction u as [|c u IH]; [reflexivity|].
  cbn [TwitterCommand.toLowerCase_ascii TwitterCommand.has_upper].
  now rewrite lower_char_not_upper, IH.
Qed.

Lemma toLowerCase_ascii_idem (u : string) :
  TwitterCommand.toLowerCase_ascii (TwitterCommand.toLowerCase_ascii u)
  = TwitterCommand.toLowerCase_ascii u.
Proof.
  induction u as [|c u IH]; [reflexivity|].
  cbn [TwitterCommand.toLowerCase_ascii]. now rewrite lower_char_idem, IH.
Qed.

(** X17: the /twitter command addresses the account table by the
    lower-cased handle only.  After [add] the lower-cased handle is
    monitored and named in the reply; a later [add] with any spelling that
    lower-cases to the same handle changes nothing, and a [remove] with
    such a spelling removes that row. *)
Theorem X17_twitter_command_lower_cases_handles :
  forall (toLowerCase : string -> string) (db : Db) (u : string),
    let h := toLowerCase u in
    let db1 := fst (TwitterCommand.execute_add toLowerCase u db) in
    cursor_of h db1 <> None
    /\ snd (TwitterCommand.execute_add toLowerCase u db)
       = ("Now monitoring Twitter account: @" ++ h)%string
    /\ (forall h', h' <> h -> cursor_of h' db1 = cursor_of h' db)
    /\ (forall u2, toLowerCase u2 = h ->
          fst (TwitterCommand.execute_add toLowerCase u2 db1) = db1
          /\ cursor_of h (fst (TwitterCommand.execute_remove toLowerCase u2 db1))
             = None).
Proof.
  intros toLowerCase db u h db1. unfold db1, TwitterCommand.execute_add.
  cbn [fst snd]. fold h.
  pose proof (addTwitterAccount_monitored h db) as Hmon.
  split; [apply monitored_handle_has_cursor, Hmon|]. split; [reflexivity|].
  split.
  - intros h' Hne. unfold addTwitterAccount, cursor_of.
    destruct (existsb _ (twitter_accounts db)); [reflexivity|].
    unfold set_twitter_accounts. cbn [twitter_accounts].
    rewrite find_handle_app. cbn [find account_handle].
    destruct (String.eqb_spec h h'); [congruence|].
    destruct (find (fun r => String.eqb (account_handle r) h')
                   (twitter_accounts db)); reflexivity.
  - intros u2 Hu2. unfold TwitterCommand.execute_remove. cbn [fst]. rewrite Hu2.
    split.
    + unfold addTwitterAccount at 1. now rewrite Hmon.
    + unfold removeTwitterAccount, cursor_of, set_twitter_accounts.
      cbn [twitter_accounts].
      destruct (find _ (filter _ _)) as [r|] eqn:Hf; [|reflexivity].
      apply find_some in Hf as [Hin Heq]. apply filter_In in Hin as [_ Hneg].
      rewrite Heq in Hneg. discriminate.
Qed.

Example twitter_add_two_spellings :
  let db1 := fst (TwitterCommand.execute_add TwitterCommand.toLowerCase_ascii
                    "Alice_99" (mkDb [] [] [])) in
  twitter_accounts db1 = [mkTwitterAccount "alice_99" None]
  /\ fst (TwitterCommand.execute_add TwitterCommand.toLowerCase_ascii "ALICE_99" db1)
     = db1
  /\ fst (TwitterCommand.execute_remove TwitterCommand.toLowerCase_ascii "aLiCe_99" db1)
     = mkDb [] [] [].
Proof. repeat split. Qed.

(* ------------------------------------------------------------------ *)
(** * The /setup command *)

Section SetupProperties.
Variable mention : SetupCommand.ChannelOption -> string.

Lemma missingPerms_nil_iff (tw yt : SetupCommand.ChannelOption) :
  SetupCommand.missingPerms mention tw yt = []
  <-> (forall p, In p SetupCommand.requiredPermissions ->
         SetupCommand.lacks tw p = false /\ SetupCommand.lacks yt p = false).
Proof.
  unfold SetupCommand.missingPerms, SetupCommand.requiredPermissions,
    SetupCommand.missingFor. cbn [flat_map].
  split.
  - intros Hnil p Hp.
    destruct (SetupCommand.lacks tw "ViewChannel") eqn:H1; [discriminate|].
    destruct (SetupCommand.lacks yt "ViewChannel") eqn:H2; [discriminate|].
    destruct (SetupCommand.lacks tw "SendMessages") eqn:H3; [discriminate|].
    destruct (SetupCommand.lacks yt "SendMessages") eqn:H4; [discriminate|].
    destruct (SetupCommand.lacks tw "EmbedLinks") eqn:H5; [discriminate|].
    destruct (SetupCommand.lacks yt "EmbedLinks") eqn:H6; [discriminate|].
    destruct Hp as [<-|[<-|[<-|[]]]]; auto.
  - intros Hall.
    destruct (Hall "ViewChannel"%string) as [-> ->]; [cbn; auto|].
    destruct (Hall "SendMessages"%string) as [-> ->]; [cbn; auto|].
    destruct (Hall "EmbedLinks"%string) as [-> ->]; [cbn; auto|].
    reflexivity.
Qed.

(** X18: [/setup] writes the destination row only when the bot holds all
    of ViewChannel, SendMessages and EmbedLinks in both channels.  With a
    permission missing (or no permissions to be read) the store is left as
    it was and the reply lists what is missing; with all six present and a
    guild id the row is written and the command succeeds.  The two checks
    that read the row back never fail: the command ends in one of the
    permission reply, the success reply and the guild-id error. *)
Theorem X18_setup_requires_permissions_then_writes :
  forall (guildId : string) (tw yt : SetupCommand.ChannelOption) (db : Db),
    let db' := fst (SetupCommand.execute mention guildId tw yt db) in
    let out := snd (SetupCommand.execute mention guildId tw yt db) in
    ((exists p, In p SetupCommand.requiredPermissions
                /\ (SetupCommand.lacks tw p = true \/ SetupCommand.lacks yt p = true)) ->
       db' = db /\ exists content, out = SetupCommand.NeedPermissions content)
    /\ ((forall p, In p SetupCommand.requiredPermissions ->
           SetupCommand.lacks tw p = false /\ SetupCommand.lacks yt p = false) ->
        guildId <> EmptyString ->
        out = SetupCommand.Configured
        /\ db' = setGuildChannels guildId (SetupCommand.opt_id tw)
                                  (SetupCommand.opt_id yt) db)
    /\ ((exists content, out = SetupCommand.NeedPermissions content)
        \/ out = SetupCommand.Configured
        \/ (out = SetupCommand.Thrown "Guild ID is required" /\ db' = db)).
Proof.
  intros guildId tw yt db db' out.
  assert (Hwritten :
            SetupCommand.missingPerms mention tw yt = [] ->
            guildId <> EmptyString ->
            SetupCommand.execute mention guildId tw yt db
            = (setGuildChannels guildId (SetupCommand.opt_id tw)
                                (SetupCommand.opt_id yt) db,
               SetupCommand.Configured)).
  { intros Hnil Hg. unfold SetupCommand.execute. rewrite Hnil.
    unfold getGuildChannels at 1.
    destruct (String.eqb_spec guildId EmptyString); [contradiction|].
    unfold getGuildChannels, setGuildChannels, set_discord_channels.
    cbn [discord_channels].
    destruct (String.eqb_spec guildId EmptyString); [contradiction|].
    destruct (find_upsert_guild guildId (Some (SetupCommand.opt_id tw))
                (Some (SetupCommand.opt_id yt)) (discord_channels db))
      as (row & -> & _ & -> & ->).
    now rewrite !String.eqb_refl. }
  split; [|split].
  - intros (p & Hp & Hlack). unfold db', out, SetupCommand.execute.
    destruct (SetupCommand.missingPerms mention tw yt) as [|m ms] eqn:Hm.
    + destruct (proj1 (missingPerms_nil_iff tw yt) Hm p Hp) as [H1 H2].
      destruct Hlack; congruence.
    + cbn [fst snd]. split; [reflexivity|eexists; reflexivity].
  - intros Hall Hg. unfold db', out.
    rewrite Hwritten; [split; reflexivity| |exact Hg].
    apply missingPerms_nil_iff, Hall.
  - unfold db', out.
    destruct (SetupCommand.missingPerms mention tw yt) as [|m ms] eqn:Hm.
    + destruct (String.eqb_spec guildId EmptyString) as [->|Hg].
      * right. right. unfold SetupCommand.execute. rewrite Hm. cbn. auto.
      * right. left. now rewrite Hwritten.
    + left. unfold SetupCommand.execute. rewrite Hm. cbn [snd]. eexists; reflexivity.
Qed.

End SetupProperties.

Lemma X18_witness_missing_embed_links :
  let tw := SetupCommand.mkChannelOption "c1" (Some (fun _ => true)) in
  let yt := SetupCommand.mkChannelOption "c2"
              (Some (fun p => negb (String.eqb p "EmbedLinks"))) in
  (exists p, In p SetupCommand.requiredPermissions
             /\ (SetupCommand.lacks tw p = true \/ SetupCommand.lacks yt p = true))
  /\ fst (SetupCommand.execute SetupCommand.opt_id "guild-1" tw yt db_alice) = db_alice.
Proof.
  intros tw yt.
  assert (H : exists p, In p SetupCommand.requiredPermissions
                        /\ (SetupCommand.lacks tw p = true
                            \/ SetupCommand.lacks yt p = true)).
  { exists "EmbedLinks"%string. split; [cbn; auto|right; reflexivity]. }
  split; [exact H|].
  exact (proj1 (proj1 (X18_setup_requires_permissions_then_writes
                         SetupCommand.opt_id "guild-1" tw yt db_alice) H)).
Defined.

(* ------------------------------------------------------------------ *)
(** * Delivery to the guilds *)

Lemma no_missing_permission (has : string -> bool) :
  filter (fun perm => negb (has perm)) Delivery.requiredPermissions = []
  <-> (forall p, In p Delivery.requiredPermissions -> has p = true).
Proof.
  unfold Delivery.requiredPermissions. cbn [filter]. split.
  - intros Hnil p Hp.
    destruct (has "ViewChannel"%string) eqn:H1; cbn [negb] in Hnil; [|discriminate].
    destruct (has "SendMessages"%string) eqn:H2; cbn [negb] in Hnil; [|discriminate].
    destruct (has "EmbedLinks"%string) eqn:H3; cbn [negb] in Hnil; [|discriminate].
    destruct Hp as [<-|[<-|[<-|[]]]]; assumption.
  - intros Hall.
    rewrite (Hall "ViewChannel"%string), (Hall "SendMessages"%string),
      (Hall "EmbedLinks"%string) by (cbn; auto).
    reflexivity.
Qed.

(** When [resolveTarget] yields a channel. *)
Lemma resolveTarget_ready (column : DiscordChannels -> option string)
      (db : Db) (guild : Guild) (c : Channel) :
  resolveTarget column db guild = Ready c
  <-> exists row channelId has,
        getGuildChannels (g_id guild) db = Some (Some row)
        /\ column row = Some channelId
        /\ channelId <> EmptyString
        /\ g_fetch guild channelId = FetchedChannel c
        /\ channel_permissions c = Some has
        /\ (forall p, In p Delivery.requiredPermissions -> has p = true).
Proof.
  unfold resolveTarget. split.
  - destruct (getGuildChannels (g_id guild) db) as [[row|]|]; try discriminate.
    unfold truthy. destruct (column row) as [channelId|] eqn:Hcol; try discriminate.
    destruct (String.eqb_spec channelId EmptyString) as [|Hne]; try discriminate.
    destruct (g_fetch guild channelId) as [| |c'] eqn:Hfetch; try discriminate.
    destruct (channel_permissions c') as [has|] eqn:Hperm; try discriminate.
    destruct (filter _ _) eqn:Hf; try discriminate.
    intros [= <-]. exists row, channelId, has.
    repeat split; try assumption. now apply no_missing_permission.
  - intros (row & channelId & has & -> & Hcol & Hne & Hfetch & Hperm & Hall).
    unfold truthy. rewrite Hcol.
    destruct (String.eqb_spec channelId EmptyString); [contradiction|].
    rewrite Hfetch, Hperm.
    now rewrite (proj2 (no_missing_permission has) Hall).
Qed.

(** X19: [sendTwitterUpdate] visits every guild, whatever happens in the
    others, and attempts a send in a guild exactly when the guild has a
    row with a non-empty Twitter channel id, that channel can be fetched,
    and the bot holds ViewChannel, SendMessages and EmbedLinks in it; a
    send that fails is recorded for its guild only. *)
Theorem X19_sendTwitterUpdate_sends_where_configured_and_permitted :
  forall (guilds : list Guild) (db : Db) (tweetData : TweetData) (a : User),
    author tweetData = Some a ->
    exists outcomes,
      sendTwitterUpdate guilds db tweetData = Some outcomes
      /\ map fst outcomes = map g_id guilds
      /\ forall guild, In guild guilds ->
           In (g_id guild, deliverTweet db (tweet_id (tweet tweetData)) guild) outcomes
           /\ ((deliverTweet db (tweet_id (tweet tweetData)) guild = TweetSent
                \/ deliverTweet db (tweet_id (tweet tweetData)) guild = TweetSendFailed)
               <-> exists row channelId c has,
                     getGuildChannels (g_id guild) db = Some (Some row)
                     /\ twitter_channel_id row = Some channelId
                     /\ channelId <> EmptyString
                     /\ g_fetch guild channelId = FetchedChannel c
                     /\ channel_permissions c = Some has
                     /\ (forall p, In p Delivery.requiredPermissions -> has p = true)).
Proof.
  intros guilds db tweetData a Ha. unfold sendTwitterUpdate. rewrite Ha.
  eexists. split; [reflexivity|]. split.
  - rewrite map_map. reflexivity.
  - intros guild Hin. split.
    + apply in_map_iff. exists guild. auto.
    + unfold deliverTweet. split.
      * destruct (resolveTarget twitter_channel_id db guild) as [| | | | | |c] eqn:Hr;
          cbn iota; try (intros [H|H]; discriminate H).
        intros _. apply resolveTarget_ready in Hr
          as (row & channelId & has & H1 & H2 & H3 & H4 & H5 & H6).
        exists row, channelId, c, has. repeat split; assumption.
      * intros (row & channelId & c & has & H).
        assert (Hr : resolveTarget twitter_channel_id db guild = Ready c).
        { apply resolveTarget_ready. exists row, channelId, has. exact H. }
        rewrite Hr. destruct (channel_send c _); auto.
Qed.

Lemma sendVideos_until_first_failure (c : Channel) (videos : list Video) :
  (snd (sendVideos c videos) = true ->
     fst (sendVideos c videos) = map video_id videos
     /\ forall v, In v videos -> channel_send c (video_id v) = true)
  /\ (snd (sendVideos c videos) = false ->
        exists before v after,
          videos = before ++ v :: after
          /\ fst (sendVideos c videos) = map video_id before
          /\ channel_send c (video_id v) = false
          /\ forall b, In b before -> channel_send c (video_id b) = true).
Proof.
  induction videos as [|v rest [IHok IHfail]]; cbn [sendVideos].
  - split; [intros _; split; [reflexivity|intros ? []]|discriminate].
  - destruct (channel_send c (video_id v)) eqn:Hsend.
    + destruct (sendVideos c rest) as [sent completed]. cbn [fst snd] in *. split.
      * intros ->. destruct (IHok eq_refl) as [-> Hall]. split; [reflexivity|].
        intros v' [<-|Hin]; [exact Hsend|exact (Hall v' Hin)].
      * intros ->. destruct (IHfail eq_refl) as (before & w & after & -> & -> & Hw & Hb).
        exists (v :: before), w, after. repeat split; try assumption.
        intros b [<-|Hin]; [exact Hsend|exact (Hb b Hin)].
    + cbn [fst snd]. split; [discriminate|]. intros _.
      exists [], v, rest. repeat split; try assumption. intros ? [].
Qed.

(** X20: in a guild that is ready, [sendYouTubeUpdate] sends the videos
    of the upload in order and stops at the first send that fails: the
    videos before it were sent, it and all videos after it were not; and
    every guild gets its own outcome. *)
Theorem X20_sendYouTubeUpdate_stops_at_first_failed_send :
  forall (guilds : list Guild) (db : Db) (uploadData : UploadData)
         (guild : Guild) (c : Channel),
    In guild guilds ->
    resolveTarget youtube_channel_id db guild = Ready c ->
    exists sent completed,
      In (g_id guild, UploadSent sent completed)
         (sendYouTubeUpdate guilds db uploadData)
      /\ map fst (sendYouTubeUpdate guilds db uploadData) = map g_id guilds
      /\ (completed = true ->
            sent = map video_id (up_videos uploadData)
            /\ forall v, In v (up_videos uploadData) ->
                         channel_send c (video_id v) = true)
      /\ (completed = false ->
            exists before v after,
              up_videos uploadData = before ++ v :: after
              /\ sent = map video_id before
              /\ channel_send c (video_id v) = false
              /\ forall b, In b before -> channel_send c (video_id b) = true).
Proof.
  intros guilds db uploadData guild c Hin Hready.
  exists (fst (sendVideos c (up_videos uploadData))),
         (snd (sendVideos c (up_videos uploadData))).
  split; [|split].
  - unfold sendYouTubeUpdate. apply in_map_iff. exists guild. split; [|exact Hin].
    unfold deliverUpload. rewrite Hready.
    now destruct (sendVideos c (up_videos uploadData)).
  - unfold sendYouTubeUpdate. now rewrite map_map.
  - apply sendVideos_until_first_failure.
Qed.

Lemma X19_witness_two_guilds :
  author tweet_data_5 = Some user_alice
  /\ sendTwitterUpdate [guild_unconfigured; guild_ok] db_alice tweet_data_5
     = Some [("guild-9"%string, TweetSkipped NotConfigured);
             ("guild-1"%string, TweetSent)].
Proof.
  assert (H : author tweet_data_5 = Some user_alice) by reflexivity.
  split; [exact H|].
  destruct (X19_sendTwitterUpdate_sends_where_configured_and_permitted
              [guild_unconfigured; guild_ok] db_alice tweet_data_5 user_alice H)
    as (outcomes & Hrun & _).
  rewrite Hrun. f_equal.
  assert (Hsome : Some outcomes
                  = Some [("guild-9"%string, TweetSkipped NotConfigured);
                          ("guild-1"%string, TweetSent)])
    by (rewrite <- Hrun; reflexivity).
  now injection Hsome.
Defined.

Lemma X20_witness_second_video_fails :
  In guild_ok [guild_unconfigured; guild_ok]
  /\ resolveTarget youtube_channel_id db_alice guild_ok = Ready chan_ok
  /\ exists sent completed,
       In (g_id guild_ok, UploadSent sent completed)
          (sendYouTubeUpdate [guild_unconfigured; guild_ok] db_alice upload_three)
       /\ sendVideos chan_ok (up_videos upload_three) = (["v1"%string], false).
Proof.
  assert (H1 : In guild_ok [guild_unconfigured; guild_ok]) by (right; left; reflexivity).
  assert (H2 : resolveTarget youtube_channel_id db_alice guild_ok = Ready chan_ok)
    by reflexivity.
  split; [exact H1|]. split; [exact H2|].
  destruct (X20_sendYouTubeUpdate_stops_at_first_failed_send
              [guild_unconfigured; guild_ok] db_alice upload_three guild_ok chan_ok
              H1 H2) as (sent & completed & Hin & _).
  exists sent, completed. split; [exact Hin|reflexivity].
Defined.

(* ------------------------------------------------------------------ *)
(** * The tweet link *)

(** X21: for every author name and tweet id, the link that
    [sendTwitterUpdate] builds is rewritten to the vxtwitter.com host with
    the rest of the link unchanged; an x.com link is rewritten the same
    way; and the rewriting is not idempotent: applied to its own result it
    matches the [twitter.com] inside [vxtwitter.com] and prefixes again. *)
Theorem X21_convertToVxTwitter_on_tweet_links :
  forall (username tweetId : string),
    convertToVxTwitter (tweetUrl username tweetId)
    = ("https://vxtwitter.com/" ++ username ++ "/status/" ++ tweetId)%string
    /\ convertToVxTwitter ("https://x.com/" ++ username ++ "/status/" ++ tweetId)
       = ("https://vxtwitter.com/" ++ username ++ "/status/" ++ tweetId)%string
    /\ convertToVxTwitter (convertToVxTwitter (tweetUrl username tweetId))
       = ("https://vxvxtwitter.com/" ++ username ++ "/status/" ++ tweetId)%string.
Proof.
  intros username tweetId. repeat split; reflexivity.
Qed.

(* ------------------------------------------------------------------ *)
(** * The media of a tweet *)

Lemma Map_get_set (k k' : string) (v : Media) (m : MediaMap) :
  Map_get k (Map_set k' v m)
  = if String.eqb k' k then Some v else Map_get k m.
Proof.
  unfold Map_get. induction m as [|[k0 v0] m IH]; cbn [Map_set find fst].
  - destruct (String.eqb k' k); reflexivity.
  - destruct (String.eqb_spec k0 k') as [->|Hne]; cbn [find fst].
    + destruct (String.eqb k' k); reflexivity.
    + destruct (String.eqb_spec k0 k) as [->|Hne2].
      * destruct (String.eqb_spec k' k); [congruence|reflexivity].
      * exact IH.
Qed.

Lemma Map_get_fold (k : string) (l : list Media) :
  forall m0,
    Map_get k (fold_left (fun m x => Map_set (media_key x) x m) l m0)
    = match find_last (fun x => String.eqb (media_key x) k) l with
      | Some x => Some x
      | None => Map_get k m0
      end.
Proof.
  unfold find_last. induction l as [|x l IH]; intros m0; [reflexivity|].
  cbn [fold_left rev]. rewrite IH, Map_get_set.
  assert (Hfind : forall (p : Media -> bool) (l1 : list Media) (y : Media),
             find p (l1 ++ [y])
             = match find p l1 with
               | Some z => Some z
               | None => if p y then Some y else None
               end).
  { intros p l1 y. induction l1 as [|z l1 IHl]; [reflexivity|].
    cbn [app find]. destruct (p z); [reflexivity|exact IHl]. }
  rewrite Hfind. destruct (find _ (rev l)); [reflexivity|].
  destruct (String.eqb (media_key x) k); reflexivity.
Qed.

(** X23: the media of a fetched tweet are its media keys looked up in the
    media list that came with the answer, key by key and in the order of
    the keys: a key resolves to the last included media object that
    carries it and to nothing when no included object does; a tweet
    without attachments has no media list. *)
Theorem X23_media_joined_by_key :
  forall (response : Response) (users : list User) (t : Tweet),
    f_media (attachMedia (buildMediaMap (includes_media response)) users t)
    = option_map
        (map (fun key =>
                find_last (fun m => String.eqb (media_key m) key)
                          (match includes_media response with
                           | Some l => l
                           | None => []
                           end)))
        (attachments_media_keys t)
    /\ (forall keys,
          attachments_media_keys t = Some keys ->
          option_map (@List.length _)
                     (f_media (attachMedia (buildMediaMap (includes_media response))
                                           users t))
          = Some (List.length keys))
    /\ f_tweet (attachMedia (buildMediaMap (includes_media response)) users t) = t.
Proof.
  intros response users t. cbn [f_media f_tweet attachMedia].
  assert (Hmap : forall key,
             Map_get key (buildMediaMap (includes_media response))
             = find_last (fun m => String.eqb (media_key m) key)
                         (match includes_media response with
                          | Some l => l | None => [] end)).
  { intros key. unfold buildMediaMap.
    destruct (includes_media response) as [l|]; [|reflexivity].
    rewrite Map_get_fold. now destruct (find_last _ l). }
  split; [|split; [|reflexivity]].
  - destruct (attachments_media_keys t) as [keys|]; [|reflexivity].
    cbn [option_map]. f_equal. apply map_ext. exact Hmap.
  - intros keys ->. cbn [option_map]. now rewrite length_map.
Qed.

(* ------------------------------------------------------------------ *)
(** * What one request does to the store *)

(** Whatever the gate and the upstream answer, [fetchTweets] touches
    nothing but the cursor of the account it polls. *)
Lemma fetchTweets_frame :
  forall (gate : State -> option (bool * State)) (api : Twitter.Api)
         (a : TwitterAccount) (s s' : State) (db db' : Db) (o : FetchOutcome),
    fetchTweets gate api a s db = Some (o, s', db') ->
    youtube_channels db' = youtube_channels db
    /\ discord_channels db' = discord_channels db
    /\ map account_handle (twitter_accounts db')
       = map account_handle (twitter_accounts db)
    /\ (forall h, h <> account_handle a -> cursor_of h db' = cursor_of h db)
    /\ (o = GateDenied \/ o = NoNewTweets \/ o = Throttled -> db' = db)
    /\ (db' <> db ->
          exists r newest older,
            api (account_handle a) (or_undefined (last_tweet_id a)) = ApiOk r
            /\ data r = Some (newest :: older)
            /\ db' = updateLastTweetId (account_handle a) (tweet_id newest) db
            /\ ((exists items, o = Fetched items)
                \/ (o = FetchError /\ includes_users r = None))).
Proof.
  intros gate api a s s' db db' o. unfold fetchTweets.
  assert (Hsame : forall o0 s0, Some (o0, s0, db) = Some (o, s', db') ->
            (o0 = FetchError -> False \/ True) ->
            youtube_channels db' = youtube_channels db
            /\ discord_channels db' = discord_channels db
            /\ map account_handle (twitter_accounts db')
               = map account_handle (twitter_accounts db)
            /\ (forall h, h <> account_handle a -> cursor_of h db' = cursor_of h db)
            /\ (o = GateDenied \/ o = NoNewTweets \/ o = Throttled -> db' = db)
            /\ (db' <> db ->
                exists r newest older,
                  api (account_handle a) (or_undefined (last_tweet_id a)) = ApiOk r
                  /\ data r = Some (newest :: older)
                  /\ db' = updateLastTweetId (account_handle a) (tweet_id newest) db
                  /\ ((exists items, o = Fetched items)
                      \/ (o = FetchError /\ includes_users r = None)))).
  { intros o0 s0 [= <- <- <-] _. repeat split; try reflexivity.
    intros H. now contradiction H. }
  destruct (gate s) as [[[|] s1]|]; [| |discriminate].
  2:{ intros H. eapply Hsame; [exact H|auto]. }
  destruct (api (account_handle a) (or_undefined (last_tweet_id a)))
    as [r|status hint|] eqn:Hapi.
  - destruct (negb (valid_date _));
      [intros H; eapply Hsame; [exact H|auto]|].
    destruct (data r) as [[|newest older]|] eqn:Hdata.
    + intros H. eapply Hsame; [exact H|auto].
    + assert (Hwritten : forall o0 s0,
                Some (o0, s0, updateLastTweetId (account_handle a) (tweet_id newest) db)
                = Some (o, s', db') ->
                ((exists items, o0 = Fetched items)
                 \/ (o0 = FetchError /\ includes_users r = None)) ->
                youtube_channels db' = youtube_channels db
                /\ discord_channels db' = discord_channels db
                /\ map account_handle (twitter_accounts db')
                   = map account_handle (twitter_accounts db)
                /\ (forall h, h <> account_handle a ->
                              cursor_of h db' = cursor_of h db)
                /\ (o = GateDenied \/ o = NoNewTweets \/ o = Throttled -> db' = db)
                /\ (db' <> db ->
                    exists r0 newest0 older0,
                      ApiOk r = ApiOk r0
                      /\ data r0 = Some (newest0 :: older0)
                      /\ db' = updateLastTweetId (account_handle a)
                                                 (tweet_id newest0) db
                      /\ ((exists items, o = Fetched items)
                          \/ (o = FetchError /\ includes_users r0 = None)))).
      { intros o0 s0 [= <- <- <-] Hout.
        split; [reflexivity|]. split; [reflexivity|]. split; [|split; [|split]].
        - unfold updateLastTweetId, set_twitter_accounts. cbn [twitter_accounts].
          rewrite map_map. apply map_ext. intros row.
          destruct (String.eqb (account_handle row) (account_handle a)); reflexivity.
        - intros h Hne. rewrite cursor_of_update.
          destruct (cursor_of h db); [|reflexivity].
          destruct (String.eqb_spec h (account_handle a)); [contradiction|reflexivity].
        - intros [-> | [-> | ->]]; destruct Hout as [(items & Hi)|[Hi _]]; discriminate.
        - intros _. exists r, newest, older. auto. }
      destruct (includes_users r) as [users|] eqn:Husers; intros H.
      * eapply Hwritten; [exact H|left; eexists; reflexivity].
      * eapply Hwritten; [exact H|right; auto].
    + intros H. eapply Hsame; [exact H|auto].
  - destruct (status =? 429); intros H; (eapply Hsame; [exact H|auto]).
  - intros H. eapply Hsame; [exact H|auto].
Qed.

(** X24: whatever the gate and the upstream answer, [fetchTweets] touches
    nothing but the cursor of the account it polls: the other tables, the
    set of handles and the cursors of the other handles are as before.
    After a granted request answered with items, the cursor is written
    exactly when the reset header gives a date that can be printed: then
    the write comes before the items are joined with their authors, so an
    answer without the included users ends in the error branch with the
    cursor already moved, and one with them returns every item; with a
    reset header outside the range of dates the call ends in the error
    branch before the write and the cursor stays. *)
Theorem X24_fetchTweets_writes_only_own_cursor :
  forall (gate : State -> option (bool * State)) (api : Twitter.Api)
         (a : TwitterAccount) (s : State) (db : Db),
    (forall s' db' o,
       fetchTweets gate api a s db = Some (o, s', db') ->
       youtube_channels db' = youtube_channels db
       /\ discord_channels db' = discord_channels db
       /\ map account_handle (twitter_accounts db')
          = map account_handle (twitter_accounts db)
       /\ (forall h, h <> account_handle a -> cursor_of h db' = cursor_of h db)
       /\ (o = GateDenied \/ o = NoNewTweets \/ o = Throttled -> db' = db)
       /\ (db' <> db ->
             exists r newest older,
               api (account_handle a) (or_undefined (last_tweet_id a)) = ApiOk r
               /\ data r = Some (newest :: older)
               /\ db' = updateLastTweetId (account_handle a) (tweet_id newest) db
               /\ ((exists items, o = Fetched items)
                   \/ (o = FetchError /\ includes_users r = None))))
    /\ (forall s1 r newest older,
          gate s = Some (true, s1) ->
          api (account_handle a) (or_undefined (last_tweet_id a)) = ApiOk r ->
          data r = Some (newest :: older) ->
          let s2 := recordResponse (x_rate_limit_remaining r) (x_rate_limit_reset r)
                                   (set_lastRequestTime (clock s1) s1) in
          let written := updateLastTweetId (account_handle a) (tweet_id newest) db in
          let printable := valid_date (parseInt_or 0 (x_rate_limit_reset r) * 1000) in
          (printable = true -> includes_users r = None ->
             fetchTweets gate api a s db = Some (FetchError, s2, written))
          /\ (printable = true -> forall users, includes_users r = Some users ->
                fetchTweets gate api a s db
                = Some (Fetched (map (attachMedia (buildMediaMap (includes_media r)) users)
                                     (newest :: older)), s2, written))
          /\ (printable = false ->
                fetchTweets gate api a s db = Some (FetchError, s2, db))).
Proof.
  intros gate api a s db. split.
  - intros s' db' o. apply fetchTweets_frame.
  - intros s1 r newest older Hgate Hapi Hdata s2 written printable.
    assert (Hreset : resetAt s2 = parseInt_or 0 (x_rate_limit_reset r) * 1000)
      by (unfold s2; tracker_fields; reflexivity).
    unfold fetchTweets. rewrite Hgate, Hapi. fold s2. rewrite Hreset.
    fold printable. rewrite Hdata. fold written.
    split; [|split].
    + intros -> ->. reflexivity.
    + intros -> users ->. reflexivity.
    + intros ->. reflexivity.
Qed.

Lemma X24_witness_other_cursor_kept :
  (exists o s' db',
     fetchTweets (handleRateLimit 1) api_543 alice (constructor 1641600000000)
                 db_alice_bob = Some (o, s', db')
     /\ cursor_of "alice" db' = Some (Some "5"%string)
     /\ cursor_of "bob" db' = cursor_of "bob" db_alice_bob)
  /\ (exists s',
        fetchTweets (handleRateLimit 1)
                    (fun _ _ => ApiOk (mkResponse (Some 179) (Some 9000000000000)
                                                  (Some [tweet_of "5" "u1"])
                                                  (Some [user_alice]) None))
                    alice (constructor 1641600000000) db_alice_bob
        = Some (FetchError, s', db_alice_bob)).
Proof.
  assert (Hrun : exists o s' db',
             fetchTweets (handleRateLimit 1) api_543 alice
                         (constructor 1641600000000) db_alice_bob
             = Some (o, s', db')
             /\ cursor_of "alice" db' = Some (Some "5"%string))
    by (eexists _, _, _; split; vm_compute; reflexivity).
  split.
  - destruct Hrun as (o & s' & db' & Hrun & Halice).
    exists o, s', db'. split; [exact Hrun|]. split; [exact Halice|].
    destruct (proj1 (X24_fetchTweets_writes_only_own_cursor
                       (handleRateLimit 1) api_543 alice
                       (constructor 1641600000000) db_alice_bob) _ _ _ Hrun)
      as (_ & _ & _ & Hothers & _).
    apply Hothers. discriminate.
  - destruct (handleRateLimit_branches 0 (constructor 1641600000000))
      as (s1 & Hgate & _).
    pose (r := mkResponse (Some 179) (Some 9000000000000)
                          (Some [tweet_of "5" "u1"]) (Some [user_alice]) None).
    eexists.
    refine (proj2 (proj2 (proj2 (X24_fetchTweets_writes_only_own_cursor
              (handleRateLimit 1) (fun _ _ => ApiOk r) alice
              (constructor 1641600000000) db_alice_bob)
              s1 r (tweet_of "5" "u1") [] Hgate eq_refl eq_refl)) _).
    vm_compute. reflexivity.
Defined.

(* ------------------------------------------------------------------ *)
(** * The store of the quota-free poller *)

Lemma processChannels_store (api : YouTube.Api) (now : Z) :
  forall channels results db,
    snd (processChannels api now channels results db)
    = fold_left (uploadCursor api now) channels db.
Proof.
  induction channels as [|ch rest IH]; intros results db; [reflexivity|].
  cbn [processChannels fold_left]. unfold uploadCursor at 2.
  destruct (fetchLatestVideos api (channel_id ch)) as [[ci vs]|]; [|apply IH].
  destruct (filter (isNewVideo now) vs) as [|newest more]; apply IH.
Qed.

Lemma updateLastVideoId_ids (c v : string) (db : Db) :
  map channel_id (youtube_channels (updateLastVideoId c v db))
  = map channel_id (youtube_channels db).
Proof.
  unfold updateLastVideoId, set_youtube_channels. cbn [youtube_channels].
  rewrite map_map. apply map_ext. intros r.
  destruct (String.eqb (channel_id r) c); reflexivity.
Qed.

Lemma uploadCursor_ids (api : YouTube.Api) (now : Z) (channels : list YoutubeChannel) :
  forall db,
    map channel_id (youtube_channels (fold_left (uploadCursor api now) channels db))
    = map channel_id (youtube_channels db).
Proof.
  induction channels as [|ch rest IH]; intros db; [reflexivity|].
  cbn [fold_left]. rewrite IH. unfold uploadCursor.
  destruct (fetchLatestVideos api (channel_id ch)) as [[ci vs]|]; [|reflexivity].
  destruct (filter (isNewVideo now) vs); [reflexivity|apply updateLastVideoId_ids].
Qed.

Lemma uploadsOf_by_id (api : YouTube.Api) (now : Z) :
  forall l1 l2 : list YoutubeChannel,
    map channel_id l1 = map channel_id l2 ->
    flat_map (uploadsOf api now) l1 = flat_map (uploadsOf api now) l2.
Proof.
  induction l1 as [|a l1 IH]; intros [|b l2] Hmap; try discriminate; [reflexivity|].
  cbn [map] in Hmap. injection Hmap as Hid Hrest. cbn [flat_map].
  rewrite (IH l2 Hrest). f_equal. unfold uploadsOf. now rewrite Hid.
Qed.

(** X25: [checkNewUploads] never reads the stored video cursor.  What a
    pass reports depends on the channel ids, the upstream and the clock
    only, so a pass that follows another reports what it would have
    reported without it; a video reported by the first pass is reported
    again by the second whenever the upstream still lists it and it is
    still less than fifteen minutes old. *)
Theorem X25_uploads_reported_again_within_window :
  forall (api : YouTube.Api) (now0 now : Z) (db : Db),
    let db1 := snd (checkNewUploads api now0 db) in
    fst (checkNewUploads api now db1) = fst (checkNewUploads api now db)
    /\ map channel_id (youtube_channels db1) = map channel_id (youtube_channels db)
    /\ (forall u v,
          In u (fst (checkNewUploads api now0 db)) -> In v (up_videos u) ->
          isNewVideo now v = true ->
          exists u', In u' (fst (checkNewUploads api now db1)) /\ In v (up_videos u')).
Proof.
  intros api now0 now db db1.
  assert (Hids : map channel_id (youtube_channels db1)
                 = map channel_id (youtube_channels db)).
  { unfold db1, checkNewUploads, getAllYoutubeChannels.
    rewrite processChannels_store. apply uploadCursor_ids. }
  assert (Hsame : fst (checkNewUploads api now db1) = fst (checkNewUploads api now db)).
  { unfold checkNewUploads, getAllYoutubeChannels.
    rewrite !processChannels_results. cbn [app]. now apply uploadsOf_by_id. }
  split; [exact Hsame|]. split; [exact Hids|].
  intros u v Hu Hv Hnew. rewrite Hsame.
  unfold checkNewUploads in *. rewrite processChannels_results in *.
  cbn [app] in *. apply in_flat_map in Hu as (ch & Hch & Hu).
  destruct (proj1 (uploadsOf_videos api now0 ch v)) as (ci & vs & Hf & Hin & _);
    [exists u; auto|].
  destruct (proj2 (uploadsOf_videos api now ch v)) as (u' & Hu' & Hv');
    [exists ci, vs; auto|].
  exists u'. split; [|exact Hv']. apply in_flat_map. exists ch. auto.
Qed.

Lemma video_cursor_of_update (c c' id : string) (db : Db) :
  video_cursor_of c (updateLastVideoId c' id db)
  = match video_cursor_of c db with
    | Some x => Some (if String.eqb c c' then Some id else x)
    | None => None
    end.
Proof.
  unfold video_cursor_of, updateLastVideoId, set_youtube_channels.
  cbn [youtube_channels].
  induction (youtube_channels db) as [|r rows IH]; [reflexivity|].
  cbn [map find].
  destruct (String.eqb_spec (channel_id r) c') as [Hr|Hr]; cbn [channel_id].
  - destruct (String.eqb_spec (channel_id r) c) as [Hc|Hc].
    + cbn. destruct (String.eqb_spec c c'); [reflexivity|congruence].
    + exact IH.
  - destruct (String.eqb_spec (channel_id r) c) as [Hc|Hc].
    + cbn. destruct (String.eqb_spec c c'); [congruence|reflexivity].
    + exact IH.
Qed.

Lemma video_cursor_uploadCursor_other (api : YouTube.Api) (now : Z) (c : string)
      (ch : YoutubeChannel) (db : Db) :
  channel_id ch <> c ->
  video_cursor_of c (uploadCursor api now db ch) = video_cursor_of c db.
Proof.
  intros Hne. unfold uploadCursor.
  destruct (fetchLatestVideos api (channel_id ch)) as [[ci vs]|]; [|reflexivity].
  destruct (filter (isNewVideo now) vs) as [|newest more]; [reflexivity|].
  rewrite video_cursor_of_update. destruct (video_cursor_of c db); [|reflexivity].
  destruct (String.eqb_spec c (channel_id ch)); [congruence|reflexivity].
Qed.

Lemma video_cursor_fold_others (api : YouTube.Api) (now : Z) (c : string)
      (channels : list YoutubeChannel) :
  forall db,
    ~ In c (map channel_id channels) ->
    video_cursor_of c (fold_left (uploadCursor api now) channels db)
    = video_cursor_of c db.
Proof.
  induction channels as [|ch rest IH]; intros db Hnotin; [reflexivity|].
  cbn [fold_left]. rewrite IH by (intros Hin; apply Hnotin; right; exact Hin).
  apply video_cursor_uploadCursor_other. intros Heq. apply Hnotin. left. exact Heq.
Qed.

(** X26: after a pass of [checkNewUploads] over channels with unique ids,
    a channel with new videos has the id of the first of them, in the
    order of the upstream answer, as its stored video cursor, and a
    channel whose lookup fails or that has no new video keeps the cursor
    it had. *)
Theorem X26_video_cursor_is_first_new_video :
  forall (api : YouTube.Api) (now : Z) (db : Db) (ch : YoutubeChannel),
    unique_channels db ->
    In ch (getAllYoutubeChannels db) ->
    let db' := snd (checkNewUploads api now db) in
    (forall info videos newest more,
       fetchLatestVideos api (channel_id ch) = Some (info, videos) ->
       filter (isNewVideo now) videos = newest :: more ->
       video_cursor_of (channel_id ch) db' = Some (Some (video_id newest)))
    /\ (uploadsOf api now ch = [] ->
        video_cursor_of (channel_id ch) db' = video_cursor_of (channel_id ch) db).
Proof.
  intros api now db ch Hu Hin db'. unfold db', checkNewUploads, getAllYoutubeChannels
    in *. rewrite processChannels_store. unfold unique_channels in Hu.
  assert (Hrow : video_cursor_of (channel_id ch) db <> None).
  { unfold video_cursor_of. destruct (find _ _) eqn:Hf; [discriminate|].
    eapply find_none in Hf; [|exact Hin]. cbn in Hf.
    now rewrite String.eqb_refl in Hf. }
  assert (Hgen : forall channels d,
            NoDup (map channel_id channels) -> In ch channels ->
            video_cursor_of (channel_id ch) (fold_left (uploadCursor api now) channels d)
            = video_cursor_of (channel_id ch) (uploadCursor api now d ch)).
  { induction channels as [|b rest IH]; intros d Hnd Hb; [contradiction|].
    inversion Hnd as [|? ? Hnotin Hrest]; subst. cbn [fold_left].
    destruct Hb as [->|Hb].
    - now apply video_cursor_fold_others.
    - rewrite (IH _ Hrest Hb).
      assert (Hne : channel_id b <> channel_id ch).
      { intros Heq. apply Hnotin. rewrite Heq. now apply in_map. }
      unfold uploadCursor at 1 3.
      destruct (fetchLatestVideos api (channel_id ch)) as [[ci vs]|];
        [|now apply video_cursor_uploadCursor_other].
      destruct (filter (isNewVideo now) vs) as [|newest more];
        [now apply video_cursor_uploadCursor_other|].
      rewrite !video_cursor_of_update.
      now rewrite video_cursor_uploadCursor_other. }
  rewrite (Hgen _ _ Hu Hin). split.
  - intros info videos newest more Hf Hnew. unfold uploadCursor.
    rewrite Hf, Hnew, video_cursor_of_update.
    destruct (video_cursor_of (channel_id ch) db); [|contradiction].
    now rewrite String.eqb_refl.
  - unfold uploadsOf, uploadCursor.
    destruct (fetchLatestVideos api (channel_id ch)) as [[ci vs]|]; [|reflexivity].
    destruct (filter (isNewVideo now) vs); [reflexivity|discriminate].
Qed.

Lemma X26_witness_channel_with_new_video :
  unique_channels db_channels
  /\ In (mkYoutubeChannel "UC1" None) (getAllYoutubeChannels db_channels)
  /\ video_cursor_of "UC1" (snd (checkNewUploads yt_known 1641600000000 db_channels))
     = Some (Some "v1"%string)
  /\ video_cursor_of "UC2" (snd (checkNewUploads yt_known 1641600000000 db_channels))
     = Some (Some "old"%string).
Proof.
  assert (Hu : unique_channels db_channels).
  { repeat constructor; cbn; intuition discriminate. }
  assert (Hin : In (mkYoutubeChannel "UC1" None) (getAllYoutubeChannels db_channels))
    by (left; reflexivity).
  split; [exact Hu|]. split; [exact Hin|]. split.
  - destruct (X26_video_cursor_is_first_new_video yt_known 1641600000000 db_channels
                (mkYoutubeChannel "UC1" None) Hu Hin) as [Hnew _].
    exact (Hnew (mkChannelInfo "UC1" "Channel One" "UU1")
                [mkVideo "v1" "First" 1641599700000;
                 mkVideo "v2" "Second" 1641590000000]
                (mkVideo "v1" "First" 1641599700000) [] eq_refl eq_refl).
  - destruct (X26_video_cursor_is_first_new_video yt_known 1641600000000 db_channels
                (mkYoutubeChannel "UC2" (Some "old"%string)) Hu) as [_ Hkeep];
      [right; left; reflexivity|].
    transitivity (video_cursor_of "UC2" db_channels);
      [exact (Hkeep eq_refl)|reflexivity].
Defined.

(* ------------------------------------------------------------------ *)
(** * A pass that the pre-check allows *)

(** X27: when the pre-check allows, one call of [runChecks] hands no
    tweet to the delivery loop, since the Twitter pass returns before its
    loop; it runs the YouTube pass at the clock reading of the call and
    on the store as it was, leaves the tracker as it was, and re-arms the
    timer for [getNextCheckTime(0)], in any time zone and without
    entering the skip-ahead loop. *)
Theorem X27_allowed_pass_hands_no_tweet_and_rearms :
  forall (zone : Zone) (gateFuel loopFuel : nat) (send : TweetData -> bool)
         (tw : Twitter.Api) (yt : YouTube.Api) (s : State) (db : Db),
    canProcessAccounts (Z.of_nat (List.length (getAllTwitterAccounts db))) s = true ->
    let uploads := checkNewUploads yt (clock s) db in
    let t := getNextCheckTime zone 0 (clock s) in
    runChecks zone gateFuel loopFuel send tw yt s db
    = Some (Completed [] (fst uploads) t (t - clock s), s, snd uploads).
Proof. exact runChecks_allowed. Qed.

Lemma X27_witness_alice_pass :
  canProcessAccounts (Z.of_nat (List.length (getAllTwitterAccounts db_alice)))
                     (constructor (at_time utc 19000 10 7 0 0)) = true
  /\ runChecks utc 1 0 send_fails api_543 yt_unknown
               (constructor (at_time utc 19000 10 7 0 0)) db_alice
     = Some (Completed [] [] (at_time utc 19000 10 15 0 0) (8 * msPerMinute),
             constructor (at_time utc 19000 10 7 0 0), db_alice).
Proof.
  assert (H : canProcessAccounts
                (Z.of_nat (List.length (getAllTwitterAccounts db_alice)))
                (constructor (at_time utc 19000 10 7 0 0)) = true)
    by (vm_compute; reflexivity).
  split; [exact H|].
  rewrite (X27_allowed_pass_hands_no_tweet_and_rearms
             utc 1 0 send_fails api_543 yt_unknown _ db_alice H).
  vm_compute. reflexivity.
Defined.

(* ------------------------------------------------------------------ *)
(** * The list of monitored accounts *)

(** X28: the answer of [/twitter list] is the fixed no-accounts text on an
    empty table, and otherwise names every monitored handle, each behind
    an [@]. *)
Theorem X28_twitter_list_names_every_account :
  forall (db : Db),
    (getAllTwitterAccounts db = [] ->
       TwitterCommand.execute_list db
       = "No Twitter accounts are being monitored."%string)
    /\ (forall a, In a (getAllTwitterAccounts db) ->
          contains ("@" ++ account_handle a) (TwitterCommand.execute_list db)).
Proof.
  intros db. unfold TwitterCommand.execute_list. split.
  - intros ->. reflexivity.
  - intros a Hin.
    destruct (getAllTwitterAccounts db) as [|a0 rest] eqn:Hacc; [contradiction|].
    rewrite <- Hacc in *. clear Hacc a0 rest.
    apply contains_app_r, contains_app_r.
    eapply contains_concat.
    + apply in_map_iff. exists a. split; [reflexivity|exact Hin].
    + apply contains_app_r.
      exists " "%string, EmptyString. cbn. f_equal. f_equal.
      clear. induction (account_handle a) as [|c s IH]; [reflexivity|].
      cbn. now rewrite <- IH.
Qed.
